(** * sailTrim: NMEA2000 telemetry core

    A shallow embedding of the libraries of the repository and the
    properties stated about them:

    - [navigation_data.py]  (class [NavigationData])
                                        -> [Module NavData], [Module NavStore]
    - [data_averager.py]    (class [DataAverager])     -> [Module Averager]
    - [nmea200_parser.py]   (class [NMEA2000Parser])   -> [Module Parser]
    - [tcp_client.py]       (the receive thread)       -> [Module Transport]
    - [plotting_manager.py] (the plot series)          -> [Module Plotting]
    - [nmea2000_app.py]     (the message handler)      -> [Module App]

    Conventions of the embedding.

    - Python numbers ([int] and [float]) are exact rationals [Q]; the
      rounding of binary floating point is not modelled.  [x % 360] is
      the floored remainder [py_mod].  A float result can differ from
      the exact one in the last place: [(-2**-70) % 360] is [360.0],
      and the float mean of three samples [0.05] is just above [0.05].
      Where a property bounds a computed number, it is stated with the
      bound that the rounded result keeps as well: the closed end 360
      for a remainder of a sum that may be negative, the sign for an
      average.
    - [datetime] values are integers counting microseconds (the
      resolution of [datetime]); a [timedelta(minutes=m)] is
      [60_000_000 * m].  Every call of [datetime.now()] is an explicit
      argument of the function that makes it.
    - A Python exception is a value [Raise e] of the [result] type;
      [try ... except] is a [match] on it.
    - [bytes] is [list byte]; a [dict] is a [gmap]; a [deque] or [list]
      is a [list], with [popleft] = [tail] and [append] = [++ [x]]. *)

From Stdlib Require Import ZArith QArith Qround Lia Lqa.
From Stdlib Require Import Strings.Ascii Strings.String Strings.Byte.
From stdpp Require Import base option list gmap strings pretty sorting.
From Equations Require Import Equations.

Close Scope Q_scope.
Open Scope Z_scope.

(* ===================================================================== *)
(** * Python run-time conventions                                         *)
(* ===================================================================== *)

Module Py.

(** The exception classes the modelled code can raise. *)
Inductive exn : Type :=
  | TypeError
  | ValueError
  | IndexError
  | StructError.

(** A computation that returns or raises. *)
Inductive result (A : Type) : Type :=
  | Ok (a : A)
  | Raise (e : exn).
Arguments Ok {A} a.
Arguments Raise {A} e.

#[global] Instance result_ret : MRet result := @Ok.

#[global] Instance result_bind : MBind result := fun A B k m =>
  match m with
  | Ok a => k a
  | Raise e => Raise e
  end.

Definition is_ok {A : Type} (m : result A) : Prop :=
  match m with Ok _ => True | Raise _ => False end.

(** [str(e)]: the text of an exception, kept symbolic. *)
Definition str_exn (e : exn) : string :=
  match e with
  | TypeError => "TypeError"
  | ValueError => "ValueError"
  | IndexError => "IndexError"
  | StructError => "struct.error"
  end.

(** [a % b] on numbers, for a positive modulus: the floored remainder,
    computed exactly.  It lies in [[0, b)]; the float operation returns
    this value rounded, which lies in [[0, b]] and is below [b] when [a]
    is not negative. *)
Definition py_mod (a b : Q) : Q :=
  (a - b * inject_Z (Qfloor (a / b)))%Q.

(** [l[i]]: item access with a non-negative index. *)
Definition getitem {A : Type} (l : list A) (i : nat) : result A :=
  match l !! i with
  | Some x => Ok x
  | None => Raise IndexError
  end.

(** [l.index(x)]: position of the first item equal to [x]. *)
Fixpoint index (x : Z) (l : list Z) : result nat :=
  match l with
  | [] => Raise ValueError
  | y :: l' =>
      if decide (y = x) then Ok 0%nat
      else i ← index x l'; Ok (S i)
  end.

(** Equality of bytes is decidable. *)
#[global] Instance byte_eq_decision : EqDecision byte := Byte.byte_eq_dec.

(** Remembers the equation of a scrutinee in a definition by cases. *)
Definition inspect {A : Type} (a : A) : {b : A | a = b} := exist _ a eq_refl.

(** [f"WP{waypoint_id}"]. *)
Definition wp_label (waypoint_id : Z) : string :=
  "WP" +:+ pretty waypoint_id.

End Py.

Import Py.

(* ===================================================================== *)
(** * navigation_data.py                                                  *)
(* ===================================================================== *)

Module NavData.

(** The value stored per waypoint id:
    [{'latitude': .., 'longitude': .., 'name': ..}]. *)
Record waypoint : Type := {
  wp_latitude : Q;
  wp_longitude : Q;
  wp_name : string
}.

(** An element of [waypoints_list] as [update_route] reads it:
    [wp['waypoint_id']], [wp['latitude']], [wp['longitude']],
    [wp.get('name')]. *)
Record waypoint_entry : Type := {
  we_waypoint_id : Z;
  we_latitude : Q;
  we_longitude : Q;
  we_name : option string
}.

(** The attributes of [NavigationData] that the modelled methods read or
    write.  The remaining attributes (position, waypoint display texts,
    destination, wind shifts) are touched by none of them. *)
Record NavigationData : Type := {
  current_cog : Q;
  current_sog : Q;
  current_vmg : Q;
  true_wind_speed : Q;
  true_wind_angle : Q;
  apparent_wind_speed : Q;
  apparent_wind_angle : Q;
  absolute_wind_direction : Q;
  current_waypoint_id : Z;
  current_route_id : Z;
  route_waypoints : gmap Z waypoint;
  waypoint_sequence : list Z
}.

(** [__init__]. *)
Definition init : NavigationData := {|
  current_cog := 0; current_sog := 0; current_vmg := 0;
  true_wind_speed := 0; true_wind_angle := 0;
  apparent_wind_speed := 0; apparent_wind_angle := 0;
  absolute_wind_direction := 0;
  current_waypoint_id := 0;
  current_route_id := 0;
  route_waypoints := ∅;
  waypoint_sequence := []
|}.

(** Attribute assignments [self.x = v]. *)
Definition set_current_cog (v : Q) (s : NavigationData) : NavigationData :=
  {| current_cog := v; current_sog := current_sog s; current_vmg := current_vmg s;
     true_wind_speed := true_wind_speed s; true_wind_angle := true_wind_angle s;
     apparent_wind_speed := apparent_wind_speed s;
     apparent_wind_angle := apparent_wind_angle s;
     absolute_wind_direction := absolute_wind_direction s;
     current_waypoint_id := current_waypoint_id s;
     current_route_id := current_route_id s;
     route_waypoints := route_waypoints s;
     waypoint_sequence := waypoint_sequence s |}.

Definition set_current_sog (v : Q) (s : NavigationData) : NavigationData :=
  {| current_cog := current_cog s; current_sog := v; current_vmg := current_vmg s;
     true_wind_speed := true_wind_speed s; true_wind_angle := true_wind_angle s;
     apparent_wind_speed := apparent_wind_speed s;
     apparent_wind_angle := apparent_wind_angle s;
     absolute_wind_direction := absolute_wind_direction s;
     current_waypoint_id := current_waypoint_id s;
     current_route_id := current_route_id s;
     route_waypoints := route_waypoints s;
     waypoint_sequence := waypoint_sequence s |}.

Definition set_current_vmg (v : Q) (s : NavigationData) : NavigationData :=
  {| current_cog := current_cog s; current_sog := current_sog s; current_vmg := v;
     true_wind_speed := true_wind_speed s; true_wind_angle := true_wind_angle s;
     apparent_wind_speed := apparent_wind_speed s;
     apparent_wind_angle := apparent_wind_angle s;
     absolute_wind_direction := absolute_wind_direction s;
     current_waypoint_id := current_waypoint_id s;
     current_route_id := current_route_id s;
     route_waypoints := route_waypoints s;
     waypoint_sequence := waypoint_sequence s |}.

Definition set_true_wind_speed (v : Q) (s : NavigationData) : NavigationData :=
  {| current_cog := current_cog s; current_sog := current_sog s;
     current_vmg := current_vmg s;
     true_wind_speed := v; true_wind_angle := true_wind_angle s;
     apparent_wind_speed := apparent_wind_speed s;
     apparent_wind_angle := apparent_wind_angle s;
     absolute_wind_direction := absolute_wind_direction s;
     current_waypoint_id := current_waypoint_id s;
     current_route_id := current_route_id s;
     route_waypoints := route_waypoints s;
     waypoint_sequence := waypoint_sequence s |}.

Definition set_true_wind_angle (v : Q) (s : NavigationData) : NavigationData :=
  {| current_cog := current_cog s; current_sog := current_sog s;
     current_vmg := current_vmg s;
     true_wind_speed := true_wind_speed s; true_wind_angle := v;
     apparent_wind_speed := apparent_wind_speed s;
     apparent_wind_angle := apparent_wind_angle s;
     absolute_wind_direction := absolute_wind_direction s;
     current_waypoint_id := current_waypoint_id s;
     current_route_id := current_route_id s;
     route_waypoints := route_waypoints s;
     waypoint_sequence := waypoint_sequence s |}.

Definition set_apparent_wind_speed (v : Q) (s : NavigationData) : NavigationData :=
  {| current_cog := current_cog s; current_sog := current_sog s;
     current_vmg := current_vmg s;
     true_wind_speed := true_wind_speed s; true_wind_angle := true_wind_angle s;
     apparent_wind_speed := v;
     apparent_wind_angle := apparent_wind_angle s;
     absolute_wind_direction := absolute_wind_direction s;
     current_waypoint_id := current_waypoint_id s;
     current_route_id := current_route_id s;
     route_waypoints := route_waypoints s;
     waypoint_sequence := waypoint_sequence s |}.

Definition set_apparent_wind_angle (v : Q) (s : NavigationData) : NavigationData :=
  {| current_cog := current_cog s; current_sog := current_sog s;
     current_vmg := current_vmg s;
     true_wind_speed := true_wind_speed s; true_wind_angle := true_wind_angle s;
     apparent_wind_speed := apparent_wind_speed s;
     apparent_wind_angle := v;
     absolute_wind_direction := absolute_wind_direction s;
     current_waypoint_id := current_waypoint_id s;
     current_route_id := current_route_id s;
     route_waypoints := route_waypoints s;
     waypoint_sequence := waypoint_sequence s |}.

Definition set_absolute_wind_direction (v : Q) (s : NavigationData)
  : NavigationData :=
  {| current_cog := current_cog s; current_sog := current_sog s;
     current_vmg := current_vmg s;
     true_wind_speed := true_wind_speed s; true_wind_angle := true_wind_angle s;
     apparent_wind_speed := apparent_wind_speed s;
     apparent_wind_angle := apparent_wind_angle s;
     absolute_wind_direction := v;
     current_waypoint_id := current_waypoint_id s;
     current_route_id := current_route_id s;
     route_waypoints := route_waypoints s;
     waypoint_sequence := waypoint_sequence s |}.

Definition set_current_waypoint_id (v : Z) (s : NavigationData) : NavigationData :=
  {| current_cog := current_cog s; current_sog := current_sog s;
     current_vmg := current_vmg s;
     true_wind_speed := true_wind_speed s; true_wind_angle := true_wind_angle s;
     apparent_wind_speed := apparent_wind_speed s;
     apparent_wind_angle := apparent_wind_angle s;
     absolute_wind_direction := absolute_wind_direction s;
     current_waypoint_id := v;
     current_route_id := current_route_id s;
     route_waypoints := route_waypoints s;
     waypoint_sequence := waypoint_sequence s |}.

Definition set_current_route_id (v : Z) (s : NavigationData) : NavigationData :=
  {| current_cog := current_cog s; current_sog := current_sog s;
     current_vmg := current_vmg s;
     true_wind_speed := true_wind_speed s; true_wind_angle := true_wind_angle s;
     apparent_wind_speed := apparent_wind_speed s;
     apparent_wind_angle := apparent_wind_angle s;
     absolute_wind_direction := absolute_wind_direction s;
     current_waypoint_id := current_waypoint_id s;
     current_route_id := v;
     route_waypoints := route_waypoints s;
     waypoint_sequence := waypoint_sequence s |}.

Definition set_route_waypoints (v : gmap Z waypoint) (s : NavigationData)
  : NavigationData :=
  {| current_cog := current_cog s; current_sog := current_sog s;
     current_vmg := current_vmg s;
     true_wind_speed := true_wind_speed s; true_wind_angle := true_wind_angle s;
     apparent_wind_speed := apparent_wind_speed s;
     apparent_wind_angle := apparent_wind_angle s;
     absolute_wind_direction := absolute_wind_direction s;
     current_waypoint_id := current_waypoint_id s;
     current_route_id := current_route_id s;
     route_waypoints := v;
     waypoint_sequence := waypoint_sequence s |}.

Definition set_waypoint_sequence (v : list Z) (s : NavigationData)
  : NavigationData :=
  {| current_cog := current_cog s; current_sog := current_sog s;
     current_vmg := current_vmg s;
     true_wind_speed := true_wind_speed s; true_wind_angle := true_wind_angle s;
     apparent_wind_speed := apparent_wind_speed s;
     apparent_wind_angle := apparent_wind_angle s;
     absolute_wind_direction := absolute_wind_direction s;
     current_waypoint_id := current_waypoint_id s;
     current_route_id := current_route_id s;
     route_waypoints := route_waypoints s;
     waypoint_sequence := v |}.

(** [if v is not None: self.x = v]. *)
Definition patch {A : Type} (set : A -> NavigationData -> NavigationData)
    (v : option A) (s : NavigationData) : NavigationData :=
  match v with
  | Some a => set a s
  | None => s
  end.

(** [update_navigation(cog=None, sog=None, vmg=None)]. *)
Definition update_navigation (self : NavigationData) (cog sog vmg : option Q)
  : NavigationData :=
  let self := patch set_current_cog cog self in
  let self := patch set_current_sog sog self in
  patch set_current_vmg vmg self.

(** [update_wind(true_speed=None, true_angle=None, apparent_speed=None,
    apparent_angle=None)].  The attributes [true_wind_angle] and
    [current_cog] start at 0 and are only ever assigned values that are
    not [None], so the guard of the final assignment is always taken. *)
Definition update_wind (self : NavigationData)
    (true_speed true_angle apparent_speed apparent_angle : option Q)
  : NavigationData :=
  let self := patch set_true_wind_speed true_speed self in
  let self := patch set_true_wind_angle true_angle self in
  let self := patch set_apparent_wind_speed apparent_speed self in
  let self := patch set_apparent_wind_angle apparent_angle self in
  set_absolute_wind_direction
    (py_mod (true_wind_angle self + current_cog self)%Q (360 # 1)) self.

(** The part of [update_waypoint] that sets [current_waypoint_id]. *)
Definition update_waypoint (self : NavigationData) (waypoint_id : option Z)
  : NavigationData :=
  patch set_current_waypoint_id waypoint_id self.

(** [add_route_waypoint(waypoint_id, latitude, longitude, name=None)]. *)
Definition add_route_waypoint (self : NavigationData) (waypoint_id : Z)
    (latitude longitude : Q) (name : option string) : NavigationData :=
  let name :=
    match name with
    | None => wp_label waypoint_id
    | Some n => n
    end in
  let self :=
    set_route_waypoints
      (<[waypoint_id :=
           {| wp_latitude := latitude; wp_longitude := longitude;
              wp_name := name |}]> (route_waypoints self)) self in
  if bool_decide (waypoint_id ∈ waypoint_sequence self) then self
  else set_waypoint_sequence (waypoint_sequence self ++ [waypoint_id]) self.

(** [update_route(route_id=None, waypoints_list=None)]. *)
Definition update_route (self : NavigationData) (route_id : option Z)
    (waypoints_list : option (list waypoint_entry)) : NavigationData :=
  let self := patch set_current_route_id route_id self in
  match waypoints_list with
  | None => self
  | Some wps =>
      let self := set_route_waypoints ∅ self in
      let self := set_waypoint_sequence [] self in
      foldl (fun self wp =>
               add_route_waypoint self (we_waypoint_id wp) (we_latitude wp)
                 (we_longitude wp) (we_name wp))
            self wps
  end.

(** The [try] block of [get_next_waypoint_in_route]; falling out of the
    nested [if]s reaches the final [return None]. *)
Definition next_waypoint_body (self : NavigationData)
  : result (option waypoint) :=
  current_index ← index (current_waypoint_id self) (waypoint_sequence self);
  if bool_decide (current_index + 1 < length (waypoint_sequence self))%nat then
    next_wp_id ← getitem (waypoint_sequence self) (current_index + 1);
    match route_waypoints self !! next_wp_id with
    | Some wp => Ok (Some wp)
    | None => Ok None
    end
  else Ok None.

(** [get_next_waypoint_in_route()]: [except (ValueError, IndexError): pass]
    then [return None]; any other exception would propagate. *)
Definition get_next_waypoint_in_route (self : NavigationData)
  : result (option waypoint) :=
  match next_waypoint_body self with
  | Ok r => Ok r
  | Raise ValueError => Ok None
  | Raise IndexError => Ok None
  | Raise e => Raise e
  end.

(** The data-model invariant of a route: the sequence holds unique ids,
    each of them a key of the waypoint mapping. *)
Definition route_consistent (self : NavigationData) : Prop :=
  NoDup (waypoint_sequence self) /\
  forall id, id ∈ waypoint_sequence self -> is_Some (route_waypoints self !! id).

(** A route of three waypoints with the second one current. *)
Definition three_leg_route : NavigationData :=
  update_waypoint
    (add_route_waypoint
       (add_route_waypoint
          (add_route_waypoint init 11 (1 # 1) (2 # 1) None)
          12 (3 # 1) (4 # 1) (Some "MARK"))
       13 (5 # 1) (6 # 1) None)
    (Some 12).


(** [get_waypoint_coordinates(waypoint_id)]: the pair [lat, lon], or
    [None, None]. *)
Definition get_waypoint_coordinates (self : NavigationData) (waypoint_id : Z)
  : option Q * option Q :=
  match route_waypoints self !! waypoint_id with
  | Some wp => (Some (wp_latitude wp), Some (wp_longitude wp))
  | None => (None, None)
  end.

(** The dictionary [get_route_summary()] returns; the sequence and the
    mapping are copies. *)
Record route_summary : Type := {
  rs_route_id : Z;
  rs_total_waypoints : nat;
  rs_waypoint_sequence : list Z;
  rs_route_waypoints : gmap Z waypoint
}.

Definition get_route_summary (self : NavigationData) : route_summary := {|
  rs_route_id := current_route_id self;
  rs_total_waypoints := size (route_waypoints self);
  rs_waypoint_sequence := waypoint_sequence self;
  rs_route_waypoints := route_waypoints self
|}.

(** The dictionary [get_navigation_summary()] returns. *)
Record navigation_summary : Type := {
  ns_cog : Q; ns_sog : Q; ns_vmg : Q;
  ns_true_wind_speed : Q; ns_true_wind_angle : Q;
  ns_app_wind_speed : Q; ns_app_wind_angle : Q;
  ns_abs_wind_direction : Q
}.

Definition get_navigation_summary (self : NavigationData)
  : navigation_summary := {|
  ns_cog := current_cog self; ns_sog := current_sog self;
  ns_vmg := current_vmg self;
  ns_true_wind_speed := true_wind_speed self;
  ns_true_wind_angle := true_wind_angle self;
  ns_app_wind_speed := apparent_wind_speed self;
  ns_app_wind_angle := apparent_wind_angle self;
  ns_abs_wind_direction := absolute_wind_direction self
|}.

(** A call of one of the methods that write the attributes above. *)
Inductive method_call : Type :=
  | CallUpdateNavigation (cog sog vmg : option Q)
  | CallUpdateWind (true_speed true_angle apparent_speed apparent_angle
                      : option Q)
  | CallUpdateWaypoint (waypoint_id : option Z)
  | CallAddRouteWaypoint (waypoint_id : Z) (latitude longitude : Q)
      (name : option string)
  | CallUpdateRoute (route_id : option Z)
      (waypoints_list : option (list waypoint_entry)).

Definition perform (self : NavigationData) (c : method_call)
  : NavigationData :=
  match c with
  | CallUpdateNavigation cog sog vmg => update_navigation self cog sog vmg
  | CallUpdateWind a b c d => update_wind self a b c d
  | CallUpdateWaypoint id => update_waypoint self id
  | CallAddRouteWaypoint id lat lon name =>
      add_route_waypoint self id lat lon name
  | CallUpdateRoute route_id wps => update_route self route_id wps
  end.

(** The store after a sequence of method calls on a new instance. *)
Definition after_calls (calls : list method_call) : NavigationData :=
  foldl perform init calls.

(** The entry [add_route_waypoint] stores for an element of a waypoint
    list. *)
Definition stored_entry (wp : waypoint_entry) : waypoint := {|
  wp_latitude := we_latitude wp;
  wp_longitude := we_longitude wp;
  wp_name := default (wp_label (we_waypoint_id wp)) (we_name wp)
|}.

(** The ids of a list in the order of their first occurrence. *)
Fixpoint first_occurrences (ids : list Z) : list Z :=
  match ids with
  | [] => []
  | id :: ids' => id :: filter (fun j => j <> id) (first_occurrences ids')
  end.

(** A waypoint list in which the id 21 comes twice. *)
Definition repeated_leg : list waypoint_entry :=
  [ {| we_waypoint_id := 21; we_latitude := 1 # 1; we_longitude := 2 # 1;
       we_name := None |};
    {| we_waypoint_id := 22; we_latitude := 3 # 1; we_longitude := 4 # 1;
       we_name := Some "BUOY" |};
    {| we_waypoint_id := 21; we_latitude := 5 # 1; we_longitude := 6 # 1;
       we_name := Some "HOME" |} ].


(** The sequence lists each key of the mapping once, and nothing else. *)
Definition route_exact (self : NavigationData) : Prop :=
  NoDup (waypoint_sequence self) /\
  forall id, id ∈ waypoint_sequence self <->
             is_Some (route_waypoints self !! id).

(** The bulk insertion of [update_route], from any starting store. *)
Definition insert_all (self : NavigationData) (wps : list waypoint_entry)
  : NavigationData :=
  foldl (fun self wp =>
           add_route_waypoint self (we_waypoint_id wp) (we_latitude wp)
             (we_longitude wp) (we_name wp))
        self wps.

End NavData.

(* ===================================================================== *)
(** * navigation_data.py: position, waypoint and destination attributes   *)
(* ===================================================================== *)

Module NavStore.

Import NavData.

(** The attributes of [NavigationData] that hold the position, the
    waypoint texts and the destination. *)
Record Guidance : Type := {
  latitude : Q;
  longitude : Q;
  current_waypoint : string;
  bearing_to_waypoint : Q;
  distance_to_waypoint : Q;
  next_waypoint : string;
  next_waypoint_id : Z;
  course_to_next : Q;
  destination_latitude : Q;
  destination_longitude : Q;
  cross_track_error : Q
}.

(** Their values in [__init__]. *)
Definition guidance_init : Guidance := {|
  latitude := 0; longitude := 0;
  current_waypoint := "N/A";
  bearing_to_waypoint := 0; distance_to_waypoint := 0;
  next_waypoint := "N/A"; next_waypoint_id := 0; course_to_next := 0;
  destination_latitude := 0; destination_longitude := 0;
  cross_track_error := 0
|}.

(** Attribute assignments [self.x = v]. *)
Definition set_latitude (v : Q) (s : Guidance) : Guidance :=
  {| latitude := v;
     longitude := longitude s;
     current_waypoint := current_waypoint s;
     bearing_to_waypoint := bearing_to_waypoint s;
     distance_to_waypoint := distance_to_waypoint s;
     next_waypoint := next_waypoint s;
     next_waypoint_id := next_waypoint_id s;
     course_to_next := course_to_next s;
     destination_latitude := destination_latitude s;
     destination_longitude := destination_longitude s;
     cross_track_error := cross_track_error s |}.

Definition set_longitude (v : Q) (s : Guidance) : Guidance :=
  {| latitude := latitude s;
     longitude := v;
     current_waypoint := current_waypoint s;
     bearing_to_waypoint := bearing_to_waypoint s;
     distance_to_waypoint := distance_to_waypoint s;
     next_waypoint := next_waypoint s;
     next_waypoint_id := next_waypoint_id s;
     course_to_next := course_to_next s;
     destination_latitude := destination_latitude s;
     destination_longitude := destination_longitude s;
     cross_track_error := cross_track_error s |}.

Definition set_current_waypoint (v : string) (s : Guidance) : Guidance :=
  {| latitude := latitude s;
     longitude := longitude s;
     current_waypoint := v;
     bearing_to_waypoint := bearing_to_waypoint s;
     distance_to_waypoint := distance_to_waypoint s;
     next_waypoint := next_waypoint s;
     next_waypoint_id := next_waypoint_id s;
     course_to_next := course_to_next s;
     destination_latitude := destination_latitude s;
     destination_longitude := destination_longitude s;
     cross_track_error := cross_track_error s |}.

Definition set_bearing_to_waypoint (v : Q) (s : Guidance) : Guidance :=
  {| latitude := latitude s;
     longitude := longitude s;
     current_waypoint := current_waypoint s;
     bearing_to_waypoint := v;
     distance_to_waypoint := distance_to_waypoint s;
     next_waypoint := next_waypoint s;
     next_waypoint_id := next_waypoint_id s;
     course_to_next := course_to_next s;
     destination_latitude := destination_latitude s;
     destination_longitude := destination_longitude s;
     cross_track_error := cross_track_error s |}.

Definition set_distance_to_waypoint (v : Q) (s : Guidance) : Guidance :=
  {| latitude := latitude s;
     longitude := longitude s;
     current_waypoint := current_waypoint s;
     bearing_to_waypoint := bearing_to_waypoint s;
     distance_to_waypoint := v;
     next_waypoint := next_waypoint s;
     next_waypoint_id := next_waypoint_id s;
     course_to_next := course_to_next s;
     destination_latitude := destination_latitude s;
     destination_longitude := destination_longitude s;
     cross_track_error := cross_track_error s |}.

Definition set_next_waypoint (v : string) (s : Guidance) : Guidance :=
  {| latitude := latitude s;
     longitude := longitude s;
     current_waypoint := current_waypoint s;
     bearing_to_waypoint := bearing_to_waypoint s;
     distance_to_waypoint := distance_to_waypoint s;
     next_waypoint := v;
     next_waypoint_id := next_waypoint_id s;
     course_to_next := course_to_next s;
     destination_latitude := destination_latitude s;
     destination_longitude := destination_longitude s;
     cross_track_error := cross_track_error s |}.

Definition set_next_waypoint_id (v : Z) (s : Guidance) : Guidance :=
  {| latitude := latitude s;
     longitude := longitude s;
     current_waypoint := current_waypoint s;
     bearing_to_waypoint := bearing_to_waypoint s;
     distance_to_waypoint := distance_to_waypoint s;
     next_waypoint := next_waypoint s;
     next_waypoint_id := v;
     course_to_next := course_to_next s;
     destination_latitude := destination_latitude s;
     destination_longitude := destination_longitude s;
     cross_track_error := cross_track_error s |}.

Definition set_course_to_next (v : Q) (s : Guidance) : Guidance :=
  {| latitude := latitude s;
     longitude := longitude s;
     current_waypoint := current_waypoint s;
     bearing_to_waypoint := bearing_to_waypoint s;
     distance_to_waypoint := distance_to_waypoint s;
     next_waypoint := next_waypoint s;
     next_waypoint_id := next_waypoint_id s;
     course_to_next := v;
     destination_latitude := destination_latitude s;
     destination_longitude := destination_longitude s;
     cross_track_error := cross_track_error s |}.

Definition set_destination_latitude (v : Q) (s : Guidance) : Guidance :=
  {| latitude := latitude s;
     longitude := longitude s;
     current_waypoint := current_waypoint s;
     bearing_to_waypoint := bearing_to_waypoint s;
     distance_to_waypoint := distance_to_waypoint s;
     next_waypoint := next_waypoint s;
     next_waypoint_id := next_waypoint_id s;
     course_to_next := course_to_next s;
     destination_latitude := v;
     destination_longitude := destination_longitude s;
     cross_track_error := cross_track_error s |}.

Definition set_destination_longitude (v : Q) (s : Guidance) : Guidance :=
  {| latitude := latitude s;
     longitude := longitude s;
     current_waypoint := current_waypoint s;
     bearing_to_waypoint := bearing_to_waypoint s;
     distance_to_waypoint := distance_to_waypoint s;
     next_waypoint := next_waypoint s;
     next_waypoint_id := next_waypoint_id s;
     course_to_next := course_to_next s;
     destination_latitude := destination_latitude s;
     destination_longitude := v;
     cross_track_error := cross_track_error s |}.

Definition set_cross_track_error (v : Q) (s : Guidance) : Guidance :=
  {| latitude := latitude s;
     longitude := longitude s;
     current_waypoint := current_waypoint s;
     bearing_to_waypoint := bearing_to_waypoint s;
     distance_to_waypoint := distance_to_waypoint s;
     next_waypoint := next_waypoint s;
     next_waypoint_id := next_waypoint_id s;
     course_to_next := course_to_next s;
     destination_latitude := destination_latitude s;
     destination_longitude := destination_longitude s;
     cross_track_error := v |}.

(** The whole instance: the attributes of [NavData.NavigationData] and
    the ones above. *)
Record Store : Type := {
  nav : NavigationData;
  guide : Guidance
}.

Definition init : Store := {| nav := NavData.init; guide := guidance_init |}.

Definition with_nav (f : NavigationData -> NavigationData) (s : Store) : Store :=
  {| nav := f (nav s); guide := guide s |}.

Definition with_guide (f : Guidance -> Guidance) (s : Store) : Store :=
  {| nav := nav s; guide := f (guide s) |}.

(** [if v is not None: self.x = v] on the attributes above. *)
Definition patch_guide {A : Type} (set : A -> Guidance -> Guidance)
    (v : option A) (s : Store) : Store :=
  match v with
  | Some a => with_guide (set a) s
  | None => s
  end.

(** [update_position(latitude=None, longitude=None)]. *)
Definition update_position (self : Store) (lat lon : option Q) : Store :=
  let self := patch_guide set_latitude lat self in
  patch_guide set_longitude lon self.

(** [update_waypoint(current_wp=None, bearing=None, distance=None,
    next_wp=None, course_to_next=None, waypoint_id=None, dest_lat=None,
    dest_lon=None, xte=None)]. *)
Definition update_waypoint (self : Store) (current_wp : option string)
    (bearing distance : option Q) (next_wp : option string)
    (course : option Q) (waypoint_id : option Z)
    (dest_lat dest_lon xte : option Q) : Store :=
  let self := patch_guide set_current_waypoint current_wp self in
  let self := patch_guide set_bearing_to_waypoint bearing self in
  let self := patch_guide set_distance_to_waypoint distance self in
  let self := patch_guide set_next_waypoint next_wp self in
  let self := patch_guide set_course_to_next course self in
  let self := with_nav (patch set_current_waypoint_id waypoint_id) self in
  let self := patch_guide set_destination_latitude dest_lat self in
  let self := patch_guide set_destination_longitude dest_lon self in
  patch_guide set_cross_track_error xte self.

(** [x != 0] on numbers. *)
Definition nonzero (x : Q) : bool := negb (Qeq_bool x 0).

Section Bearing.

(** [math.degrees(math.atan2(y, x))] for the [y] and [x] that
    [_calculate_bearing] computes from its four arguments with [math.sin]
    and [math.cos]: a number the embedding does not compute. *)
Variable atan2_degrees : Q -> Q -> Q -> Q -> Q.

(** [_calculate_bearing(lat1, lon1, lat2, lon2)]: the last line
    normalises with [(bearing + 360) % 360]. *)
Definition _calculate_bearing (lat1 lon1 lat2 lon2 : Q) : Q :=
  py_mod (atan2_degrees lat1 lon1 lat2 lon2 + (360 # 1))%Q (360 # 1).

(** [calculate_course_to_next_waypoint()].  The dictionary stored for a
    waypoint has the keys latitude, longitude and name, so
    [next_wp.get('waypoint_id', 0)] is 0; a stored dictionary is never
    empty, so [if next_wp] tests for [None]. *)
Definition calculate_course_to_next_waypoint (self : Store) : result Store :=
  if bool_decide (is_Some (route_waypoints (nav self)
                             !! current_waypoint_id (nav self)))
     && nonzero (destination_latitude (guide self))
     && nonzero (destination_longitude (guide self))
  then
    next_wp ← get_next_waypoint_in_route (nav self);
    match next_wp with
    | Some wp =>
        let bearing :=
          _calculate_bearing (destination_latitude (guide self))
            (destination_longitude (guide self))
            (wp_latitude wp) (wp_longitude wp) in
        let self := with_guide (set_course_to_next bearing) self in
        let self := with_guide (set_next_waypoint (wp_name wp)) self in
        Ok (with_guide (set_next_waypoint_id 0) self)
    | None => Ok self
    end
  else Ok self.

End Bearing.


(** The three-leg route of [NavData.three_leg_route] with a destination
    position set. *)
Definition underway : Store :=
  update_waypoint {| nav := three_leg_route; guide := guidance_init |}
    None None None None None None (Some (50 # 1)%Q) (Some (-4 # 1)%Q) None.

End NavStore.

(* ===================================================================== *)
(** * data_averager.py                                                    *)
(* ===================================================================== *)

Module Averager.

(** What a deque of [self.data] can hold: the numbers passed as [value]
    and the [datetime]s passed as [timestamp]. *)
Inductive item : Type :=
  | Num (v : Q)
  | Stamp (t : Z).

(** [timedelta(minutes=m)], in microseconds. *)
Definition timedelta_minutes (m : Z) : Z := 60000000 * m.

Record DataAverager : Type := {
  window : Z;
  data : gmap string (list item)
}.

(** The eight channels of [self.data]; the ninth key is ['timestamps']. *)
Definition channels : list string :=
  ["vmg"; "cog"; "sog"; "true_wind_speed"; "true_wind_angle";
   "apparent_wind_speed"; "apparent_wind_angle"; "absolute_wind_direction"].

(** The dictionary [self.data] as [__init__] builds it. *)
Definition empty_data : gmap string (list item) :=
  list_to_map
    [("vmg", []); ("cog", []); ("sog", []);
     ("true_wind_speed", []); ("true_wind_angle", []);
     ("apparent_wind_speed", []); ("apparent_wind_angle", []);
     ("absolute_wind_direction", []); ("timestamps", [])].

(** [__init__(window_minutes=5)]. *)
Definition init (window_minutes : Z) : DataAverager := {|
  window := timedelta_minutes window_minutes;
  data := empty_data
|}.

(** [self.data[key]] for one of the nine literal keys, which no method
    ever removes. *)
Definition deque (d : gmap string (list item)) (key : string) : list item :=
  default [] (d !! key).

(** [x < cutoff] with [cutoff] a [datetime]: a number on the left raises
    [TypeError]. *)
Definition lt_datetime (x : item) (cutoff : Z) : result bool :=
  match x with
  | Stamp t => Ok (bool_decide (t < cutoff))
  | Num _ => Raise TypeError
  end.

(** [x >= cutoff] with [cutoff] a [datetime]. *)
Definition ge_datetime (x : item) (cutoff : Z) : result bool :=
  match x with
  | Stamp t => Ok (bool_decide (cutoff <= t))
  | Num _ => Raise TypeError
  end.

(** One turn of the loop of [_cleanup_old_data]:
    [self.data['timestamps'].popleft()], then
    [for key in self.data: if key != 'timestamps' and self.data[key]:
    self.data[key].popleft()]. *)
Definition popleft_all (d : gmap string (list item)) : gmap string (list item) :=
  let d := alter tail "timestamps" d in
  map_imap (fun key dq =>
    Some (if bool_decide (key <> "timestamps") && bool_decide (dq <> [])
          then tail dq else dq)) d.

(** [while self.data['timestamps'] and self.data['timestamps'][0] < cutoff].
    The loop ends because every turn shortens the timestamp deque. *)
Equations cleanup_loop (cutoff : Z) (d : gmap string (list item))
  : result (gmap string (list item))
  by wf (length (deque d "timestamps")) lt :=
cleanup_loop cutoff d with inspect (deque d "timestamps") := {
  | exist _ [] _ => Ok d
  | exist _ (x :: _) H with inspect (lt_datetime x cutoff) := {
    | exist _ (Raise e) _ => Raise e
    | exist _ (Ok false) _ => Ok d
    | exist _ (Ok true) _ => cleanup_loop cutoff (popleft_all d) } }.
Next Obligation.
  unfold deque, popleft_all in *.
  rewrite map_lookup_imap, lookup_alter. case_decide; [|done].
  destruct (d !! "timestamps") as [dq|]; simpl in *; [|done].
  subst dq. simpl. lia.
Qed.

(** [_cleanup_old_data()]; [now] is the reading of [datetime.now()]. *)
Definition _cleanup_old_data (self : DataAverager) (now : Z)
  : result DataAverager :=
  let cutoff := now - window self in
  d ← cleanup_loop cutoff (data self);
  Ok {| window := window self; data := d |}.

(** [add_data(data_type, value, timestamp=None)].  [now0] is the clock
    read when [timestamp is None], [now1] the clock read by
    [_cleanup_old_data]. *)
Definition add_data (self : DataAverager) (data_type : string) (value : Q)
    (timestamp : option Z) (now0 now1 : Z) : result DataAverager :=
  let timestamp :=
    match timestamp with
    | None => now0
    | Some t => t
    end in
  match data self !! data_type with
  | Some dq =>
      let d := <[data_type := dq ++ [Num value]]> (data self) in
      let d := <["timestamps" := deque d "timestamps" ++ [Stamp timestamp]]> d in
      _cleanup_old_data {| window := window self; data := d |} now1
  | None => Ok self
  end.

(** [sum(dq)]: starts from 0 and adds from the left; adding a
    [datetime] to a number raises [TypeError]. *)
Fixpoint py_sum (acc : Q) (dq : list item) : result Q :=
  match dq with
  | [] => Ok acc
  | Num v :: dq' => py_sum (acc + v)%Q dq'
  | Stamp _ :: _ => Raise TypeError
  end.

(** [get_average(data_type)]: [sum(...) / len(...)], computed exactly;
    the float sum and quotient are this value up to rounding. *)
Definition get_average (self : DataAverager) (data_type : string) : result Q :=
  match data self !! data_type with
  | Some (x :: dq) =>
      s ← py_sum 0 (x :: dq);
      Ok (s / inject_Z (Z.of_nat (length (x :: dq))))%Q
  | _ => Ok 0%Q
  end.

(** The [for i, timestamp in enumerate(...)] loop of [get_wind_shift],
    with [wind_values] as accumulator. *)
Fixpoint wind_window (cutoff : Z) (awd : list item) (i : nat)
    (timestamps : list item) (wind_values : list item) : result (list item) :=
  match timestamps with
  | [] => Ok wind_values
  | timestamp :: rest =>
      b ← ge_datetime timestamp cutoff;
      if b && bool_decide (i < length awd)%nat then
        v ← getitem awd i;
        wind_window cutoff awd (S i) rest (wind_values ++ [v])
      else wind_window cutoff awd (S i) rest wind_values
  end.

(** [current_wind - old_wind] on the samples of a channel. *)
Definition sub_items (a b : item) : result Q :=
  match a, b with
  | Num x, Num y => Ok (x - y)%Q
  | _, _ => Raise TypeError
  end.

Definition Qlt_bool (a b : Q) : bool := negb (Qle_bool b a).

(** The normalisation at the end of [get_wind_shift]. *)
Definition normalize_shift (diff : Q) : Q :=
  if Qlt_bool (180 # 1) diff then (diff - (360 # 1))%Q
  else if Qlt_bool diff (-180 # 1) then (diff + (360 # 1))%Q
  else diff.

(** [get_wind_shift(minutes)]; [now] is the reading of [datetime.now()]. *)
Definition get_wind_shift (self : DataAverager) (minutes : Z) (now : Z)
  : result Q :=
  match data self !! "absolute_wind_direction" with
  | None | Some [] => Ok 0%Q
  | Some awd =>
      let cutoff := now - timedelta_minutes minutes in
      wind_values ← wind_window cutoff awd 0 (deque (data self) "timestamps") [];
      if bool_decide (length wind_values < 2)%nat then Ok 0%Q
      else
        current_wind ← getitem wind_values (length wind_values - 1);
        old_wind ← getitem wind_values 0;
        diff ← sub_items current_wind old_wind;
        Ok (normalize_shift diff)
  end.

(** [get_data_count()]. *)
Definition get_data_count (self : DataAverager) : nat :=
  length (deque (data self) "timestamps").

(** [clear_all_data()]. *)
Definition clear_all_data (self : DataAverager) : DataAverager :=
  {| window := window self; data := (fun _ => []) <$> data self |}.

(** One call [add_data(data_type, value, timestamp)] together with the
    two clock readings it makes. *)
Record append : Type := {
  ap_data_type : string;
  ap_value : Q;
  ap_timestamp : option Z;
  ap_now0 : Z;
  ap_now1 : Z
}.

(** The timestamp [add_data] stores for a call. *)
Definition ap_stamp (a : append) : Z :=
  match ap_timestamp a with
  | None => ap_now0 a
  | Some t => t
  end.

(** A sequence of [add_data] calls, in order. *)
Fixpoint run (self : DataAverager) (calls : list append) : result DataAverager :=
  match calls with
  | [] => Ok self
  | a :: calls' =>
      self' ← add_data self (ap_data_type a) (ap_value a) (ap_timestamp a)
                (ap_now0 a) (ap_now1 a);
      run self' calls'
  end.

(** Calls in arrival order: neither the stored timestamps nor the clock
    go backwards from one call to a later one. *)
Definition in_order (a b : append) : Prop :=
  ap_stamp a <= ap_stamp b /\ ap_now1 a <= ap_now1 b.

(** The clock reading of the trim of the last call, 0 without calls. *)
Definition last_trim (calls : list append) : Z :=
  default 0 (ap_now1 <$> last calls).

(** The calls whose sample is stamped [cutoff] or later. *)
Definition stamped_since (cutoff : Z) (calls : list append) : list append :=
  filter (fun a => cutoff <= ap_stamp a) calls.

(** The calls that fed channel [C]. *)
Definition on_channel (C : string) (calls : list append) : list append :=
  filter (fun a => ap_data_type a = C) calls.

(** What the trimming loop does to a list of calls: drop from the front
    while the stamp is older than [cutoff]. *)
Fixpoint drop_old (cutoff : Z) (calls : list append) : list append :=
  match calls with
  | [] => []
  | a :: calls' =>
      if bool_decide (ap_stamp a < cutoff) then drop_old cutoff calls'
      else calls
  end.

(** The aggregator in which only channel [C] holds samples, those of
    [calls], each at the position of its own timestamp. *)
Definition single_channel (C : string) (w : Z) (calls : list append)
  : DataAverager := {|
  window := w;
  data := <["timestamps" := (fun a => Stamp (ap_stamp a)) <$> calls]>
            (<[C := (fun a => Num (ap_value a)) <$> calls]> empty_data)
|}.

(** The call [add_data(data_type, value)] made when the clock reads
    [now]: the timestamp defaults to the clock. *)
Definition call_at (data_type : string) (value : Q) (now : Z) : append := {|
  ap_data_type := data_type; ap_value := value; ap_timestamp := None;
  ap_now0 := now; ap_now1 := now
|}.

(** Samples paired with their timestamps: those stamped [cutoff] or
    later, oldest first. *)
Definition in_window (cutoff : Z) (samples : list (Z * Q)) : list (Z * Q) :=
  filter (fun p => cutoff <= p.1) samples.

(** The arithmetic mean of a list of numbers, 0 for the empty list. *)
Definition arithmetic_mean (l : list Q) : Q :=
  match l with
  | [] => 0%Q
  | _ => (foldr Qplus 0 l / inject_Z (Z.of_nat (length l)))%Q
  end.

(** Three course samples, one a minute, then one after six minutes. *)
Definition course_log : list append :=
  [call_at "cog" (10 # 1) 0; call_at "cog" (20 # 1) 60000000;
   call_at "cog" (40 # 1) 360000000].

(** Wind direction backing from 350 to 10 within two seconds. *)
Definition backing_wind : list append :=
  [call_at "absolute_wind_direction" (350 # 1) 0;
   call_at "absolute_wind_direction" (10 # 1) 2000000].

(** The nine keys are there from [__init__] on and no call changes them. *)
Definition has_keys (d : gmap string (list item)) : Prop :=
  forall key, is_Some (d !! key) <-> is_Some (empty_data !! key).


(** The dictionary comprehension of [get_all_averages], over a list of
    keys. *)
Fixpoint averages_of (self : DataAverager) (keys : list string)
  : result (gmap string Q) :=
  match keys with
  | [] => Ok ∅
  | key :: keys' =>
      if bool_decide (key <> "timestamps") then
        avg ← get_average self key;
        rest ← averages_of self keys';
        Ok (<[key := avg]> rest)
      else averages_of self keys'
  end.

(** [get_all_averages()]: the keys of [self.data] are distinct, so the
    order in which they are visited does not show in the result. *)
Definition get_all_averages (self : DataAverager) : result (gmap string Q) :=
  averages_of self (map_to_list (data self)).*1.

(** A deque item that is a number. *)
Definition is_num (x : item) : Prop :=
  match x with
  | Num _ => True
  | Stamp _ => False
  end.

(** A deque item that is a timestamp older than [cutoff]. *)
Definition expired (cutoff : Z) (x : item) : Prop :=
  match x with
  | Stamp t => t < cutoff
  | Num _ => False
  end.

(** Every deque but the timestamp deque holds numbers only. *)
Definition numeric_channels (d : gmap string (list item)) : Prop :=
  forall key dq, key <> "timestamps" -> d !! key = Some dq -> Forall is_num dq.

(** Course and speed samples arriving together, two old and two fresh. *)
Definition mixed_log : list append :=
  [call_at "cog" (10 # 1) 0; call_at "sog" (5 # 1) 0;
   call_at "cog" (20 # 1) 360000000; call_at "sog" (6 # 1) 360000000].


(** An aggregator with two timestamps and two course samples. *)
Definition two_samples : DataAverager := {|
  window := 5;
  data := <["timestamps" := [Stamp 0; Stamp 10]]>
            (<["cog" := [Num (1 # 1); Num (2 # 1)]]> empty_data)
|}.

End Averager.

(* ===================================================================== *)
(** * nmea200_parser.py                                                   *)
(* ===================================================================== *)

Module Parser.

(** The integer value of a byte, [0..255]. *)
Definition byte_val (b : byte) : Z := Z.of_N (Byte.to_N b).

(** [data[a:b]] for [0 <= a <= b]. *)
Definition slice (a b : nat) (data : list byte) : list byte :=
  take (b - a) (drop a data).

(** [data[i]]: an [int], or [IndexError]. *)
Definition byte_at (data : list byte) (i : nat) : result Z :=
  b ← getitem data i; Ok (byte_val b).

(** [struct.unpack('>I', buf)[0]]. *)
Definition unpack_BE_I (buf : list byte) : result Z :=
  match buf with
  | [b0; b1; b2; b3] =>
      Ok (byte_val b0 * 16777216 + byte_val b1 * 65536
          + byte_val b2 * 256 + byte_val b3)
  | _ => Raise StructError
  end.

(** [struct.unpack('<H', buf)[0]]. *)
Definition unpack_H (buf : list byte) : result Z :=
  match buf with
  | [b0; b1] => Ok (byte_val b0 + byte_val b1 * 256)
  | _ => Raise StructError
  end.

(** [struct.unpack('<I', buf)[0]]. *)
Definition unpack_I (buf : list byte) : result Z :=
  match buf with
  | [b0; b1; b2; b3] =>
      Ok (byte_val b0 + byte_val b1 * 256
          + byte_val b2 * 65536 + byte_val b3 * 16777216)
  | _ => Raise StructError
  end.

(** [struct.unpack('<i', buf)[0]]: two's complement. *)
Definition unpack_i (buf : list byte) : result Z :=
  u ← unpack_I buf;
  Ok (if bool_decide (u < 2147483648) then u else u - 4294967296).

(** The float [raw * 0.0001 * 180 / math.pi], kept symbolic because of
    [math.pi]. *)
Inductive degrees : Type :=
  | DegOfRadE4 (raw : Z).

(** [raw * 1e-7] and [raw * 0.01]. *)
Definition scale_1e7 (raw : Z) : Q := (inject_Z raw * (1 # 10000000))%Q.
Definition scale_1e2 (raw : Z) : Q := (inject_Z raw * (1 # 100))%Q.

(** [bytes.hex()]. *)
Definition hex_digit (n : Z) : ascii :=
  default "0"%char (String.get (Z.to_nat n) "0123456789abcdef").

Fixpoint hex (data : list byte) : string :=
  match data with
  | [] => ""
  | b :: data' =>
      String (hex_digit (byte_val b / 16))
        (String (hex_digit (byte_val b mod 16)) (hex data'))
  end.

(** [data.find(b'\x00')], counting from [i]: first position or -1. *)
Fixpoint find_from (i : Z) (data : list byte) : Z :=
  match data with
  | [] => -1
  | b :: data' => if bool_decide (b = x00) then i else find_from (i + 1) data'
  end.

Definition find_null (data : list byte) : Z := find_from 0 data.

(** [buf.decode('ascii', errors='ignore')]: bytes above 127 are dropped;
    with this error handler the call never raises. *)
Fixpoint decode_ascii_ignore (buf : list byte) : string :=
  match buf with
  | [] => ""
  | b :: buf' =>
      if bool_decide (byte_val b < 128)
      then String (ascii_of_byte b) (decode_ascii_ignore buf')
      else decode_ascii_ignore buf'
  end.

Inductive wind_reference : Type :=
  | Apparent
  | TrueWind.

(** An element of the ['waypoints'] list of a route database. *)
Record db_waypoint : Type := {
  waypoint_id : Z;
  latitude : Q;
  longitude : Q;
  name : string
}.

(** The dictionaries the parser returns, one constructor per shape. *)
Inductive event : Type :=
  | Position (latitude longitude : Q)
  | Navigation (cog : degrees) (sog : Q)
  | Wind (speed : Q) (angle : degrees) (reference : wind_reference)
  | WaypointNav (bearing_to_waypoint : degrees) (distance_to_waypoint : Q)
  | WaypointInfo (waypoint_id : Z) (name : string)
  | CrossTrackError (xte : Q) (xte_mode : Z) (nav_terminated : bool)
  | NavigationRouteInfo (route_id waypoint_id : Z) (distance_to_waypoint : Q)
      (bearing_to_waypoint : degrees) (destination_latitude : Q)
      (destination_longitude : option Q)
  | WaypointList (raw_data : string) (length : nat)
  | RouteWaypointDatabase (database_id route_id nav_direction : Z)
      (supplementary_route : bool) (waypoints : list db_waypoint)
  | Unrecognized (pgn : Z) (raw : string)
  | Error (message : string).

(** A parser method: returns a dictionary, [None], or raises. *)
Abbreviation parser := (list byte -> result (option event)).

(** PGN 129025. *)
Definition parse_position_rapid_update : parser := fun data =>
  if bool_decide (length data < 8)%nat then Ok None
  else
    lat ← unpack_i (slice 0 4 data);
    lon ← unpack_i (slice 4 8 data);
    Ok (Some (Position (scale_1e7 lat) (scale_1e7 lon))).

(** PGN 129026. *)
Definition parse_cog_sog_rapid_update : parser := fun data =>
  if bool_decide (length data < 8)%nat then Ok None
  else
    cog ← unpack_H (slice 2 4 data);
    sog ← unpack_H (slice 4 6 data);
    Ok (Some (Navigation (DegOfRadE4 cog) (scale_1e2 sog))).

(** PGN 130306. *)
Definition parse_wind_data : parser := fun data =>
  if bool_decide (length data < 6)%nat then Ok None
  else
    wind_speed ← unpack_H (slice 0 2 data);
    wind_angle ← unpack_H (slice 2 4 data);
    b4 ← byte_at data 4;
    let reference := Z.land b4 7 in
    let wind_type := if bool_decide (reference = 2) then Apparent else TrueWind in
    Ok (Some (Wind (scale_1e2 wind_speed) (DegOfRadE4 wind_angle) wind_type)).

(** PGN 129284. *)
Definition parse_navigation_data : parser := fun data =>
  if bool_decide (length data < 8)%nat then Ok None
  else
    bearing ← unpack_H (slice 4 6 data);
    distance ← unpack_I (slice 0 4 data);
    Ok (Some (WaypointNav (DegOfRadE4 bearing) (scale_1e2 distance))).

(** PGN 129285. *)
Definition parse_route_waypoint_info : parser := fun data =>
  if bool_decide (length data < 8)%nat then Ok None
  else
    waypoint_id ← unpack_H (slice 0 2 data);
    let waypoint_name :=
      if bool_decide (8 < length data)%nat then
        let name_data := drop 8 data in
        let null_pos := find_null name_data in
        if bool_decide (0 < null_pos)
        then decode_ascii_ignore (take (Z.to_nat null_pos) name_data)
        else wp_label waypoint_id
      else wp_label waypoint_id in
    Ok (Some (WaypointInfo waypoint_id waypoint_name)).

(** PGN 129283. *)
Definition parse_cross_track_error : parser := fun data =>
  if bool_decide (length data < 6)%nat then Ok None
  else
    b0 ← byte_at data 0;
    let xte_mode := Z.land b0 15 in
    let nav_terminated := bool_decide (Z.land b0 64 <> 0) in
    xte ← unpack_i (slice 1 5 data);
    Ok (Some (CrossTrackError (scale_1e2 xte) xte_mode nav_terminated)).

(** PGN 129281. *)
Definition parse_navigation_route_info : parser := fun data =>
  if bool_decide (length data < 16)%nat then Ok None
  else
    route_id ← unpack_H (slice 0 2 data);
    waypoint_id ← unpack_H (slice 2 4 data);
    distance ← unpack_I (slice 4 8 data);
    bearing ← unpack_H (slice 8 10 data);
    dest_latitude ← unpack_i (slice 10 14 data);
    dest_longitude ←
      (if bool_decide (18 <= length data)%nat
       then lon ← unpack_i (slice 14 18 data); Ok (Some (scale_1e7 lon))
       else Ok None);
    Ok (Some (NavigationRouteInfo route_id waypoint_id (scale_1e2 distance)
                (DegOfRadE4 bearing) (scale_1e7 dest_latitude) dest_longitude)).

(** PGN 129540. *)
Definition parse_waypoint_list : parser := fun data =>
  if bool_decide (length data < 8)%nat then Ok None
  else Ok (Some (WaypointList (hex data) (length data))).

(** The [try] block inside the loop of [parse_route_waypoint_database]:
    the record at [offset]. *)
Definition waypoint_record (data : list byte) (offset : nat)
  : result db_waypoint :=
  waypoint_id ← unpack_H (slice offset (offset + 2) data);
  waypoint_lat ← unpack_i (slice (offset + 2) (offset + 6) data);
  waypoint_lon ← unpack_i (slice (offset + 6) (offset + 10) data);
  Ok {| waypoint_id := waypoint_id;
        latitude := scale_1e7 waypoint_lat;
        longitude := scale_1e7 waypoint_lon;
        name := wp_label waypoint_id |}.

(** [while offset + 16 <= len(data)], with [except: break]. *)
Equations waypoints_loop (data : list byte) (offset : nat)
    (waypoints : list db_waypoint) : list db_waypoint
  by wf (length data - offset)%nat lt :=
waypoints_loop data offset waypoints
    with decide (offset + 16 <= length data)%nat := {
  | right _ => waypoints
  | left _ with waypoint_record data offset := {
    | Ok wp => waypoints_loop data (offset + 16) (waypoints ++ [wp])
    | Raise _ => waypoints } }.
Next Obligation. lia. Qed.

(** PGN 130074. *)
Definition parse_route_waypoint_database : parser := fun data =>
  if bool_decide (length data < 8)%nat then Ok None
  else
    database_id ← unpack_H (slice 0 2 data);
    route_id ← unpack_H (slice 2 4 data);
    b4 ← byte_at data 4;
    let nav_direction := Z.land b4 7 in
    let supplementary_route := bool_decide (Z.land b4 8 <> 0) in
    let waypoints := waypoints_loop data 8 [] in
    Ok (Some (RouteWaypointDatabase database_id route_id nav_direction
                supplementary_route waypoints)).

(** [self.pgn_parsers]. *)
Definition pgn_parsers : gmap Z parser :=
  list_to_map
    [(129025, parse_position_rapid_update);
     (129026, parse_cog_sog_rapid_update);
     (130306, parse_wind_data);
     (129284, parse_navigation_data);
     (129285, parse_route_waypoint_info);
     (129283, parse_cross_track_error);
     (129281, parse_navigation_route_info);
     (129540, parse_waypoint_list);
     (130074, parse_route_waypoint_database)].

(** [(can_id >> 8) & 0x1FFFF]. *)
Definition pgn_of (can_id : Z) : Z := Z.land (Z.shiftr can_id 8) 0x1FFFF.

(** The [try] block of [parse_message]. *)
Definition parse_message_body (raw_data : list byte) : result (option event) :=
  if bool_decide (length raw_data < 8)%nat then Ok None
  else
    can_id ← unpack_BE_I (slice 0 4 raw_data);
    let pgn := pgn_of can_id in
    let data := drop 8 raw_data in
    match pgn_parsers !! pgn with
    | Some parse => parse data
    | None => Ok (Some (Unrecognized pgn (hex raw_data)))
    end.

(** [parse_message(raw_data)]: [except Exception as e] turns every
    exception into [{'error': str(e)}]. *)
Definition parse_message (raw_data : list byte) : option event :=
  match parse_message_body raw_data with
  | Ok r => r
  | Raise e => Some (Error (str_exn e))
  end.

(** The minimum payload length each known selector checks for. *)
Definition min_length (pgn : Z) : option nat :=
  if bool_decide (pgn = 129025) then Some 8%nat
  else if bool_decide (pgn = 129026) then Some 8%nat
  else if bool_decide (pgn = 130306) then Some 6%nat
  else if bool_decide (pgn = 129284) then Some 8%nat
  else if bool_decide (pgn = 129285) then Some 8%nat
  else if bool_decide (pgn = 129283) then Some 6%nat
  else if bool_decide (pgn = 129281) then Some 16%nat
  else if bool_decide (pgn = 129540) then Some 8%nat
  else if bool_decide (pgn = 130074) then Some 8%nat
  else None.

(** The selectors the specification lists as handled. *)
Definition known_selectors : list Z :=
  [129025; 129026; 130306; 129284; 129285; 129283; 129281; 129540; 130074].

(** The byte at position [i], read without slicing. *)
Definition byte_of (data : list byte) (i : nat) : Z :=
  byte_val (default x00 (data !! i)).

(** Little-endian fields read byte by byte. *)
Definition u16_at (data : list byte) (off : nat) : Z :=
  byte_of data off + byte_of data (off + 1) * 256.

Definition u32_at (data : list byte) (off : nat) : Z :=
  byte_of data off + byte_of data (off + 1) * 256
  + byte_of data (off + 2) * 65536 + byte_of data (off + 3) * 16777216.

Definition s32_at (data : list byte) (off : nat) : Z :=
  if bool_decide (u32_at data off < 2147483648) then u32_at data off
  else u32_at data off - 4294967296.

(** The 16-byte waypoint record at [off]: id, latitude, longitude; the
    six bytes after them are padding. *)
Definition record_at (data : list byte) (off : nat) : db_waypoint := {|
  waypoint_id := u16_at data off;
  latitude := scale_1e7 (s32_at data (off + 2));
  longitude := scale_1e7 (s32_at data (off + 6));
  name := wp_label (u16_at data off)
|}.

(** A 32-bit count times 1e-7 as the specification states it: the
    fraction count / 10 000 000. *)
Definition ten_millionths (count : Z) : Q := count # 10000000.

(** The 16-byte waypoint record at [off] as the specification states
    it: a 16-bit id, then latitude and longitude as signed 32-bit counts
    of ten-millionths of a degree, then padding. *)
Definition stated_record (data : list byte) (off : nat) : db_waypoint := {|
  waypoint_id := u16_at data off;
  latitude := ten_millionths (s32_at data (off + 2));
  longitude := ten_millionths (s32_at data (off + 6));
  name := wp_label (u16_at data off)
|}.

(** The number of complete 16-byte records after the 8-byte prefix. *)
Definition complete_records (data : list byte) : nat :=
  ((length data - 8) / 16)%nat.

(** The characters of the ASCII bytes of a buffer, in order. *)
Definition ascii_text (buf : list byte) : string :=
  string_of_list_ascii
    (ascii_of_byte <$> filter (fun b => byte_val b < 128) buf).

(** A record of three bytes, shorter than the fixed 8-byte prefix. *)
Definition malformed_record : list byte := [x01; xf8; x01].

(** A Position record (selector 129025) whose payload holds one byte
    instead of eight. *)
Definition truncated_position : list byte :=
  [x01; xf8; x01; x00; x00; x00; x00; x00; x2a].

(** A record with the unlisted selector 5 and the one-byte payload ab. *)
Definition unlisted_record : list byte :=
  [x00; x00; x05; x00; x00; x00; x00; x00; xab].

(** A route database payload: the 8-byte prefix, two full 16-byte
    records and five trailing bytes. *)
Definition two_records_and_five : list byte :=
  replicate 8 x00 ++ replicate 16 x01 ++ replicate 16 x02 ++ replicate 5 x03.

(** A WaypointInfo payload for id 7 whose name bytes [AB] run to the end
    of the payload without a terminator. *)
Definition unterminated_name : list byte :=
  [x07; x00; x00; x00; x00; x00; x00; x00; x41; x42].

(** A WaypointInfo payload for id 7 with the terminated name [AB]. *)
Definition terminated_name : list byte :=
  [x07; x00; x00; x00; x00; x00; x00; x00; x41; x42; x00; x43].

(** A WaypointInfo payload for id 7 whose name bytes before the
    terminator are all outside ASCII. *)
Definition undecodable_name : list byte :=
  [x07; x00; x00; x00; x00; x00; x00; x00; xff; xfe; x00].

(** The selector carried by a raw record of at least four bytes. *)
Definition selector (raw_data : list byte) : Z :=
  match unpack_BE_I (slice 0 4 raw_data) with
  | Ok can_id => pgn_of can_id
  | Raise _ => -1
  end.

(** A parser method that returns on every input, and never the
    [{'error': ...}] dictionary. *)
Definition never_raises (parse : parser) : Prop :=
  forall data,
    match parse data with
    | Ok (Some (Error _)) => False
    | Ok _ => True
    | Raise _ => False
    end.


(** [parsed.get('type')]: the ['type'] entry of a returned dictionary;
    the pass-through and the error dictionaries have none. *)
Definition event_type (e : event) : option string :=
  match e with
  | Position _ _ => Some "position"
  | Navigation _ _ => Some "navigation"
  | Wind _ _ _ => Some "wind"
  | WaypointNav _ _ => Some "waypoint_nav"
  | WaypointInfo _ _ => Some "waypoint_info"
  | CrossTrackError _ _ _ => Some "cross_track_error"
  | NavigationRouteInfo _ _ _ _ _ _ => Some "navigation_route_info"
  | WaypointList _ _ => Some "waypoint_list"
  | RouteWaypointDatabase _ _ _ _ _ => Some "route_waypoint_database"
  | Unrecognized _ _ => None
  | Error _ => None
  end.

(** The ['type'] each listed selector decodes to. *)
Definition type_of_selector (pgn : Z) : string :=
  if bool_decide (pgn = 129025) then "position"
  else if bool_decide (pgn = 129026) then "navigation"
  else if bool_decide (pgn = 130306) then "wind"
  else if bool_decide (pgn = 129284) then "waypoint_nav"
  else if bool_decide (pgn = 129285) then "waypoint_info"
  else if bool_decide (pgn = 129283) then "cross_track_error"
  else if bool_decide (pgn = 129281) then "navigation_route_info"
  else if bool_decide (pgn = 129540) then "waypoint_list"
  else "route_waypoint_database".

(** The value of a hexadecimal digit character, -1 for other characters. *)
Definition digit_value (c : ascii) : Z :=
  match String.index 0 (String c "") "0123456789abcdef" with
  | Some i => Z.of_nat i
  | None => -1
  end.

(** A raw record with the Position selector and an 8-byte payload. *)
Definition position_record : list byte :=
  [x01; xf8; x01; x00; x00; x00; x00; x00;
   x80; x96; x98; x00; x00; x1f; x0a; xfa].

Definition route_info_short : list byte := replicate 16 x01.
Definition route_info_long : list byte := replicate 18 x01.


(** The byte with value [z mod 256]. *)
Definition byte_of_Z (z : Z) : byte :=
  default x00 (Byte.of_N (Z.to_N (z mod 256))).

(** The four bytes of a signed 32-bit integer, little-endian two's
    complement: what ['<i'] unpacks. *)
Definition pack_i (v : Z) : list byte :=
  let u := v mod 4294967296 in
  [byte_of_Z u; byte_of_Z (u / 256); byte_of_Z (u / 65536);
   byte_of_Z (u / 16777216)].

End Parser.

(* ===================================================================== *)
(** * tcp_client.py                                                       *)
(* ===================================================================== *)

Module Transport.

(** The line terminator [b'\n']. *)
Definition newline : byte := x0a.

(** What the receive thread can observe of [NMEA2000TCPClient]: the
    connection flag, the counter, the lines written to the log file
    when one is open (timestamp and hex text of each), the records
    handed to [message_callback] and the texts handed to
    [status_callback], both in order of the calls.  Both callbacks are
    taken to be set and to return; the log file, when open, takes every
    write. *)
Record Client : Type := {
  connected : bool;
  message_count : nat;
  log_file : option (list (Z * string));
  delivered : list (list byte);
  status : list string
}.

(** [_process_message(raw_data)]; [now] is the reading of
    [datetime.now()]. *)
Definition _process_message (self : Client) (raw_data : list byte) (now : Z)
  : Client := {|
  connected := connected self;
  message_count := S (message_count self);
  log_file :=
    match log_file self with
    | Some lines => Some (lines ++ [(now, Parser.hex raw_data)])
    | None => None
    end;
  delivered := delivered self ++ [raw_data];
  status := status self
|}.

(** [buffer.split(b'\n', 1)] when [b'\n' in buffer]: the bytes before
    the first terminator and the bytes after it; [None] when the buffer
    holds no terminator. *)
Fixpoint split_newline (buffer : list byte)
  : option (list byte * list byte) :=
  match buffer with
  | [] => None
  | b :: buffer' =>
      if bool_decide (b = newline) then Some ([], buffer')
      else
        match split_newline buffer' with
        | Some (line, rest) => Some (b :: line, rest)
        | None => None
        end
  end.

Section Clock.

(** The reading of [datetime.now()] made for the message that finds the
    counter at [k]. *)
Variable clock : nat -> Z.

(** [while b'\n' in buffer: line, buffer = buffer.split(b'\n', 1);
    if line: self._process_message(line)].  Returns the client and the
    buffer left. *)
Equations drain (self : Client) (buffer : list byte)
  : Client * list byte
  by wf (length buffer) lt :=
drain self buffer with inspect (split_newline buffer) := {
  | exist _ None _ => (self, buffer)
  | exist _ (Some (line, rest)) H =>
      drain (match line with
             | [] => self
             | _ :: _ => _process_message self line
                           (clock (message_count self))
             end) rest }.
Next Obligation.
  clear drain. revert line rest H.
  induction buffer as [|b buffer IH]; intros line rest H; simpl in H;
    [discriminate H|].
  case_bool_decide.
  - injection H as <- <-. simpl. lia.
  - destruct (split_newline buffer) as [[l r]|]; [|discriminate H].
    injection H as <- <-. specialize (IH l r eq_refl). simpl. lia.
Qed.

(** What one call of [self.socket.recv(1024)] does: return bytes (none
    at the end of the stream), time out, or raise another exception
    with text [e]; in the last case [still_connected] is the value of
    [self.connected] read by the handler. *)
Inductive recv_outcome : Type :=
  | Received (data : list byte)
  | TimedOut
  | Failed (e : string) (still_connected : bool).

(** The [while self.connected] loop of [_receive_data]: one turn per
    outcome of [recv]; the list ends where [disconnect()] has cleared
    the flag. *)
Fixpoint receive_loop (self : Client) (buffer : list byte)
    (outcomes : list recv_outcome) : Client * list byte :=
  match outcomes with
  | [] => (self, buffer)
  | Received [] :: _ => (self, buffer)
  | Received data :: outcomes' =>
      let '(self', buffer') := drain self (buffer ++ data) in
      receive_loop self' buffer' outcomes'
  | TimedOut :: outcomes' => receive_loop self buffer outcomes'
  | Failed e still_connected :: _ =>
      (if still_connected
       then {| connected := connected self;
               message_count := message_count self;
               log_file := log_file self;
               delivered := delivered self;
               status := status self ++ ["Receive error: " +:+ e] |}
       else self, buffer)
  end.

(** [_receive_data()]: the loop from an empty buffer, then
    [self.connected = False] and the status "Connection lost".  The
    buffer is local and is dropped; it is returned here to be spoken
    about. *)
Definition _receive_data (self : Client) (outcomes : list recv_outcome)
  : Client * list byte :=
  let '(self', buffer) := receive_loop self [] outcomes in
  ({| connected := false;
      message_count := message_count self';
      log_file := log_file self';
      delivered := delivered self';
      status := status self' ++ ["Connection lost"] |}, buffer).

(** The records handed over one after the other. *)
Fixpoint process_all (self : Client) (records : list (list byte)) : Client :=
  match records with
  | [] => self
  | r :: records' =>
      process_all (_process_message self r (clock (message_count self)))
        records'
  end.

End Clock.

(** A byte stream cut at its terminators: the terminated lines in
    order, and the unterminated rest; [current] holds the bytes of the
    line being read. *)
Fixpoint lines_from (current : list byte) (stream : list byte)
  : list (list byte) * list byte :=
  match stream with
  | [] => ([], current)
  | b :: stream' =>
      if bool_decide (b = newline) then
        let '(lines, rest) := lines_from [] stream' in
        (current :: lines, rest)
      else lines_from (current ++ [b]) stream'
  end.

(** The non-empty terminated lines of a stream. *)
Definition records_of (stream : list byte) : list (list byte) :=
  filter (fun line => line <> []) (lines_from [] stream).1.

(** The bytes after the last terminator of a stream. *)
Definition unterminated (stream : list byte) : list byte :=
  (lines_from [] stream).2.

(** The bytes received before the loop stops: up to the first empty
    read or failure. *)
Fixpoint stream_of (outcomes : list recv_outcome) : list byte :=
  match outcomes with
  | [] => []
  | Received [] :: _ => []
  | Received data :: outcomes' => data ++ stream_of outcomes'
  | TimedOut :: outcomes' => stream_of outcomes'
  | Failed _ _ :: _ => []
  end.

(** The client with further texts handed to [status_callback]. *)
Definition with_status (self : Client) (texts : list string) : Client := {|
  connected := connected self;
  message_count := message_count self;
  log_file := log_file self;
  delivered := delivered self;
  status := status self ++ texts
|}.

(** The text reported by the handler of the loop, if it runs and the
    flag is still set. *)
Fixpoint failure_status (outcomes : list recv_outcome) : list string :=
  match outcomes with
  | [] => []
  | Received [] :: _ => []
  | Received _ :: outcomes' => failure_status outcomes'
  | TimedOut :: outcomes' => failure_status outcomes'
  | Failed e still_connected :: _ =>
      if still_connected then ["Receive error: " +:+ e] else []
  end.

(** A sender's framing: every record followed by the terminator. *)
Definition framed (records : list (list byte)) : list byte :=
  concat ((fun r => r ++ [newline]) <$> records).

(** The log lines written for [records] when the counter starts at
    [k]. *)
Definition log_lines (clock : nat -> Z) (k : nat)
    (records : list (list byte)) : list (Z * string) :=
  imap (fun i r => (clock (k + i)%nat, Parser.hex r)) records.

(** [__init__] with both callbacks given, after [connect] has opened
    the log file. *)
Definition connected_client : Client := {|
  connected := true; message_count := 0; log_file := Some [];
  delivered := []; status := []
|}.

(** Two records, the second split over two reads, an empty line, and an
    unterminated tail. *)
Definition split_reads : list recv_outcome :=
  [Received [x41; x0a; x42]; TimedOut; Received [x43; x0a; x0a; x44]].

(** Two records, the second cut by a read and a timeout. *)
Definition two_reads : list recv_outcome :=
  [Received [x41; x0a; x42]; TimedOut; Received [x43; x0a]].

End Transport.

(* ===================================================================== *)
(** * plotting_manager.py                                                 *)
(* ===================================================================== *)

Module Plotting.

Import Py.

(** [collections.deque] with a [maxlen]. *)
Record bounded (A : Type) : Type := {
  maxlen : nat;
  items : list A
}.
Arguments maxlen {A} _.
Arguments items {A} _.

(** [d.append(x)]: the item goes to the right end and, when the deque
    is then longer than [maxlen], the leftmost item is dropped. *)
Definition append {A : Type} (d : bounded A) (x : A) : bounded A :=
  let items' := items d ++ [x] in
  {| maxlen := maxlen d;
     items := if bool_decide (maxlen d < length items')%nat
              then tail items' else items' |}.

(** [deque(iterable, maxlen=n)] for [n >= 0]: the items are appended
    one by one; a negative [n] raises [ValueError]. *)
Definition deque {A : Type} (iterable : list A) (n : Z)
  : result (bounded A) :=
  if bool_decide (n < 0) then Raise ValueError
  else Ok (foldl append {| maxlen := Z.to_nat n; items := [] |} iterable).

(** [d.clear()]. *)
Definition clear {A : Type} (d : bounded A) : bounded A :=
  {| maxlen := maxlen d; items := [] |}.

(** The slice [l[-k:]]: from [len(l) - k] if [k] is positive and not
    more than the length, the whole list if [k] is 0 or more than the
    length, and from [-k] if [k] is negative. *)
Definition slice_from_minus {A : Type} (k : Z) (l : list A) : list A :=
  if bool_decide (0 < k) then drop (length l - Z.to_nat k) l
  else drop (Z.to_nat (- k)) l.

(** [PlottingManager]: [max_points] and the five entries of
    [plot_data], a dictionary whose keys are fixed in [__init__]; the
    figure is left out. *)
Record PlottingManager : Type := {
  max_points : Z;
  time : bounded Z;
  sog : bounded Q;
  cog : bounded Q;
  true_wind_speed : bounded Q;
  absolute_wind_direction : bounded Q
}.

(** [__init__(max_points=60)]. *)
Definition init (max_points : Z) : result PlottingManager :=
  time ← deque [] max_points;
  sog ← deque [] max_points;
  cog ← deque [] max_points;
  true_wind_speed ← deque [] max_points;
  absolute_wind_direction ← deque [] max_points;
  Ok {| max_points := max_points; time := time; sog := sog; cog := cog;
        true_wind_speed := true_wind_speed;
        absolute_wind_direction := absolute_wind_direction |}.

(** [averages.get(key, 0)]. *)
Definition get0 (averages : gmap string Q) (key : string) : Q :=
  default 0%Q (averages !! key).

(** [add_data_point(averages)]; [now] is the reading of
    [datetime.now()]. *)
Definition add_data_point (self : PlottingManager)
    (averages : gmap string Q) (now : Z) : PlottingManager := {|
  max_points := max_points self;
  time := append (time self) now;
  sog := append (sog self) (get0 averages "sog");
  cog := append (cog self) (get0 averages "cog");
  true_wind_speed :=
    append (true_wind_speed self) (get0 averages "true_wind_speed");
  absolute_wind_direction :=
    append (absolute_wind_direction self)
      (get0 averages "absolute_wind_direction")
|}.

(** [clear_data()]. *)
Definition clear_data (self : PlottingManager) : PlottingManager := {|
  max_points := max_points self;
  time := clear (time self);
  sog := clear (sog self);
  cog := clear (cog self);
  true_wind_speed := clear (true_wind_speed self);
  absolute_wind_direction := clear (absolute_wind_direction self)
|}.

(** The body of the loop of [set_max_points] for one key. *)
Definition resized {A : Type} (max_points : Z) (d : bounded A)
  : result (bounded A) :=
  let old_data := items d in
  deque (slice_from_minus max_points old_data) max_points.

(** [set_max_points(max_points)]. *)
Definition set_max_points (self : PlottingManager) (max_points : Z)
  : result PlottingManager :=
  time ← resized max_points (time self);
  sog ← resized max_points (sog self);
  cog ← resized max_points (cog self);
  true_wind_speed ← resized max_points (true_wind_speed self);
  absolute_wind_direction ←
    resized max_points (absolute_wind_direction self);
  Ok {| max_points := max_points; time := time; sog := sog; cog := cog;
        true_wind_speed := true_wind_speed;
        absolute_wind_direction := absolute_wind_direction |}.

(** Calls of [add_data_point], one per pair. *)
Definition add_points (self : PlottingManager)
    (points : list (gmap string Q * Z)) : PlottingManager :=
  foldl (fun self p => add_data_point self p.1 p.2) self points.

(** The last [n] items of a list. *)
Definition latest {A : Type} (n : nat) (l : list A) : list A :=
  drop (length l - n) l.

(** Three refreshes, the second without a speed average. *)
Definition three_points : list (gmap string Q * Z) :=
  [({[ "sog" := (5 # 1)%Q ]}, 10); (∅, 20); ({[ "sog" := (7 # 1)%Q ]}, 30)].

End Plotting.

(* ===================================================================== *)
(** * nmea2000_app.py                                                     *)
(* ===================================================================== *)

Module App.

Import Py.

(** The components of [NMEA2000App] that the message handler reads or
    writes: [self.nav_data] and [self.averager].  The parser has no
    state; the widgets, the client and the plots are not touched by the
    handler. *)
Record NMEA2000App : Type := {
  nav_data : NavStore.Store;
  averager : Averager.DataAverager
}.

(** The two components as [build] creates them: [NavigationData()] and
    [DataAverager()] with its default window of 5 minutes. *)
Definition build : NMEA2000App := {|
  nav_data := NavStore.init;
  averager := Averager.init 5
|}.

(** The element of [waypoints_list] that [update_route] reads from an
    element of [parsed['waypoints']]. *)
Definition entry_of (wp : Parser.db_waypoint) : NavData.waypoint_entry := {|
  NavData.we_waypoint_id := Parser.waypoint_id wp;
  NavData.we_latitude := Parser.latitude wp;
  NavData.we_longitude := Parser.longitude wp;
  NavData.we_name := Some (Parser.name wp)
|}.

(** The selectors whose dictionaries the handler has a branch for. *)
Definition handled_selectors : list Z :=
  [129025; 129026; 130306; 129284; 129285; 129283; 129281; 130074].

Section Handler.

(** [math.degrees(math.atan2(y, x))] as in [NavStore]. *)
Variable atan2_degrees : Q -> Q -> Q -> Q -> Q.

(** The number that an angle of the parser is: [raw * 0.0001] radians
    in degrees, which the embedding does not compute. *)
Variable degrees_value : Parser.degrees -> Q.

(** [self.averager.add_data(data_type, value)]: the call reads the
    clock twice; [clock i] is the [i]-th reading made by the handler. *)
Definition sample (av : Averager.DataAverager) (data_type : string)
    (value : Q) (clock : nat -> Z) (i : nat)
  : result Averager.DataAverager :=
  Averager.add_data av data_type value None (clock i) (clock (S i)).

(** [_process_parsed_message(parsed)].  The dictionaries of type
    'navigation' always hold 'cog' and 'sog'; the ones without a
    'type', and the type 'waypoint_list', match no branch. *)
Definition _process_parsed_message (self : NMEA2000App)
    (parsed : Parser.event) (clock : nat -> Z) : result NMEA2000App :=
  match parsed with
  | Parser.Navigation cog sog =>
      let cog := degrees_value cog in
      let nav :=
        NavStore.with_nav
          (fun n => NavData.update_navigation n (Some cog) None None)
          (nav_data self) in
      av ← sample (averager self) "cog" cog clock 0;
      let nav :=
        NavStore.with_nav
          (fun n => NavData.update_navigation n None (Some sog) None) nav in
      av ← sample av "sog" sog clock 2;
      let nav :=
        NavStore.with_nav
          (fun n => NavData.update_navigation n None None (Some sog)) nav in
      av ← sample av "vmg" sog clock 4;
      Ok {| nav_data := nav; averager := av |}
  | Parser.Wind speed angle Parser.TrueWind =>
      let angle := degrees_value angle in
      let nav :=
        NavStore.with_nav
          (fun n => NavData.update_wind n (Some speed) (Some angle) None None)
          (nav_data self) in
      av ← sample (averager self) "true_wind_speed" speed clock 0;
      av ← sample av "true_wind_angle" angle clock 2;
      let absolute_wind_dir :=
        py_mod (angle + NavData.current_cog (NavStore.nav nav))%Q (360 # 1) in
      av ← sample av "absolute_wind_direction" absolute_wind_dir clock 4;
      Ok {| nav_data := nav; averager := av |}
  | Parser.Wind speed angle Parser.Apparent =>
      let angle := degrees_value angle in
      let nav :=
        NavStore.with_nav
          (fun n => NavData.update_wind n None None (Some speed) (Some angle))
          (nav_data self) in
      av ← sample (averager self) "apparent_wind_speed" speed clock 0;
      av ← sample av "apparent_wind_angle" angle clock 2;
      Ok {| nav_data := nav; averager := av |}
  | Parser.WaypointNav bearing distance =>
      Ok {| nav_data :=
              NavStore.update_waypoint (nav_data self) None
                (Some (degrees_value bearing)) (Some distance)
                None None None None None None;
            averager := averager self |}
  | Parser.WaypointInfo waypoint_id name =>
      Ok {| nav_data :=
              NavStore.update_waypoint (nav_data self) (Some name)
                None None None None (Some waypoint_id) None None None;
            averager := averager self |}
  | Parser.NavigationRouteInfo _ waypoint_id distance bearing
      dest_lat dest_lon =>
      let nav :=
        NavStore.update_waypoint (nav_data self) None
          (Some (degrees_value bearing)) (Some distance) None None
          (Some waypoint_id) (Some dest_lat)
          (Some (default 0%Q dest_lon)) None in
      nav ← NavStore.calculate_course_to_next_waypoint atan2_degrees nav;
      Ok {| nav_data := nav; averager := averager self |}
  | Parser.CrossTrackError xte _ _ =>
      Ok {| nav_data :=
              NavStore.update_waypoint (nav_data self) None None None
                None None None None None (Some xte);
            averager := averager self |}
  | Parser.RouteWaypointDatabase _ route_id _ _ waypoints =>
      Ok {| nav_data :=
              NavStore.with_nav
                (fun n =>
                   NavData.update_route n (Some route_id)
                     (Some (entry_of <$> waypoints)))
                (nav_data self);
            averager := averager self |}
  | Parser.Position latitude longitude =>
      Ok {| nav_data :=
              NavStore.update_position (nav_data self)
                (Some latitude) (Some longitude);
            averager := averager self |}
  | Parser.WaypointList _ _ | Parser.Unrecognized _ _ | Parser.Error _ =>
      Ok self
  end.

(** [on_message_received(raw_data)]: a returned dictionary is never
    empty, so [if not parsed] tests for [None]. *)
Definition on_message_received (self : NMEA2000App) (raw_data : list byte)
    (clock : nat -> Z) : result NMEA2000App :=
  match Parser.parse_message raw_data with
  | None => Ok self
  | Some parsed => _process_parsed_message self parsed clock
  end.

(** The handler called for each record in turn, each with its own
    clock readings. *)
Fixpoint on_messages (self : NMEA2000App)
    (records : list (list byte * (nat -> Z))) : result NMEA2000App :=
  match records with
  | [] => Ok self
  | (raw_data, clock) :: records' =>
      self ← on_message_received self raw_data clock;
      on_messages self records'
  end.

End Handler.

(** The timestamp deque holds timestamps only and the nine keys are
    there. *)
Definition stamped (av : Averager.DataAverager) : Prop :=
  Averager.has_keys (Averager.data av)
  /\ exists calls : list Averager.append,
       Averager.deque (Averager.data av) "timestamps" =
         (fun a => Averager.Stamp (Averager.ap_stamp a)) <$> calls.

(** A course and speed record: selector 129026 in the header, course
    raw 0x1000 and speed raw 0x0258 (6.00) in the payload. *)
Definition cog_sog_record : list byte :=
  [x09; xf8; x02; x00; x00; x00; x00; x00;
   xff; xff; x00; x10; x58; x02; xff; xff].

(** A record of selector 129540 with a payload of eight bytes. *)
Definition sats_record : list byte :=
  [x09; xfa; x04; x00; x00; x00; x00; x00;
   x01; x02; x03; x04; x05; x06; x07; x08].

End App.

(* ===================================================================== *)
(** * Properties of the navigation state store                            *)
(* ===================================================================== *)

Section NavigationData_properties.

Import NavData.

(** ** Absolute wind direction *)

(** [update_wind] ends by recomputing the derived direction, whatever
    arguments it is given. *)
Lemma update_wind_recomputes self true_speed true_angle apparent_speed
    apparent_angle :
  let self' :=
    update_wind self true_speed true_angle apparent_speed apparent_angle in
  absolute_wind_direction self' =
    py_mod (true_wind_angle self' + current_cog self')%Q (360 # 1).
Proof.
  destruct true_speed, true_angle, apparent_speed, apparent_angle; reflexivity.
Qed.

(** [update_wind] stores the angle it is given. *)
Lemma update_wind_true_angle self true_speed a apparent_speed apparent_angle :
  true_wind_angle
    (update_wind self true_speed (Some a) apparent_speed apparent_angle) = a.
Proof. destruct true_speed, apparent_speed, apparent_angle; reflexivity. Qed.

(** [update_navigation] stores the course and writes nothing else than
    the three attributes it is given: the derived direction keeps its
    previous value. *)
Lemma update_navigation_keeps_direction self cog sog vmg :
  absolute_wind_direction (update_navigation self cog sog vmg) =
    absolute_wind_direction self /\
  true_wind_angle (update_navigation self cog sog vmg) = true_wind_angle self.
Proof. destruct cog, sog, vmg; split; reflexivity. Qed.

Lemma update_navigation_cog self c sog vmg :
  current_cog (update_navigation self (Some c) sog vmg) = c.
Proof. destruct sog, vmg; reflexivity. Qed.

(** C1 (as the code behaves).  On a fresh store, [update_wind(true_angle=30)]
    followed by [update_navigation(cog=90)] leaves
    [absolute_wind_direction] at 30, the value computed with the old
    course 0, whereas [(true_wind_angle + current_cog) % 360] is 120:
    a course update alone does not recompute the derived direction. *)
Theorem C1_course_update_leaves_direction_stale :
  let s0 := update_wind init None (Some (30 # 1)%Q) None None in
  let s1 := update_navigation s0 (Some (90 # 1)%Q) None None in
  (absolute_wind_direction s1 == 30 # 1)%Q /\
  (py_mod (true_wind_angle s1 + current_cog s1) (360 # 1) == 120 # 1)%Q /\
  ~ (absolute_wind_direction s1 ==
       py_mod (true_wind_angle s1 + current_cog s1) (360 # 1))%Q.
Proof.
  cbv zeta. repeat split.
  - intros H. vm_compute in H. discriminate H.
Qed.

(** ** Routes *)

Lemma index_absent (x : Z) (l : list Z) :
  x ∉ l -> index x l = Raise ValueError.
Proof.
  induction l as [|y l IH]; intros Hx; simpl; [done|].
  apply not_elem_of_cons in Hx as [Hne Hx].
  rewrite decide_False by congruence.
  rewrite (IH Hx). reflexivity.
Qed.

Lemma index_first (x : Z) (pre post : list Z) :
  x ∉ pre -> index x (pre ++ x :: post) = Ok (length pre).
Proof.
  induction pre as [|y pre IH]; intros Hx; simpl.
  - rewrite decide_True; done.
  - apply not_elem_of_cons in Hx as [Hne Hx].
    rewrite decide_False by congruence.
    rewrite (IH Hx). reflexivity.
Qed.

Lemma index_ok_lt (x : Z) (l : list Z) (i : nat) :
  index x l = Ok i -> (i < length l)%nat.
Proof.
  revert i. induction l as [|y l IH]; intros i; simpl; [done|].
  case_decide.
  - intros [= <-]. lia.
  - destruct (index x l) as [j|e]; simpl; [|done].
    intros [= <-]. specialize (IH j eq_refl). lia.
Qed.

(** The [try] block can only raise what the handler catches. *)
Lemma next_waypoint_body_raises self e :
  next_waypoint_body self = Raise e -> e = ValueError \/ e = IndexError.
Proof.
  unfold next_waypoint_body.
  destruct (index _ _) as [i|e'] eqn:Hi; simpl.
  - case_bool_decide; [|done].
    unfold getitem. destruct (_ !! _); simpl.
    + destruct (_ !! _); done.
    + intros [= <-]. by right.
  - intros [= <-]. left.
    clear -Hi. revert Hi. generalize (current_waypoint_id self).
    intros x. induction (waypoint_sequence self) as [|y l IH]; simpl.
    + by intros [= <-].
    + case_decide; [done|]. destruct (index x l); simpl; [done|].
      intros [= <-]. by apply IH.
Qed.

Lemma get_next_waypoint_total self : is_ok (get_next_waypoint_in_route self).
Proof.
  unfold get_next_waypoint_in_route.
  destruct (next_waypoint_body self) as [r|e] eqn:Hb; [done|].
  destruct (next_waypoint_body_raises _ _ Hb) as [-> | ->]; done.
Qed.

Lemma get_next_waypoint_following self pre nxt post :
  waypoint_sequence self = pre ++ current_waypoint_id self :: nxt :: post ->
  current_waypoint_id self ∉ pre ->
  get_next_waypoint_in_route self = Ok (route_waypoints self !! nxt).
Proof.
  intros Hseq Hpre.
  unfold get_next_waypoint_in_route, next_waypoint_body.
  rewrite Hseq, index_first by done. simpl.
  rewrite bool_decide_true by (rewrite length_app; simpl; lia).
  unfold getitem.
  replace (length pre + 1)%nat with (length pre + 1 + 0)%nat by lia.
  rewrite <- Nat.add_assoc, lookup_app_r by lia.
  replace (length pre + (1 + 0) - length pre)%nat with 1%nat by lia.
  simpl. destruct (route_waypoints self !! nxt); reflexivity.
Qed.

Lemma get_next_waypoint_last self pre :
  waypoint_sequence self = pre ++ [current_waypoint_id self] ->
  current_waypoint_id self ∉ pre ->
  get_next_waypoint_in_route self = Ok None.
Proof.
  intros Hseq Hpre.
  unfold get_next_waypoint_in_route, next_waypoint_body.
  rewrite Hseq, index_first by done. simpl.
  rewrite bool_decide_false by (rewrite length_app; simpl; lia).
  reflexivity.
Qed.

Lemma get_next_waypoint_absent self :
  current_waypoint_id self ∉ waypoint_sequence self ->
  get_next_waypoint_in_route self = Ok None.
Proof.
  intros Hx. unfold get_next_waypoint_in_route, next_waypoint_body.
  rewrite index_absent by done. reflexivity.
Qed.

(** The invariant holds initially and every method keeps it. *)
Lemma init_consistent : route_consistent init.
Proof.
  split; [constructor|]. simpl. intros id Hid. by apply elem_of_nil in Hid.
Qed.

Lemma add_route_waypoint_consistent self id lat lon name :
  route_consistent self ->
  route_consistent (add_route_waypoint self id lat lon name).
Proof.
  intros [Hnd Hdom]. unfold add_route_waypoint, route_consistent.
  case_bool_decide as Hin; simpl in *.
  - split; [done|]. intros j Hj.
    destruct (decide (id = j)) as [->|Hne].
    + rewrite lookup_insert_eq. by eexists.
    + rewrite lookup_insert_ne by done. by apply Hdom.
  - split.
    + apply NoDup_app. split; [done|]. split.
      * intros x Hx Hx'. apply list_elem_of_singleton in Hx'. by subst.
      * apply NoDup_singleton.
    + intros j Hj. apply elem_of_app in Hj as [Hj|Hj].
      * destruct (decide (id = j)) as [->|Hne].
        -- rewrite lookup_insert_eq. by eexists.
        -- rewrite lookup_insert_ne by done. by apply Hdom.
      * apply list_elem_of_singleton in Hj as ->.
        rewrite lookup_insert_eq. by eexists.
Qed.

Lemma update_route_consistent self route_id waypoints_list :
  route_consistent self ->
  route_consistent (update_route self route_id waypoints_list).
Proof.
  intros Hc. unfold update_route.
  assert (Hp : route_consistent (patch set_current_route_id route_id self))
    by (destruct route_id; exact Hc).
  destruct waypoints_list as [wps|]; [|exact Hp].
  set (s0 := set_waypoint_sequence [] _).
  assert (H0 : route_consistent s0).
  { split; [constructor|]. simpl. intros id Hid. by apply elem_of_nil in Hid. }
  clearbody s0. clear -H0. revert s0 H0.
  induction wps as [|wp wps IH]; intros s0 H0; simpl; [done|].
  apply IH. by apply add_route_waypoint_consistent.
Qed.

Lemma update_scalars_consistent self :
  route_consistent self ->
  (forall cog sog vmg, route_consistent (update_navigation self cog sog vmg)) /\
  (forall a b c d, route_consistent (update_wind self a b c d)) /\
  (forall id, route_consistent (update_waypoint self id)).
Proof.
  intros Hc. split; [|split].
  - intros [?|] [?|] [?|]; apply Hc.
  - intros [?|] [?|] [?|] [?|]; apply Hc.
  - intros [?|]; apply Hc.
Qed.

End NavigationData_properties.

Section Route_properties.

Import NavData.

(** C8.  [get_next_waypoint_in_route] never raises.  It returns [None]
    when the current waypoint id is not in the sequence.  On a consistent
    route (unique ids, each stored in the mapping) it returns [None]
    when the current id is the last entry, and otherwise the waypoint
    stored for the entry that immediately follows the current id. *)
Theorem C8_get_next_waypoint_in_route (self : NavigationData) :
  is_ok (get_next_waypoint_in_route self) /\
  (current_waypoint_id self ∉ waypoint_sequence self ->
   get_next_waypoint_in_route self = Ok None) /\
  (route_consistent self ->
   (forall pre,
      waypoint_sequence self = pre ++ [current_waypoint_id self] ->
      get_next_waypoint_in_route self = Ok None) /\
   (forall pre nxt post,
      waypoint_sequence self = pre ++ current_waypoint_id self :: nxt :: post ->
      exists wp, route_waypoints self !! nxt = Some wp /\
                 get_next_waypoint_in_route self = Ok (Some wp))).
Proof.
  split; [apply get_next_waypoint_total|].
  split; [apply get_next_waypoint_absent|].
  intros [Hnd Hdom]. split.
  - intros pre Hseq. apply (get_next_waypoint_last self pre Hseq).
    rewrite Hseq in Hnd. apply NoDup_app in Hnd as (_ & Hdisj & _).
    intros Hin. apply (Hdisj _ Hin). apply list_elem_of_singleton. done.
  - intros pre nxt post Hseq.
    assert (Hpre : current_waypoint_id self ∉ pre).
    { rewrite Hseq in Hnd. apply NoDup_app in Hnd as (_ & Hdisj & _).
      intros Hin. apply (Hdisj _ Hin). left. }
    destruct (Hdom nxt) as [wp Hwp].
    { rewrite Hseq. apply elem_of_app. right. right. left. }
    exists wp. split; [done|].
    rewrite (get_next_waypoint_following self pre nxt post Hseq Hpre).
    by rewrite Hwp.
Qed.

Lemma C8_witness :
  get_next_waypoint_in_route three_leg_route =
    Ok (Some {| wp_latitude := 5 # 1; wp_longitude := 6 # 1;
                wp_name := "WP13" |}).
Proof.
  destruct (C8_get_next_waypoint_in_route three_leg_route) as (_ & _ & H).
  destruct H as [_ H].
  - apply update_scalars_consistent.
    repeat apply add_route_waypoint_consistent. apply init_consistent.
  - destruct (H [11] 13 [] eq_refl) as (wp & Hwp & ->).
    vm_compute in Hwp. injection Hwp as <-. reflexivity.
Defined.

(** C9.  Adding a waypoint a second time under the same id leaves the
    ordered sequence exactly as the first call left it (the id is in it,
    at the same position, and only once when the sequence had no
    repetition before), while the coordinates and the name stored for
    the id are those of the second call; other ids keep their entry. *)
Theorem C9_add_route_waypoint_twice (self : NavigationData) (id : Z)
    (lat1 lon1 : Q) (name1 : option string)
    (lat2 lon2 : Q) (name2 : option string) :
  let s1 := add_route_waypoint self id lat1 lon1 name1 in
  let s2 := add_route_waypoint s1 id lat2 lon2 name2 in
  waypoint_sequence s2 = waypoint_sequence s1 /\
  id ∈ waypoint_sequence s2 /\
  index id (waypoint_sequence s2) = index id (waypoint_sequence s1) /\
  route_waypoints s2 !! id =
    Some {| wp_latitude := lat2; wp_longitude := lon2;
            wp_name := default (wp_label id) name2 |} /\
  (forall j, j <> id -> route_waypoints s2 !! j = route_waypoints s1 !! j) /\
  (NoDup (waypoint_sequence self) -> NoDup (waypoint_sequence s2)).
Proof.
  intros s1 s2.
  assert (Hin : id ∈ waypoint_sequence s1).
  { subst s1. unfold add_route_waypoint. case_bool_decide as Hc; simpl in *.
    - done.
    - apply elem_of_app. right. left. }
  assert (Hseq : waypoint_sequence s2 = waypoint_sequence s1).
  { subst s2. unfold add_route_waypoint at 1. simpl.
    rewrite bool_decide_true by done. reflexivity. }
  assert (Hmap : route_waypoints s2 =
                 <[id := {| wp_latitude := lat2; wp_longitude := lon2;
                            wp_name := default (wp_label id) name2 |}]>
                   (route_waypoints s1)).
  { subst s2. unfold add_route_waypoint at 1. simpl.
    rewrite bool_decide_true by done. simpl. by destruct name2. }
  split; [done|]. split; [by rewrite Hseq|]. split; [by rewrite Hseq|].
  split; [by rewrite Hmap, lookup_insert_eq|].
  split; [intros j Hj; by rewrite Hmap, lookup_insert_ne|].
  intros Hnd. rewrite Hseq. subst s1. unfold add_route_waypoint.
  case_bool_decide as Hc; simpl in *; [done|].
  apply NoDup_app. split; [done|]. split.
  - intros x Hx Hx'. apply list_elem_of_singleton in Hx'. by subst.
  - apply NoDup_singleton.
Qed.

Lemma C9_witness :
  let s1 := add_route_waypoint three_leg_route 12 (7 # 1) (8 # 1) None in
  let s2 := add_route_waypoint s1 12 (9 # 1) (10 # 1) (Some "GATE") in
  waypoint_sequence s2 = [11; 12; 13] /\
  NoDup (waypoint_sequence s2) /\
  route_waypoints s2 !! 12 =
    Some {| wp_latitude := 9 # 1; wp_longitude := 10 # 1; wp_name := "GATE" |}.
Proof.
  intros s1 s2.
  destruct (C9_add_route_waypoint_twice three_leg_route 12 (7 # 1) (8 # 1) None
              (9 # 1) (10 # 1) (Some "GATE")) as (Hseq & _ & _ & Hmap & _ & Hnd).
  fold s1 in Hseq, Hmap, Hnd. fold s2 in Hseq, Hmap, Hnd.
  split; [rewrite Hseq; reflexivity|].
  split; [|exact Hmap].
  apply Hnd. refine (bool_decide_unpack _ _). vm_compute. exact I.
Defined.

End Route_properties.

(* ===================================================================== *)
(** * Properties of the time-windowed aggregator                          *)
(* ===================================================================== *)

Section Averager_properties.

Import Averager.

(** ** The trimming loop *)

(** One turn of the loop pops the head of every deque that has one. *)
Lemma popleft_all_lookup (d : gmap string (list item)) (key : string) :
  popleft_all d !! key = tail <$> d !! key.
Proof.
  unfold popleft_all. rewrite map_lookup_imap, lookup_alter.
  case_decide as Hk.
  - subst key. destruct (d !! "timestamps") as [dq|]; simpl; done.
  - destruct (d !! key) as [dq|]; simpl; [|done].
    rewrite bool_decide_true by congruence.
    destruct dq; simpl; done.
Qed.

Lemma popleft_all_fmap (d : gmap string (list item)) :
  popleft_all d = tail <$> d.
Proof.
  apply map_eq. intros key. by rewrite popleft_all_lookup, lookup_fmap.
Qed.

(** The loop, unfolded once. *)
Lemma cleanup_loop_unfold (cutoff : Z) (d : gmap string (list item)) :
  cleanup_loop cutoff d =
    match deque d "timestamps" with
    | [] => Ok d
    | x :: _ =>
        b ← lt_datetime x cutoff;
        if b : bool then cleanup_loop cutoff (popleft_all d) else Ok d
    end.
Proof.
  funelim (cleanup_loop cutoff d); clear Heqcall;
    repeat match goal with
    | H : deque d "timestamps" = _ |- _ => progress (rewrite H)
    | H : lt_datetime _ _ = _ |- _ => progress (rewrite H)
    end; done.
Qed.

(** ** A channel used alone *)

Lemma channel_is_key (C : string) :
  C ∈ channels -> C <> "timestamps" /\ empty_data !! C = Some [].
Proof.
  unfold channels. intros H.
  repeat (apply elem_of_cons in H as [->|H]; [split; [discriminate|reflexivity]|]).
  by apply elem_of_nil in H.
Qed.

Lemma single_channel_init (C : string) (window_minutes : Z) :
  C ∈ channels ->
  init window_minutes = single_channel C (timedelta_minutes window_minutes) [].
Proof.
  intros HC. destruct (channel_is_key C HC) as [Hne Hk].
  unfold init, single_channel. f_equal. simpl.
  rewrite (insert_id empty_data C []) by done.
  rewrite insert_id; done.
Qed.

Lemma single_channel_timestamps C w calls :
  deque (data (single_channel C w calls)) "timestamps" =
    (fun a => Stamp (ap_stamp a)) <$> calls.
Proof. unfold deque, single_channel. simpl. by rewrite lookup_insert_eq. Qed.

Lemma single_channel_samples C w calls :
  C <> "timestamps" ->
  data (single_channel C w calls) !! C =
    Some ((fun a => Num (ap_value a)) <$> calls).
Proof.
  intros Hne. unfold single_channel. simpl.
  rewrite lookup_insert_ne by done. by rewrite lookup_insert_eq.
Qed.

Lemma single_channel_popleft C w a calls :
  popleft_all (data (single_channel C w (a :: calls))) =
    data (single_channel C w calls).
Proof.
  rewrite popleft_all_fmap. unfold single_channel. simpl.
  rewrite !fmap_insert. simpl. reflexivity.
Qed.

Lemma single_channel_cleanup C w cutoff calls :
  cleanup_loop cutoff (data (single_channel C w calls)) =
    Ok (data (single_channel C w (drop_old cutoff calls))).
Proof.
  induction calls as [|a calls IH].
  - rewrite cleanup_loop_unfold, single_channel_timestamps. reflexivity.
  - rewrite cleanup_loop_unfold, single_channel_timestamps.
    rewrite single_channel_popleft, IH. simpl.
    case_bool_decide; reflexivity.
Qed.

Lemma single_channel_add_data C w calls a :
  C ∈ channels -> ap_data_type a = C ->
  add_data (single_channel C w calls) (ap_data_type a) (ap_value a)
    (ap_timestamp a) (ap_now0 a) (ap_now1 a) =
  Ok (single_channel C w (drop_old (ap_now1 a - w) (calls ++ [a]))).
Proof.
  intros HC Ha. rewrite Ha. destruct (channel_is_key _ HC) as [Hne _].
  unfold add_data. rewrite single_channel_samples by done.
  unfold _cleanup_old_data. simpl window.
  match goal with |- context [cleanup_loop ?c ?d] =>
    replace d with (data (single_channel C w (calls ++ [a])))
  end.
  - rewrite single_channel_cleanup. reflexivity.
  - unfold single_channel, deque. simpl.
    rewrite lookup_insert_ne by done. rewrite lookup_insert_eq. simpl.
    rewrite !fmap_app. simpl. fold (ap_stamp a).
    apply map_eq. intros k. rewrite !lookup_insert.
    repeat case_decide; congruence.
Qed.

Lemma run_app self calls1 calls2 :
  run self (calls1 ++ calls2) = (self' ← run self calls1; run self' calls2).
Proof.
  revert self. induction calls1 as [|a calls1 IH]; intros self; simpl; [done|].
  destruct (add_data _ _ _ _ _ _) as [self'|e]; simpl; [apply IH|done].
Qed.

Lemma stamped_since_all cutoff calls :
  Forall (fun a => cutoff <= ap_stamp a) calls ->
  stamped_since cutoff calls = calls.
Proof.
  unfold stamped_since. induction 1 as [|a calls Ha _ IH]; [done|].
  rewrite filter_cons_True by done. by rewrite IH.
Qed.

(** On calls in arrival order, dropping old entries from the front is
    the same as keeping the entries that are recent enough. *)
Lemma drop_old_sorted cutoff calls :
  StronglySorted in_order calls ->
  drop_old cutoff calls = stamped_since cutoff calls.
Proof.
  induction 1 as [|a calls Hs IH Ha]; [done|]. simpl.
  unfold stamped_since in *. case_bool_decide as Hlt.
  - rewrite filter_cons_False by lia. exact IH.
  - rewrite filter_cons_True by lia. f_equal. symmetry.
    apply stamped_since_all. eapply Forall_impl; [exact Ha|].
    intros b [Hb _]. simpl. lia.
Qed.

Lemma drop_old_stamped c' c calls1 calls2 :
  c' <= c ->
  StronglySorted in_order (calls1 ++ calls2) ->
  drop_old c (stamped_since c' calls1 ++ calls2) =
    stamped_since c (calls1 ++ calls2).
Proof.
  intros Hc. induction calls1 as [|a calls1 IH]; simpl; intros Hs.
  - by apply drop_old_sorted.
  - apply StronglySorted_inv in Hs as [Hs Ha].
    unfold stamped_since in *.
    destruct (decide (c' <= ap_stamp a)) as [Hin|Hout].
    + rewrite (filter_cons_True _ a calls1) by done. simpl.
      case_bool_decide as Hlt.
      * rewrite filter_cons_False by lia. by apply IH.
      * rewrite filter_cons_True by lia. f_equal.
        assert (Hall : Forall (fun b => c <= ap_stamp b) (calls1 ++ calls2)).
        { eapply Forall_impl; [exact Ha|]. intros b [Hb _]. simpl. lia. }
        pose proof (stamped_since_all c (calls1 ++ calls2) Hall) as E.
        unfold stamped_since in E. rewrite E. clear E.
        f_equal. apply stamped_since_all.
        apply Forall_app in Hall as [Hall _].
        eapply Forall_impl; [exact Hall|]. intros b Hb. simpl in *. lia.
    + rewrite (filter_cons_False _ a calls1) by done.
      rewrite filter_cons_False by lia. by apply IH.
Qed.

(** After any run of calls in arrival order on one channel, that channel
    and the timestamp deque hold exactly the calls stamped no earlier
    than the cutoff of the last trim. *)
Lemma run_single_channel C window_minutes calls :
  C ∈ channels ->
  Forall (fun a => ap_data_type a = C) calls ->
  StronglySorted in_order calls ->
  run (init window_minutes) calls =
    Ok (single_channel C (timedelta_minutes window_minutes)
          (stamped_since (last_trim calls - timedelta_minutes window_minutes)
             calls)).
Proof.
  intros HC. set (w := timedelta_minutes window_minutes).
  induction calls as [|a calls IH] using rev_ind; intros Hall Hs.
  - simpl. f_equal. by apply single_channel_init.
  - apply Forall_app in Hall as [Hall Ha].
    rewrite Forall_singleton in Ha.
    rewrite run_app, (IH Hall (StronglySorted_app_1_l _ _ _ Hs)). simpl.
    rewrite (single_channel_add_data C w _ a HC Ha). simpl. do 2 f_equal.
    unfold last_trim. rewrite last_snoc. simpl.
    destruct (last calls) as [b|] eqn:Hlast; simpl.
    + apply drop_old_stamped; [|done].
      assert (Hb : b ∈ calls).
      { apply last_Some in Hlast as [l' ->]. apply elem_of_app. right. left. }
      destruct (StronglySorted_app_1_elem_of _ _ _ b a Hs Hb) as [_ Hn];
        [left|]. lia.
    + apply last_None in Hlast. subst calls. simpl.
      apply (drop_old_sorted _ [a]). repeat constructor.
Qed.

(** ** Averages *)

Lemma py_sum_values acc calls :
  py_sum acc ((fun a => Num (ap_value a)) <$> calls) =
    Ok (fold_left Qplus (ap_value <$> calls) acc).
Proof.
  revert acc. induction calls as [|a calls IH]; intros acc; simpl; [done|].
  apply IH.
Qed.

Lemma fold_left_Qplus (l : list Q) (acc : Q) :
  (fold_left Qplus l acc == acc + foldr Qplus 0 l)%Q.
Proof.
  revert acc. induction l as [|x l IH]; intros acc; simpl.
  - ring.
  - rewrite IH. ring.
Qed.

(** [get_average] on a channel of numbers is their arithmetic mean. *)
Lemma single_channel_average C w calls :
  C <> "timestamps" ->
  exists avg,
    get_average (single_channel C w calls) C = Ok avg /\
    (avg == arithmetic_mean (ap_value <$> calls))%Q.
Proof.
  intros Hne. unfold get_average.
  rewrite single_channel_samples by done.
  destruct calls as [|a calls]; simpl.
  - exists 0%Q. split; reflexivity.
  - rewrite py_sum_values. simpl. eexists. split; [reflexivity|].
    rewrite !length_fmap, fold_left_Qplus.
    rewrite Qplus_0_l. reflexivity.
Qed.

Lemma on_channel_all C calls :
  Forall (fun a => ap_data_type a = C) calls -> on_channel C calls = calls.
Proof.
  unfold on_channel. induction 1 as [|a calls Ha _ IH]; [done|].
  rewrite filter_cons_True by done. by rewrite IH.
Qed.

(** C2 (amended).  Let only channel [C] be fed, by calls in arrival
    order (stored timestamps and clock readings never decrease), under
    any window.  Right after the last call, whose trim ran at clock time
    [t], channel [C] retains exactly the samples appended to it with a
    timestamp of at least [t - W], in order, and [get_average(C)] is
    their arithmetic mean, 0 when there is none. *)
Theorem C2_average_after_append (window_minutes : Z) (C : string)
    (calls : list append) :
  C ∈ channels ->
  Forall (fun a => ap_data_type a = C) calls ->
  StronglySorted in_order calls ->
  let recent :=
    stamped_since (last_trim calls - timedelta_minutes window_minutes)
      (on_channel C calls) in
  exists self avg,
    run (init window_minutes) calls = Ok self /\
    data self !! C = Some ((fun a => Num (ap_value a)) <$> recent) /\
    get_average self C = Ok avg /\
    (avg == arithmetic_mean (ap_value <$> recent))%Q.
Proof.
  intros HC Hall Hs recent. subst recent.
  rewrite (on_channel_all C calls Hall).
  destruct (channel_is_key C HC) as [Hne _].
  eexists. 
  destruct (single_channel_average C (timedelta_minutes window_minutes)
              (stamped_since
                 (last_trim calls - timedelta_minutes window_minutes) calls)
              Hne) as (avg & Havg & Hmean).
  exists avg. split; [by apply run_single_channel|].
  split; [by apply single_channel_samples|]. split; done.
Qed.

Lemma C2_witness :
  exists self avg,
    run (init 5) course_log = Ok self /\
    data self !! "cog" = Some [Num (20 # 1); Num (40 # 1)] /\
    get_average self "cog" = Ok avg /\
    (avg == 30 # 1)%Q.
Proof.
  assert (HC : "cog" ∈ channels)
    by (unfold channels; rewrite !elem_of_cons; tauto).
  assert (Hall : Forall (fun a => ap_data_type a = "cog") course_log)
    by (repeat constructor).
  assert (Hs : StronglySorted in_order course_log)
    by (unfold course_log, call_at;
        repeat (constructor; unfold in_order, ap_stamp; simpl; try lia)).
  destruct (C2_average_after_append 5 "cog" course_log HC Hall Hs)
    as (self & avg & Hrun & Hdq & Havg & Hmean).
  exists self, avg. repeat split; [exact Hrun|exact Hdq|exact Havg|].
  rewrite Hmean. reflexivity.
Defined.

(** C2 (as stated) fails: [get_average] does not trim.  One course
    sample appended at time 0 under the five-minute window is still
    averaged ten minutes later, although no sample has a timestamp
    within the last five minutes. *)
Lemma C2_counterexample :
  let calls := [call_at "cog" (10 # 1) 0] in
  let t := 600000000 in
  match run (init 5) calls with
  | Ok self =>
      exists avg,
        get_average self "cog" = Ok avg /\
        (avg == 10 # 1)%Q /\
        stamped_since (t - window self) (on_channel "cog" calls) = [] /\
        ~ (avg == arithmetic_mean
                    (ap_value <$> stamped_since (t - window self)
                                    (on_channel "cog" calls)))%Q
  | Raise _ => False
  end.
Proof.
  cbv zeta.
  destruct (run (init 5) [call_at "cog" (10 # 1) 0]) as [self|e] eqn:Hr;
    vm_compute in Hr; [|discriminate Hr].
  injection Hr as <-. eexists. split; [vm_compute; reflexivity|].
  split; [reflexivity|]. split; [reflexivity|].
  intros H. vm_compute in H. discriminate H.
Qed.

(** ** Names that are not keys of [self.data] *)

Lemma popleft_all_keys d : has_keys d -> has_keys (popleft_all d).
Proof.
  intros Hd key. rewrite <- (Hd key), popleft_all_lookup.
  rewrite !is_Some_alt. by destruct (d !! key).
Qed.

Lemma cleanup_loop_keys cutoff d d' :
  has_keys d -> cleanup_loop cutoff d = Ok d' -> has_keys d'.
Proof.
  remember (length (deque d "timestamps")) as n eqn:Hn.
  revert d Hn. induction n as [|n IH]; intros d Hn Hd;
    rewrite cleanup_loop_unfold.
  - destruct (deque d "timestamps"); [|discriminate Hn].
    by intros [= <-].
  - destruct (deque d "timestamps") as [|x dq] eqn:Hdq; [discriminate Hn|].
    destruct (lt_datetime x cutoff) as [[|]|e]; simpl.
    + apply IH; [|by apply popleft_all_keys].
      unfold deque in *. rewrite popleft_all_lookup.
      destruct (d !! "timestamps") as [l|]; simpl in *; [|discriminate Hdq].
      subst l. simpl in *. lia.
    + by intros [= <-].
    + discriminate.
Qed.

Lemma add_data_keys self data_type value timestamp now0 now1 self' :
  has_keys (data self) ->
  add_data self data_type value timestamp now0 now1 = Ok self' ->
  has_keys (data self').
Proof.
  intros Hd. unfold add_data.
  destruct (data self !! data_type) as [dq|] eqn:Hdt; [|by intros [= <-]].
  unfold _cleanup_old_data.
  destruct (cleanup_loop _ _) as [d'|e] eqn:Hloop; simpl; [|discriminate].
  intros [= <-]. simpl.
  eapply cleanup_loop_keys; [|exact Hloop]. simpl.
  intros key. rewrite <- (Hd key), !lookup_insert_is_Some'.
  split; [|tauto].
  intros [<-|[<-|H]]; [|by eexists|done].
  apply Hd. by eexists.
Qed.

Lemma run_keys self calls self' :
  has_keys (data self) -> run self calls = Ok self' -> has_keys (data self').
Proof.
  revert self. induction calls as [|a calls IH]; intros self Hd; simpl.
  - by intros [= <-].
  - destruct (add_data _ _ _ _ _ _) as [self1|e] eqn:Ha; simpl; [|discriminate].
    apply IH. by eapply add_data_keys.
Qed.

Lemma not_a_key (name : string) :
  name ∉ channels -> name <> "timestamps" -> empty_data !! name = None.
Proof.
  intros Hc Ht. unfold empty_data.
  apply not_elem_of_list_to_map_1. simpl.
  intros H. apply Hc. unfold channels.
  rewrite !elem_of_cons in H. rewrite !elem_of_cons.
  destruct H as [H|[H|[H|[H|[H|[H|[H|[H|[H|H]]]]]]]]]; tauto.
Qed.

(** On a name that is not a key of [self.data], [add_data] changes
    nothing and [get_average] returns 0. *)
Lemma unknown_key_noop self name value timestamp now0 now1 :
  data self !! name = None ->
  add_data self name value timestamp now0 now1 = Ok self /\
  get_average self name = Ok 0%Q.
Proof.
  intros Hn. unfold add_data, get_average. rewrite Hn. done.
Qed.

(** In every state the aggregator can reach, a name that is neither one
    of the eight channels nor ['timestamps'] is ignored. *)
Lemma unknown_name_noop window_minutes calls self name value timestamp
    now0 now1 :
  run (init window_minutes) calls = Ok self ->
  name ∉ channels -> name <> "timestamps" ->
  add_data self name value timestamp now0 now1 = Ok self /\
  get_average self name = Ok 0%Q.
Proof.
  intros Hrun Hc Ht. apply unknown_key_noop.
  assert (Hk : has_keys (data self)).
  { eapply run_keys; [|exact Hrun]. intros key. reflexivity. }
  apply eq_None_not_Some. rewrite (Hk name), (not_a_key name Hc Ht).
  intros [x Hx]. discriminate Hx.
Qed.

(** C10 (as the code behaves).  The name ['timestamps'] is not one of
    the eight channels, yet it is a key of [self.data], so [add_data]
    takes it.  On a fresh aggregator [add_data('timestamps', 1)] appends
    the number and the timestamp to the timestamp deque and the trim then
    raises [TypeError] on comparing the number with the cutoff.  After a
    course sample the call returns, with the number left inside the
    timestamp deque, and [get_average('timestamps')] raises. *)
Theorem C10_timestamps_name_is_taken :
("timestamps" ∉ channels) /\
  add_data (init 5) "timestamps" (1 # 1) None 0 0 = Raise TypeError /\
  match run (init 5) [call_at "cog" (1 # 1) 0;
                      call_at "timestamps" (2 # 1) 1000000] with
  | Ok self =>
      deque (data self) "timestamps" = [Stamp 0; Num (2 # 1); Stamp 1000000] /\
      get_data_count self = 3%nat /\
      get_average self "timestamps" = Raise TypeError
  | Raise _ => False
  end.
Proof.
  split.
  { unfold channels. rewrite !not_elem_of_cons.
    repeat split; try discriminate. apply not_elem_of_nil. }
  split; [vm_compute; reflexivity|].
  destruct (run _ _) as [self|e] eqn:Hr; vm_compute in Hr; [|discriminate Hr].
  injection Hr as <-. repeat split.
Qed.


(** ** Wind shift *)

Lemma Qlt_bool_iff (a b : Q) : Qlt_bool a b = true <-> (a < b)%Q.
Proof.
  unfold Qlt_bool. rewrite negb_true_iff, <- not_true_iff_false, Qle_bool_iff.
  split; [apply Qnot_le_lt | apply Qlt_not_le].
Qed.

(** The three cases of the normalisation. *)
Lemma normalize_shift_cases (diff : Q) :
  ((180 # 1) < diff -> normalize_shift diff = diff - (360 # 1))%Q /\
  (diff < (-180 # 1) -> normalize_shift diff = diff + (360 # 1))%Q /\
  ((-180 # 1) <= diff <= (180 # 1) -> normalize_shift diff = diff)%Q.
Proof.
  unfold normalize_shift.
  destruct (Qlt_bool (180 # 1) diff) eqn:Hhi;
    [apply Qlt_bool_iff in Hhi | apply not_true_iff_false in Hhi;
       rewrite Qlt_bool_iff in Hhi];
  (destruct (Qlt_bool diff (-180 # 1)) eqn:Hlo;
    [apply Qlt_bool_iff in Hlo | apply not_true_iff_false in Hlo;
       rewrite Qlt_bool_iff in Hlo]);
  repeat split; intros; try reflexivity; exfalso; lra.
Qed.

(** For directions in [[0, 360)] the normalised shift lies in
    [[-180, 180]], both ends included. *)
Lemma normalize_shift_range (oldest newest : Q) :
  (0 <= oldest < (360 # 1) -> 0 <= newest < (360 # 1) ->
   (-180 # 1) <= normalize_shift (newest - oldest) <= (180 # 1))%Q.
Proof.
  intros Ho Hn.
  destruct (normalize_shift_cases (newest - oldest)) as (Hhi & Hlo & Hmid).
  destruct (Qlt_le_dec (180 # 1) (newest - oldest)) as [H1|H1].
  - rewrite (Hhi H1). lra.
  - destruct (Qlt_le_dec (newest - oldest) (-180 # 1)) as [H2|H2].
    + rewrite (Hlo H2). lra.
    + rewrite (Hmid (conj H2 H1)). lra.
Qed.

(** The selection loop, when the i-th sample of the channel was stored
    with the i-th timestamp. *)
Lemma wind_window_paired cutoff (pre rest : list (Z * Q)) (acc : list item) :
  wind_window cutoff (Num <$> (pre ++ rest).*2) (length pre)
    (Stamp <$> rest.*1) acc =
  Ok (acc ++ (Num <$> (in_window cutoff rest).*2)).
Proof.
  revert pre acc. induction rest as [|p rest IH]; intros pre acc; simpl.
  - by rewrite app_nil_r.
  - unfold in_window in *.
    assert (Hlen : (length pre < length (Num <$> (pre ++ p :: rest).*2))%nat).
    { rewrite !length_fmap, length_app. simpl. lia. }
    assert (Hget : getitem (Num <$> (pre ++ p :: rest).*2) (length pre) =
                   Ok (Num p.2)).
    { unfold getitem. rewrite !list_lookup_fmap.
      rewrite (list_lookup_middle pre rest p (length pre) eq_refl). done. }
    rewrite (bool_decide_true (_ < _)%nat) by exact Hlen.
    rewrite andb_true_r, Hget. clear Hlen Hget.
    pose proof (IH (pre ++ [p])) as IH'.
    rewrite <- app_assoc, length_app in IH'. simpl in IH'.
    replace (length pre + 1)%nat with (S (length pre)) in IH' by lia.
    case_bool_decide as Hc; simpl.
    + rewrite filter_cons_True by done. rewrite IH'. simpl.
      by rewrite <- app_assoc.
    + rewrite filter_cons_False by done. apply IH'.
Qed.

(** C4 (amended).  Let the absolute-wind-direction samples sit in their
    deque at the positions their timestamps have in the timestamp deque
    (as they do when no other channel is fed).  [get_wind_shift(m)]
    returns 0 when fewer than two of them are stamped [now - m] or later.
    Otherwise it returns the newest minus the oldest of those, less 360
    when that difference exceeds 180, plus 360 when it is below -180,
    unchanged in between; for directions in [[0, 360)] the result lies
    in [[-180, 180]].  Oldest 350 and newest 10 give 20; oldest 10 and
    newest 350 give -20. *)
Theorem C4_wind_shift (self : DataAverager) (samples : list (Z * Q))
    (minutes now : Z) :
  data self !! "absolute_wind_direction" = Some (Num <$> samples.*2) ->
  data self !! "timestamps" = Some (Stamp <$> samples.*1) ->
  let recent := (in_window (now - timedelta_minutes minutes) samples).*2 in
  exists shift,
    get_wind_shift self minutes now = Ok shift /\
    ((length recent < 2)%nat -> shift = 0%Q) /\
    (forall oldest newest,
       (2 <= length recent)%nat ->
       head recent = Some oldest -> last recent = Some newest ->
       let diff := (newest - oldest)%Q in
       ((180 # 1) < diff -> shift = diff - (360 # 1))%Q /\
       (diff < (-180 # 1) -> shift = diff + (360 # 1))%Q /\
       ((-180 # 1) <= diff <= (180 # 1) -> shift = diff)%Q /\
       (0 <= oldest < (360 # 1) -> 0 <= newest < (360 # 1) ->
        (-180 # 1) <= shift <= (180 # 1))%Q /\
       (oldest == (350 # 1) -> newest == (10 # 1) -> shift == (20 # 1))%Q /\
       (oldest == (10 # 1) -> newest == (350 # 1) -> shift == (-20 # 1))%Q).
Proof.
  intros Hawd Hts. cbv zeta.
  remember (in_window (now - timedelta_minutes minutes) samples).*2
    as recent eqn:Hrec.
  unfold get_wind_shift. rewrite Hawd.
  destruct (Num <$> samples.*2) as [|x awd'] eqn:Hne.
  { exists 0%Q. split; [done|].
    apply fmap_nil_inv, fmap_nil_inv in Hne. subst samples recent. simpl.
    split; [done|]. intros o n Hlen. lia. }
  cbv beta iota zeta. rewrite <- Hne. clear Hawd. clear x awd' Hne.
  unfold deque. rewrite Hts. simpl default.
  pose proof (wind_window_paired (now - timedelta_minutes minutes) [] samples [])
    as Hw. simpl in Hw. rewrite Hw. clear Hw. simpl.
  rewrite <- Hrec, length_fmap. clear Hrec.
  case_bool_decide as Hlen.
  { exists 0%Q. split; [done|]. split; [done|]. intros o n Hlen'. lia. }
  destruct (last recent) as [newest|] eqn:Hlast;
    [|apply last_None in Hlast; subst recent; simpl in Hlen; lia].
  destruct recent as [|oldest recent']; [simpl in Hlen; lia|].
  assert (Hnew : getitem (Num <$> oldest :: recent')
                   (length (oldest :: recent') - 1) = Ok (Num newest)).
  { unfold getitem. rewrite list_lookup_fmap.
    rewrite last_lookup in Hlast.
    replace (length (oldest :: recent') - 1)%nat
      with (Nat.pred (length (oldest :: recent'))) by lia.
    by rewrite Hlast. }
  rewrite Hnew. simpl.
  exists (normalize_shift (newest - oldest)). split; [done|].
  split; [intros H; simpl in *; lia|].
  intros o n _ [= <-] Hl.
  assert (Hn : n = newest) by congruence. subst n. clear Hl.
  destruct (normalize_shift_cases (newest - oldest)) as (Hhi & Hlo & Hmid).
  split; [exact Hhi|]. split; [exact Hlo|]. split; [exact Hmid|].
  split; [apply normalize_shift_range|].
  split; intros Ho Hn.
  - rewrite Hlo by (rewrite Ho, Hn; reflexivity). rewrite Ho, Hn. reflexivity.
  - rewrite Hhi by (rewrite Ho, Hn; reflexivity). rewrite Ho, Hn. reflexivity.
Qed.


Lemma C4_witness :
  exists shift,
    get_wind_shift (single_channel "absolute_wind_direction" 300000000
                      backing_wind) 1 3000000 = Ok shift /\
    (shift == 20 # 1)%Q.
Proof.
  destruct (C4_wind_shift
              (single_channel "absolute_wind_direction" 300000000 backing_wind)
              [(0, (350 # 1)%Q); (2000000, (10 # 1)%Q)] 1 3000000
              eq_refl eq_refl) as (shift & Hshift & _ & Hs).
  exists shift. split; [exact Hshift|].
  destruct (Hs (350 # 1)%Q (10 # 1)%Q) as (_ & _ & _ & _ & H & _).
  - simpl. lia.
  - reflexivity.
  - reflexivity.
  - apply H; reflexivity.
Defined.

(** C4 (as stated) fails at the lower end of the interval: with oldest
    200 and newest 20 the difference is exactly -180, which is not below
    -180, so it is returned as it is; -180 is outside (-180, 180]. *)
Lemma C4_counterexample :
  match run (init 5) [call_at "absolute_wind_direction" (200 # 1) 0;
                      call_at "absolute_wind_direction" (20 # 1) 2000000] with
  | Ok self =>
      exists shift,
        get_wind_shift self 1 3000000 = Ok shift /\
        (shift == -180 # 1)%Q /\
        ~ ((-180 # 1) < shift /\ shift <= (180 # 1))%Q
  | Raise _ => False
  end.
Proof.
  destruct (run _ _) as [self|e] eqn:Hr; vm_compute in Hr; [|discriminate Hr].
  injection Hr as <-. eexists. split; [vm_compute; reflexivity|].
  split; [reflexivity|].
  intros [H _]. vm_compute in H. discriminate H.
Qed.

(** The selection pairs the i-th sample of the channel with the i-th
    entry of the timestamp deque, which all channels share.  After a
    course sample the pairing is off by one: two wind directions, both
    stamped within the last minute, and the shift over that minute is 0
    instead of 20. *)
Remark wind_shift_after_other_channel :
  match run (init 5) [call_at "cog" (90 # 1) 0;
                      call_at "absolute_wind_direction" (350 # 1) 120000000;
                      call_at "absolute_wind_direction" (10 # 1) 121000000] with
  | Ok self =>
      data self !! "absolute_wind_direction" =
        Some [Num (350 # 1); Num (10 # 1)] /\
      deque (data self) "timestamps" =
        [Stamp 0; Stamp 120000000; Stamp 121000000] /\
      get_wind_shift self 1 121000000 = Ok 0%Q
  | Raise _ => False
  end.
Proof.
  destruct (run _ _) as [self|e] eqn:Hr; vm_compute in Hr; [|discriminate Hr].
  injection Hr as <-. repeat split.
Qed.

(** Trimming is in lockstep: every expired timestamp pops the head of
    every non-empty channel.  A speed sample appended together with a
    course sample costs the course channel its fresh sample. *)
Remark lockstep_trim_evicts_fresh_sample :
  match run (init 5) [call_at "cog" (1 # 1) 0; call_at "sog" (5 # 1) 0;
                      call_at "cog" (3 # 1) 360000000] with
  | Ok self =>
      data self !! "cog" = Some [] /\
      deque (data self) "timestamps" = [Stamp 360000000] /\
      get_average self "cog" = Ok 0%Q
  | Raise _ => False
  end.
Proof.
  destruct (run _ _) as [self|e] eqn:Hr; vm_compute in Hr; [|discriminate Hr].
  injection Hr as <-. repeat split.
Qed.

End Averager_properties.

(* ===================================================================== *)
(** * Properties of the protocol decoder                                  *)
(* ===================================================================== *)

Section Parser_properties.

Import Parser.

(** ** Slices and [struct.unpack] *)

Lemma length_slice (a b : nat) (data : list byte) :
  (b <= length data)%nat -> length (slice a b data) = (b - a)%nat.
Proof. intros H. unfold slice. rewrite length_take, length_drop. lia. Qed.

Lemma byte_of_lookup (data : list byte) (i : nat) :
  (i < length data)%nat ->
  exists b, data !! i = Some b /\ byte_of data i = byte_val b.
Proof.
  intros H. destruct (lookup_lt_is_Some_2 data i H) as [b Hb].
  exists b. split; [done|]. unfold byte_of. by rewrite Hb.
Qed.

Lemma slice_lookup (a b i : nat) (data : list byte) :
  (i < b - a)%nat -> slice a b data !! i = data !! (a + i)%nat.
Proof.
  intros H. unfold slice. rewrite lookup_take_lt by done. apply lookup_drop.
Qed.

Lemma unpack_H_at (data : list byte) (off : nat) :
  (off + 2 <= length data)%nat ->
  unpack_H (slice off (off + 2) data) = Ok (u16_at data off).
Proof.
  intros H.
  pose proof (length_slice off (off + 2) data H) as Hl.
  destruct (byte_of_lookup data off) as (b0 & H0 & E0); [lia|].
  destruct (byte_of_lookup data (off + 1)) as (b1 & H1 & E1); [lia|].
  pose proof (slice_lookup off (off + 2) 0 data ltac:(lia)) as L0.
  pose proof (slice_lookup off (off + 2) 1 data ltac:(lia)) as L1.
  rewrite Nat.add_0_r, H0 in L0. rewrite H1 in L1.
  destruct (slice off (off + 2) data) as [|x0 [|x1 [|x2 l]]];
    simpl in Hl; try lia.
  simpl in L0, L1. injection L0 as ->. injection L1 as ->.
  unfold u16_at. simpl. by rewrite E0, E1.
Qed.

Lemma unpack_I_at (data : list byte) (off : nat) :
  (off + 4 <= length data)%nat ->
  unpack_I (slice off (off + 4) data) = Ok (u32_at data off).
Proof.
  intros H.
  pose proof (length_slice off (off + 4) data H) as Hl.
  destruct (byte_of_lookup data off) as (b0 & H0 & E0); [lia|].
  destruct (byte_of_lookup data (off + 1)) as (b1 & H1 & E1); [lia|].
  destruct (byte_of_lookup data (off + 2)) as (b2 & H2 & E2); [lia|].
  destruct (byte_of_lookup data (off + 3)) as (b3 & H3 & E3); [lia|].
  pose proof (slice_lookup off (off + 4) 0 data ltac:(lia)) as L0.
  pose proof (slice_lookup off (off + 4) 1 data ltac:(lia)) as L1.
  pose proof (slice_lookup off (off + 4) 2 data ltac:(lia)) as L2.
  pose proof (slice_lookup off (off + 4) 3 data ltac:(lia)) as L3.
  rewrite Nat.add_0_r, H0 in L0. rewrite H1 in L1.
  rewrite H2 in L2. rewrite H3 in L3.
  destruct (slice off (off + 4) data) as [|x0 [|x1 [|x2 [|x3 [|x4 l]]]]];
    simpl in Hl; try lia.
  simpl in L0, L1, L2, L3.
  injection L0 as ->. injection L1 as ->. injection L2 as ->. injection L3 as ->.
  unfold u32_at. simpl. by rewrite E0, E1, E2, E3.
Qed.

Lemma unpack_i_at (data : list byte) (off : nat) :
  (off + 4 <= length data)%nat ->
  unpack_i (slice off (off + 4) data) = Ok (s32_at data off).
Proof.
  intros H. unfold unpack_i. rewrite unpack_I_at by done. reflexivity.
Qed.

Lemma unpack_BE_I_ok (buf : list byte) :
  length buf = 4%nat -> exists v, unpack_BE_I buf = Ok v.
Proof.
  intros H. destruct buf as [|x0 [|x1 [|x2 [|x3 [|x4 l]]]]]; try discriminate H.
  simpl. eauto.
Qed.

Lemma byte_at_ok (data : list byte) (i : nat) :
  (i < length data)%nat -> byte_at data i = Ok (byte_of data i).
Proof.
  intros H. destruct (byte_of_lookup data i H) as (b & Hb & E).
  unfold byte_at, getitem. rewrite Hb. simpl. by rewrite E.
Qed.

(** Rewrites every field read whose bounds follow from the hypotheses. *)
Lemma unpack_H_slice (data : list byte) (a b : nat) :
  b = (a + 2)%nat -> (b <= length data)%nat ->
  unpack_H (slice a b data) = Ok (u16_at data a).
Proof. intros ->. apply unpack_H_at. Qed.

Lemma unpack_I_slice (data : list byte) (a b : nat) :
  b = (a + 4)%nat -> (b <= length data)%nat ->
  unpack_I (slice a b data) = Ok (u32_at data a).
Proof. intros ->. apply unpack_I_at. Qed.

Lemma unpack_i_slice (data : list byte) (a b : nat) :
  b = (a + 4)%nat -> (b <= length data)%nat ->
  unpack_i (slice a b data) = Ok (s32_at data a).
Proof. intros ->. apply unpack_i_at. Qed.

Ltac read_fields :=
  repeat first
    [ rewrite (unpack_H_slice _ _ _) by (simpl; lia)
    | rewrite (unpack_I_slice _ _ _) by (simpl; lia)
    | rewrite (unpack_i_slice _ _ _) by (simpl; lia)
    | rewrite (byte_at_ok _ _) by (simpl; lia) ];
  simpl.

(** ** No parser method raises *)

Lemma parse_position_rapid_update_total :
  never_raises parse_position_rapid_update.
Proof.
  intros data. unfold parse_position_rapid_update.
  case_bool_decide; [done|]. read_fields. done.
Qed.

Lemma parse_cog_sog_rapid_update_total :
  never_raises parse_cog_sog_rapid_update.
Proof.
  intros data. unfold parse_cog_sog_rapid_update.
  case_bool_decide; [done|]. read_fields. done.
Qed.

Lemma parse_wind_data_total : never_raises parse_wind_data.
Proof.
  intros data. unfold parse_wind_data.
  case_bool_decide; [done|]. read_fields. done.
Qed.

Lemma parse_navigation_data_total : never_raises parse_navigation_data.
Proof.
  intros data. unfold parse_navigation_data.
  case_bool_decide; [done|]. read_fields. done.
Qed.

Lemma parse_route_waypoint_info_total :
  never_raises parse_route_waypoint_info.
Proof.
  intros data. unfold parse_route_waypoint_info.
  case_bool_decide; [done|]. read_fields. done.
Qed.

Lemma parse_cross_track_error_total : never_raises parse_cross_track_error.
Proof.
  intros data. unfold parse_cross_track_error.
  case_bool_decide; [done|]. read_fields. done.
Qed.

Lemma parse_navigation_route_info_total :
  never_raises parse_navigation_route_info.
Proof.
  intros data. unfold parse_navigation_route_info.
  case_bool_decide; [done|]. read_fields.
  case_bool_decide; read_fields; done.
Qed.

Lemma parse_waypoint_list_total : never_raises parse_waypoint_list.
Proof.
  intros data. unfold parse_waypoint_list. case_bool_decide; done.
Qed.

Lemma parse_route_waypoint_database_total :
  never_raises parse_route_waypoint_database.
Proof.
  intros data. unfold parse_route_waypoint_database.
  case_bool_decide; [done|]. read_fields. done.
Qed.

Lemma pgn_parsers_NoDup :
  NoDup [129025; 129026; 130306; 129284; 129285; 129283; 129281; 129540;
         130074].
Proof. refine (bool_decide_unpack _ _). vm_compute. exact I. Qed.

(** Dictionary lookup of a listed selector. *)
Lemma pgn_parsers_lookup (pgn : Z) (parse : parser) :
  (pgn, parse) ∈
    [(129025, parse_position_rapid_update);
     (129026, parse_cog_sog_rapid_update);
     (130306, parse_wind_data);
     (129284, parse_navigation_data);
     (129285, parse_route_waypoint_info);
     (129283, parse_cross_track_error);
     (129281, parse_navigation_route_info);
     (129540, parse_waypoint_list);
     (130074, parse_route_waypoint_database)] ->
  pgn_parsers !! pgn = Some parse.
Proof.
  intros H. unfold pgn_parsers. apply elem_of_list_to_map_1; [|exact H].
  exact pgn_parsers_NoDup.
Qed.

Lemma pgn_parsers_total (pgn : Z) (parse : parser) :
  pgn_parsers !! pgn = Some parse -> never_raises parse.
Proof.
  unfold pgn_parsers. intros H. apply elem_of_list_to_map_2 in H.
  repeat (apply elem_of_cons in H as [[= _ ->]|H];
          [first [ apply parse_position_rapid_update_total
                 | apply parse_cog_sog_rapid_update_total
                 | apply parse_wind_data_total
                 | apply parse_navigation_data_total
                 | apply parse_route_waypoint_info_total
                 | apply parse_cross_track_error_total
                 | apply parse_navigation_route_info_total
                 | apply parse_waypoint_list_total
                 | apply parse_route_waypoint_database_total ]|]).
  by apply elem_of_nil in H.
Qed.

Lemma pgn_parsers_unknown (pgn : Z) :
  pgn ∉ known_selectors -> pgn_parsers !! pgn = None.
Proof.
  intros H. unfold pgn_parsers. apply not_elem_of_list_to_map_1. exact H.
Qed.

(** The header of a record of eight bytes or more always unpacks. *)
Lemma header_unpacks (raw_data : list byte) :
  (8 <= length raw_data)%nat ->
  exists can_id,
    unpack_BE_I (slice 0 4 raw_data) = Ok can_id /\
    selector raw_data = pgn_of can_id.
Proof.
  intros H. destruct (unpack_BE_I_ok (slice 0 4 raw_data)) as [v Hv].
  { rewrite length_slice; lia. }
  exists v. split; [done|]. unfold selector. by rewrite Hv.
Qed.

(** The [try] block of [parse_message] never raises, so the handler
    that builds [{'error': ...}] is never entered. *)
Lemma parse_message_body_total (raw_data : list byte) :
  match parse_message_body raw_data with
  | Ok (Some (Error _)) => False
  | Ok _ => True
  | Raise _ => False
  end.
Proof.
  unfold parse_message_body. case_bool_decide as Hlen; [done|].
  destruct (header_unpacks raw_data) as (v & Hv & _); [lia|].
  rewrite Hv. unfold mbind, result_bind. cbv beta iota zeta.
  destruct (pgn_parsers !! pgn_of v) as [parse|] eqn:Hp; [|done].
  by apply (pgn_parsers_total _ _ Hp).
Qed.

Lemma parse_message_no_error (raw_data : list byte) (message : string) :
  parse_message raw_data <> Some (Error message).
Proof.
  unfold parse_message.
  pose proof (parse_message_body_total raw_data) as H.
  destruct (parse_message_body raw_data) as [[[]|]|e]; done.
Qed.

(** ** Short records *)

Lemma min_length_guard (pgn : Z) (m : nat) (data : list byte) :
  min_length pgn = Some m -> (length data < m)%nat ->
  exists parse, pgn_parsers !! pgn = Some parse /\ parse data = Ok None.
Proof.
  unfold min_length.
  repeat (case_bool_decide as Hp;
    [ subst pgn; intros [= <-] Hlen; eexists;
      split; [apply pgn_parsers_lookup; rewrite !elem_of_cons; tauto|];
      cbv beta delta [parse_position_rapid_update parse_cog_sog_rapid_update
        parse_wind_data parse_navigation_data parse_route_waypoint_info
        parse_cross_track_error parse_navigation_route_info
        parse_waypoint_list parse_route_waypoint_database];
      rewrite bool_decide_true by exact Hlen; reflexivity
    | clear Hp ]).
  discriminate.
Qed.

(** C3 (amended).  A raw record shorter than 8 bytes decodes to [None].
    A record of 8 bytes or more with a known selector whose payload is
    shorter than that selector's minimum length also decodes to [None],
    the very same value, so the two cases cannot be told apart.  In
    neither case, and in no other, does decoding raise or even produce
    the [{'error': ...}] dictionary of the exception handler. *)
Theorem C3_short_records_decode_to_None (raw_data : list byte) :
  ((length raw_data < 8)%nat -> parse_message raw_data = None) /\
  (forall m,
     (8 <= length raw_data)%nat ->
     min_length (selector raw_data) = Some m ->
     (length (drop 8 raw_data) < m)%nat ->
     parse_message raw_data = None) /\
  (forall message, parse_message raw_data <> Some (Error message)).
Proof.
  split; [|split].
  - intros H. unfold parse_message, parse_message_body.
    by rewrite bool_decide_true.
  - intros m Hlen Hmin Hshort. unfold parse_message, parse_message_body.
    rewrite bool_decide_false by lia.
    destruct (header_unpacks raw_data Hlen) as (v & Hv & Hsel).
    rewrite Hv. unfold mbind, result_bind. cbv beta iota zeta.
    rewrite Hsel in Hmin.
    destruct (min_length_guard _ _ _ Hmin Hshort) as (parse & -> & ->).
    reflexivity.
  - apply parse_message_no_error.
Qed.

Lemma C3_witness :
  parse_message malformed_record = None /\
  parse_message truncated_position = None.
Proof.
  split.
  - apply (C3_short_records_decode_to_None malformed_record). simpl. lia.
  - apply (proj1 (proj2 (C3_short_records_decode_to_None truncated_position))
             8%nat).
    + simpl. lia.
    + reflexivity.
    + simpl. lia.
Defined.

(** C3 (as stated) fails: the result for a known selector with a short
    payload is not distinct from the result for a record shorter than
    8 bytes.  Both are [None]. *)
Lemma C3_counterexample :
  (length malformed_record < 8)%nat /\
  (8 <= length truncated_position)%nat /\
  selector truncated_position = 129025 /\
  min_length 129025 = Some 8%nat /\
  (length (drop 8 truncated_position) < 8)%nat /\
  parse_message truncated_position = parse_message malformed_record.
Proof.
  repeat split; simpl; lia.
Qed.

(** ** Unlisted selectors *)

(** C7 (amended).  A raw record of 8 bytes or more whose selector is not
    one of the nine listed decodes to the dictionary
    [{'pgn': selector, 'raw': hex}], which is not an error, where [hex] is
    the hex rendering of the whole raw record, the 8-byte prefix
    included. *)
Theorem C7_unlisted_selector_passes_through (raw_data : list byte) :
  (8 <= length raw_data)%nat ->
  selector raw_data ∉ known_selectors ->
  parse_message raw_data =
    Some (Unrecognized (selector raw_data) (hex raw_data)).
Proof.
  intros Hlen Hsel. unfold parse_message, parse_message_body.
  rewrite bool_decide_false by lia.
  destruct (header_unpacks raw_data Hlen) as (v & Hv & Hs).
  rewrite Hv. unfold mbind, result_bind. cbv beta iota zeta.
  rewrite Hs in *. by rewrite (pgn_parsers_unknown _ Hsel).
Qed.

Lemma C7_witness :
  parse_message unlisted_record =
    Some (Unrecognized 5 "0000050000000000ab").
Proof.
  apply (C7_unlisted_selector_passes_through unlisted_record).
  - simpl. lia.
  - refine (bool_decide_unpack _ _). vm_compute. exact I.
Defined.

(** C7 (as stated) fails on the hex text: it renders the whole record,
    not the payload.  For the payload [ab] behind the prefix
    [00 00 05 00 00 00 00 00] the text is not [ab]. *)
Lemma C7_counterexample :
  (8 <= length unlisted_record)%nat /\
  (selector unlisted_record ∉ known_selectors) /\
  hex (drop 8 unlisted_record) = "ab" /\
  parse_message unlisted_record = Some (Unrecognized 5 "0000050000000000ab") /\
  parse_message unlisted_record <>
    Some (Unrecognized (selector unlisted_record)
            (hex (drop 8 unlisted_record))).
Proof.
  split; [simpl; lia|].
  split; [refine (bool_decide_unpack _ _); vm_compute; exact I|].
  split; [reflexivity|]. split; [reflexivity|].
  vm_compute. discriminate.
Qed.

(** ** Route database *)

Lemma waypoints_loop_unfold (data : list byte) (offset : nat)
    (waypoints : list db_waypoint) :
  waypoints_loop data offset waypoints =
    if decide (offset + 16 <= length data)%nat then
      match waypoint_record data offset with
      | Ok wp => waypoints_loop data (offset + 16) (waypoints ++ [wp])
      | Raise _ => waypoints
      end
    else waypoints.
Proof.
  funelim (waypoints_loop data offset waypoints); clear Heqcall;
    repeat match goal with
    | H : decide _ = _ |- _ => progress (rewrite H)
    | H : waypoint_record _ _ = _ |- _ => progress (rewrite H)
    end; done.
Qed.

(** Inside the payload a record always decodes: the [except] branch of
    the loop is never taken. *)
Lemma waypoint_record_at (data : list byte) (offset : nat) :
  (offset + 16 <= length data)%nat ->
  waypoint_record data offset = Ok (record_at data offset).
Proof.
  intros H. unfold waypoint_record. read_fields. reflexivity.
Qed.

Lemma waypoints_loop_records (data : list byte) (n : nat) :
  forall offset waypoints,
    ((length data - offset) / 16)%nat = n ->
    waypoints_loop data offset waypoints =
      waypoints ++
      ((fun k => record_at data (offset + 16 * k)) <$> seq 0 n).
Proof.
  induction n as [|n IH]; intros offset waypoints Hn;
    rewrite waypoints_loop_unfold.
  - rewrite decide_False.
    + simpl. by rewrite app_nil_r.
    + intros Hle.
      assert (1 <= (length data - offset) / 16)%nat; [|lia].
      apply Nat.div_le_lower_bound; lia.
  - assert (Hle : (offset + 16 <= length data)%nat).
    { destruct (decide (offset + 16 <= length data)%nat) as [|Hgt]; [done|].
      rewrite Nat.div_small in Hn by lia. discriminate Hn. }
    rewrite decide_True by done.
    rewrite waypoint_record_at by done.
    rewrite (IH (offset + 16)%nat).
    + rewrite <- app_assoc. f_equal.
      change (seq 0 (S n)) with (0%nat :: seq 1 n). rewrite fmap_cons.
      cbn [app]. f_equal; [f_equal; lia|].
      rewrite <- fmap_S_seq, <- list_fmap_compose.
      apply list_fmap_ext. intros i k _. unfold compose. f_equal. lia.
    + replace (length data - offset)%nat
        with ((length data - (offset + 16)) + 1 * 16)%nat in Hn by lia.
      rewrite Nat.div_add in Hn by lia. lia.
Qed.

(** C5.  A route database payload of 8 bytes or more decodes to the
    database id, the route id, the low three bits and bit 3 of byte 4,
    and one waypoint per complete 16-byte record counted from offset 8:
    the k-th waypoint has the 16-bit id at the start of its record, the
    signed 32-bit latitude and longitude that follow, each as its count
    divided by 10 000 000, and the name WP<id>; the rest of the record
    is padding and a trailing partial record is dropped.  With two full
    records and five trailing bytes there are exactly two waypoints. *)
Theorem C5_route_waypoint_database (data : list byte) :
  (8 <= length data)%nat ->
  exists waypoints,
    parse_route_waypoint_database data =
      Ok (Some (RouteWaypointDatabase (u16_at data 0) (u16_at data 2)
                  (Z.land (byte_of data 4) 7)
                  (bool_decide (Z.land (byte_of data 4) 8 <> 0))
                  waypoints)) /\
    length waypoints = complete_records data /\
    (forall k, (k < complete_records data)%nat ->
       waypoints !! k = Some (stated_record data (8 + 16 * k))) /\
    (length data = (8 + 2 * 16 + 5)%nat -> length waypoints = 2%nat).
Proof.
  intros Hlen. unfold parse_route_waypoint_database.
  rewrite bool_decide_false by lia. read_fields.
  rewrite (waypoints_loop_records data (complete_records data) 8 [] eq_refl).
  eexists. split; [reflexivity|]. simpl.
  split; [by rewrite length_fmap, length_seq|].
  split.
  - intros k Hk. rewrite list_lookup_fmap, lookup_seq_lt by done.
    cbn [fmap option_fmap option_map Nat.add]. f_equal.
    unfold record_at, stated_record, scale_1e7, ten_millionths, Qmult, inject_Z.
    cbn [Qnum Qden Pos.mul]. by rewrite !Z.mul_1_r.
  - intros H45. rewrite length_fmap, length_seq. unfold complete_records.
    rewrite H45. reflexivity.
Qed.

Lemma C5_witness :
  exists waypoints,
    parse_route_waypoint_database two_records_and_five =
      Ok (Some (RouteWaypointDatabase 0 0 0 false waypoints)) /\
    length waypoints = 2%nat /\
    waypoint_id <$> waypoints = [257; 514] /\
    latitude <$> waypoints =
      [(16843009 # 10000000)%Q; (33686018 # 10000000)%Q] /\
    longitude <$> waypoints =
      [(16843009 # 10000000)%Q; (33686018 # 10000000)%Q].
Proof.
  destruct (C5_route_waypoint_database two_records_and_five)
    as (waypoints & Hparse & _ & Hk & Hlen).
  - simpl. lia.
  - exists waypoints. split; [exact Hparse|]. split; [by apply Hlen|].
    pose proof (Hlen eq_refl) as H2.
    pose proof (Hk 0%nat ltac:(vm_compute; lia)) as H0.
    pose proof (Hk 1%nat ltac:(vm_compute; lia)) as H1.
    destruct waypoints as [|w0 [|w1 [|w2 l]]]; try discriminate H2.
    simpl in H0, H1. injection H0 as ->. injection H1 as ->.
    repeat split.
Defined.

(** ** Waypoint names *)

Lemma find_from_absent (i : Z) (data : list byte) :
  x00 ∉ data -> find_from i data = -1.
Proof.
  revert i. induction data as [|b data IH]; intros i H; simpl; [done|].
  apply not_elem_of_cons in H as [Hb H].
  rewrite bool_decide_false by congruence. by apply IH.
Qed.

Lemma find_from_first (i : Z) (data : list byte) (p : nat) :
  data !! p = Some x00 -> x00 ∉ take p data ->
  find_from i data = i + Z.of_nat p.
Proof.
  revert i p. induction data as [|b data IH]; intros i p Hp Hpre; [done|].
  destruct p as [|p]; simpl in *.
  - injection Hp as ->. rewrite bool_decide_true by done. lia.
  - apply not_elem_of_cons in Hpre as [Hb Hpre].
    rewrite bool_decide_false by congruence.
    rewrite (IH (i + 1) p Hp Hpre). lia.
Qed.

Lemma decode_ascii_ignore_text (buf : list byte) :
  decode_ascii_ignore buf = ascii_text buf.
Proof.
  unfold ascii_text. induction buf as [|b buf IH]; simpl; [done|].
  case_bool_decide as Hb.
  - rewrite filter_cons_True by done. simpl. by rewrite IH.
  - rewrite filter_cons_False by done. exact IH.
Qed.

(** C6 (amended).  For a WaypointInfo payload longer than 8 bytes, let
    the name bytes be those from offset 8 on.  When the first zero byte
    among them is at a position after the first, the name is the ASCII
    text of the bytes before it, bytes outside ASCII being dropped.
    When there is no zero byte among them, or the very first of them is
    zero, the name is WP<id>. *)
Theorem C6_waypoint_name (data : list byte) :
  (8 < length data)%nat ->
  let name_data := drop 8 data in
  let id := u16_at data 0 in
  exists name,
    parse_route_waypoint_info data = Ok (Some (WaypointInfo id name)) /\
    (forall p, (0 < p)%nat -> name_data !! p = Some x00 ->
               x00 ∉ take p name_data ->
               name = ascii_text (take p name_data)) /\
    (x00 ∉ name_data -> name = wp_label id) /\
    (name_data !! 0%nat = Some x00 -> name = wp_label id).
Proof.
  intros Hlen name_data id. unfold parse_route_waypoint_info.
  rewrite bool_decide_false by lia. read_fields.
  rewrite bool_decide_true by lia. fold name_data. fold id.
  eexists. split; [reflexivity|]. unfold find_null.
  split; [|split].
  - intros p Hp Hnul Hpre. rewrite (find_from_first 0 _ p Hnul Hpre).
    rewrite bool_decide_true by lia.
    replace (Z.to_nat (0 + Z.of_nat p)) with p by lia.
    apply decode_ascii_ignore_text.
  - intros Habs. rewrite (find_from_absent 0 _ Habs).
    by rewrite bool_decide_false by lia.
  - intros Hnul. rewrite (find_from_first 0 _ 0%nat Hnul) by apply not_elem_of_nil.
    by rewrite bool_decide_false by lia.
Qed.

Lemma C6_witness :
  parse_route_waypoint_info terminated_name =
    Ok (Some (WaypointInfo 7 "AB")).
Proof.
  destruct (C6_waypoint_name terminated_name) as (name & -> & H & _).
  - simpl. lia.
  - rewrite (H 2%nat); [reflexivity|lia|reflexivity|].
    refine (bool_decide_unpack _ _). vm_compute. exact I.
Defined.

(** C6 (as stated) fails without a terminator: the name bytes [AB] run
    to the end of the payload and the decoded name is WP7, not AB. *)
Lemma C6_counterexample :
  (8 < length unterminated_name)%nat /\
  (x00 ∉ drop 8 unterminated_name) /\
  ascii_text (drop 8 unterminated_name) = "AB" /\
  parse_route_waypoint_info unterminated_name =
    Ok (Some (WaypointInfo 7 "WP7")) /\
  parse_route_waypoint_info unterminated_name <>
    Ok (Some (WaypointInfo 7 (ascii_text (drop 8 unterminated_name)))).
Proof.
  split; [simpl; lia|].
  split; [refine (bool_decide_unpack _ _); vm_compute; exact I|].
  split; [reflexivity|]. split; [reflexivity|].
  vm_compute. discriminate.
Qed.

(** With [errors='ignore'] the decoding drops bytes and never fails, so
    a terminated name without any ASCII byte decodes to the empty text;
    the fallback to WP<id> in the [except] branch is never taken. *)
Remark undecodable_name_is_empty :
  parse_route_waypoint_info undecodable_name =
    Ok (Some (WaypointInfo 7 "")).
Proof. reflexivity. Qed.

End Parser_properties.

(* ===================================================================== *)
(** * Field layouts of the decoder                                        *)
(* ===================================================================== *)

Section Decoder_fields.

Import Parser.

Lemma byte_val_range (b : byte) : 0 <= byte_val b < 256.
Proof.
  unfold byte_val. pose proof (Byte.to_N_bounded b). lia.
Qed.

Lemma byte_of_range (data : list byte) (i : nat) : 0 <= byte_of data i < 256.
Proof. apply byte_val_range. Qed.


Lemma u32_at_range (data : list byte) (off : nat) :
  0 <= u32_at data off < 4294967296.
Proof.
  unfold u32_at.
  pose proof (byte_of_range data off). pose proof (byte_of_range data (off + 1)).
  pose proof (byte_of_range data (off + 2)).
  pose proof (byte_of_range data (off + 3)). lia.
Qed.

Lemma s32_at_range (data : list byte) (off : nat) :
  -2147483648 <= s32_at data off < 2147483648.
Proof.
  unfold s32_at. pose proof (u32_at_range data off).
  case_bool_decide; lia.
Qed.

(** X1.  The selector is read from the lowest bit of the first byte and from
    the second and third bytes of the record; the fourth byte and the
    seven high bits of the first play no part. *)
Theorem selector_bits (raw_data : list byte) :
  (4 <= length raw_data)%nat ->
  selector raw_data =
    (byte_of raw_data 0 mod 2) * 65536 + byte_of raw_data 1 * 256
    + byte_of raw_data 2 /\
  0 <= selector raw_data < 131072.
Proof.
  intros Hlen.
  destruct (byte_of_lookup raw_data 0) as (b0 & H0 & E0); [lia|].
  destruct (byte_of_lookup raw_data 1) as (b1 & H1 & E1); [lia|].
  destruct (byte_of_lookup raw_data 2) as (b2 & H2 & E2); [lia|].
  destruct (byte_of_lookup raw_data 3) as (b3 & H3 & E3); [lia|].
  pose proof (length_slice 0 4 raw_data Hlen) as Hl.
  pose proof (slice_lookup 0 4 0 raw_data ltac:(lia)) as L0.
  pose proof (slice_lookup 0 4 1 raw_data ltac:(lia)) as L1.
  pose proof (slice_lookup 0 4 2 raw_data ltac:(lia)) as L2.
  pose proof (slice_lookup 0 4 3 raw_data ltac:(lia)) as L3.
  simpl in L0, L1, L2, L3. rewrite H0 in L0. rewrite H1 in L1.
  rewrite H2 in L2. rewrite H3 in L3.
  unfold selector.
  destruct (slice 0 4 raw_data) as [|x0 [|x1 [|x2 [|x3 [|x4 l]]]]];
    simpl in Hl; try lia.
  simpl in L0, L1, L2, L3.
  injection L0 as ->. injection L1 as ->. injection L2 as ->. injection L3 as ->.
  rewrite E0, E1, E2. simpl. unfold pgn_of.
  change 0x1FFFF with (Z.ones 17).
  pose proof (byte_val_range b0). pose proof (byte_val_range b1).
  pose proof (byte_val_range b2). pose proof (byte_val_range b3).
  rewrite Z.land_ones by lia. rewrite Z.shiftr_div_pow2 by lia.
  change (2 ^ 8) with 256. change (2 ^ 17) with 131072.
  split; [|apply Z.mod_pos_bound; lia].
  replace ((byte_val b0 * 16777216 + byte_val b1 * 65536 + byte_val b2 * 256
            + byte_val b3) / 256)
    with (byte_val b0 * 65536 + byte_val b1 * 256 + byte_val b2)
    by (apply Z.div_unique with (r := byte_val b3); lia).
  symmetry.
  apply Z.mod_unique with (q := byte_val b0 / 2).
  - left. pose proof (Z.mod_pos_bound (byte_val b0) 2). lia.
  - pose proof (Z.div_mod (byte_val b0) 2). lia.
Qed.

Lemma selector_bits_witness :
  selector truncated_position = 129025.
Proof.
  destruct (selector_bits truncated_position) as [H _].
  - simpl. lia.
  - rewrite H. reflexivity.
Defined.

(** ** What each parser method returns on a payload that is long enough *)

(** Rewrites the field reads that the length of the payload allows. *)
Ltac read_payload :=
  repeat first
    [ rewrite (unpack_H_slice _ _ _) by (simpl; lia)
    | rewrite (unpack_I_slice _ _ _) by (simpl; lia)
    | rewrite (unpack_i_slice _ _ _) by (simpl; lia)
    | rewrite (byte_at_ok _ _) by (simpl; lia) ];
  simpl.

Lemma parse_position_rapid_update_fields (data : list byte) :
  (8 <= length data)%nat ->
  parse_position_rapid_update data =
    Ok (Some (Position (scale_1e7 (s32_at data 0)) (scale_1e7 (s32_at data 4)))).
Proof.
  intros H. unfold parse_position_rapid_update.
  rewrite bool_decide_false by lia. read_payload. reflexivity.
Qed.

Lemma parse_cog_sog_rapid_update_fields (data : list byte) :
  (8 <= length data)%nat ->
  parse_cog_sog_rapid_update data =
    Ok (Some (Navigation (DegOfRadE4 (u16_at data 2))
                (scale_1e2 (u16_at data 4)))).
Proof.
  intros H. unfold parse_cog_sog_rapid_update.
  rewrite bool_decide_false by lia. read_payload. reflexivity.
Qed.

Lemma parse_wind_data_fields (data : list byte) :
  (6 <= length data)%nat ->
  parse_wind_data data =
    Ok (Some (Wind (scale_1e2 (u16_at data 0)) (DegOfRadE4 (u16_at data 2))
                (if bool_decide (Z.land (byte_of data 4) 7 = 2)
                 then Apparent else TrueWind))).
Proof.
  intros H. unfold parse_wind_data.
  rewrite bool_decide_false by lia. read_payload. reflexivity.
Qed.

Lemma parse_navigation_data_fields (data : list byte) :
  (8 <= length data)%nat ->
  parse_navigation_data data =
    Ok (Some (WaypointNav (DegOfRadE4 (u16_at data 4))
                (scale_1e2 (u32_at data 0)))).
Proof.
  intros H. unfold parse_navigation_data.
  rewrite bool_decide_false by lia. read_payload. reflexivity.
Qed.

Lemma parse_cross_track_error_fields (data : list byte) :
  (6 <= length data)%nat ->
  parse_cross_track_error data =
    Ok (Some (CrossTrackError (scale_1e2 (s32_at data 1))
                (Z.land (byte_of data 0) 15)
                (bool_decide (Z.land (byte_of data 0) 64 <> 0)))).
Proof.
  intros H. unfold parse_cross_track_error.
  rewrite bool_decide_false by lia. read_payload. reflexivity.
Qed.

Lemma parse_navigation_route_info_fields (data : list byte) :
  (16 <= length data)%nat ->
  parse_navigation_route_info data =
    Ok (Some (NavigationRouteInfo (u16_at data 0) (u16_at data 2)
                (scale_1e2 (u32_at data 4)) (DegOfRadE4 (u16_at data 8))
                (scale_1e7 (s32_at data 10))
                (if bool_decide (18 <= length data)%nat
                 then Some (scale_1e7 (s32_at data 14)) else None))).
Proof.
  intros H. unfold parse_navigation_route_info.
  rewrite bool_decide_false by lia. read_payload.
  case_bool_decide; read_payload; reflexivity.
Qed.

Lemma parse_waypoint_list_fields (data : list byte) :
  (8 <= length data)%nat ->
  parse_waypoint_list data = Ok (Some (WaypointList (hex data) (length data))).
Proof.
  intros H. unfold parse_waypoint_list. by rewrite bool_decide_false by lia.
Qed.

Lemma parse_route_waypoint_info_some (data : list byte) :
  (8 <= length data)%nat ->
  exists name,
    parse_route_waypoint_info data =
      Ok (Some (WaypointInfo (u16_at data 0) name)).
Proof.
  intros H. unfold parse_route_waypoint_info.
  rewrite bool_decide_false by lia. read_payload. eauto.
Qed.

Lemma parse_route_waypoint_database_some (data : list byte) :
  (8 <= length data)%nat ->
  exists nav_direction supplementary waypoints,
    parse_route_waypoint_database data =
      Ok (Some (RouteWaypointDatabase (u16_at data 0) (u16_at data 2)
                  nav_direction supplementary waypoints)).
Proof.
  intros H. unfold parse_route_waypoint_database.
  rewrite bool_decide_false by lia. read_payload. eauto.
Qed.

(** A listed selector with a payload of its minimum length or more
    decodes to a dictionary, whose ['type'] is the one of the selector. *)
Lemma min_length_enough (pgn : Z) (m : nat) (data : list byte) :
  min_length pgn = Some m -> (m <= length data)%nat ->
  exists parse e,
    pgn_parsers !! pgn = Some parse /\ parse data = Ok (Some e) /\
    event_type e = Some (type_of_selector pgn).
Proof.
  unfold min_length, type_of_selector.
  repeat (case_bool_decide as Hp;
    [ subst pgn; intros [= <-] Hlen;
      first
        [ destruct (parse_route_waypoint_info_some data Hlen) as (? & Hparse);
          eexists; eexists;
          split; [apply pgn_parsers_lookup; rewrite !elem_of_cons; tauto|];
          split; [exact Hparse|reflexivity]
        | destruct (parse_route_waypoint_database_some data Hlen)
            as (? & ? & ? & Hparse);
          eexists; eexists;
          split; [apply pgn_parsers_lookup; rewrite !elem_of_cons; tauto|];
          split; [exact Hparse|reflexivity]
        | eexists; eexists;
          split; [apply pgn_parsers_lookup; rewrite !elem_of_cons; tauto|];
          split;
            [ first
                [ apply parse_position_rapid_update_fields; exact Hlen
                | apply parse_cog_sog_rapid_update_fields; exact Hlen
                | apply parse_wind_data_fields; exact Hlen
                | apply parse_navigation_data_fields; exact Hlen
                | apply parse_cross_track_error_fields; exact Hlen
                | apply parse_navigation_route_info_fields; exact Hlen
                | apply parse_waypoint_list_fields; exact Hlen ]
            | reflexivity ] ]
    | clear Hp ]).
  discriminate.
Qed.

(** X2.  [parse_message] returns [None] in exactly two cases: the record is
    shorter than 8 bytes, or its selector is listed and its payload is
    shorter than the minimum length of that selector. *)
Theorem parse_message_None_iff (raw_data : list byte) :
  parse_message raw_data = None <->
  (length raw_data < 8)%nat \/
  (exists m, min_length (selector raw_data) = Some m /\
             (length (drop 8 raw_data) < m)%nat).
Proof.
  split.
  - intros Hnone.
    destruct (decide (length raw_data < 8)%nat) as [|Hlen]; [by left|].
    right. revert Hnone. unfold parse_message, parse_message_body.
    rewrite bool_decide_false by done.
    destruct (header_unpacks raw_data) as (v & Hv & Hsel); [lia|].
    rewrite Hv. unfold mbind, result_bind. cbv beta iota zeta.
    rewrite Hsel.
    destruct (min_length (pgn_of v)) as [m|] eqn:Hm.
    + destruct (decide (length (drop 8 raw_data) < m)%nat) as [|Hge];
        [by eauto|].
      destruct (min_length_enough _ _ (drop 8 raw_data) Hm)
        as (parse & e & -> & -> & _); [lia|]. discriminate.
    + assert (Hun : pgn_of v ∉ known_selectors).
      { revert Hm. unfold min_length, known_selectors.
        rewrite !not_elem_of_cons.
        repeat (case_bool_decide; [discriminate|]).
        intros _. repeat split; try done. apply not_elem_of_nil. }
      rewrite (pgn_parsers_unknown _ Hun). discriminate.
  - intros Hcase. unfold parse_message, parse_message_body.
    destruct (decide (length raw_data < 8)%nat) as [Hlt|Hlen];
      [by rewrite bool_decide_true|].
    destruct Hcase as [Hshort|(m & Hm & Hshort)]; [lia|].
    rewrite bool_decide_false by done.
    destruct (header_unpacks raw_data) as (v & Hv & Hsel); [lia|].
    rewrite Hv. unfold mbind, result_bind. cbv beta iota zeta.
    rewrite Hsel in Hm.
    destruct (min_length_guard _ _ _ Hm Hshort) as (parse & -> & ->).
    reflexivity.
Qed.

(** X3.  A record of 8 bytes or more with a listed selector and a payload of
    that selector's minimum length or more decodes to a dictionary whose
    ['type'] entry is the one that belongs to the selector. *)
Theorem parse_message_type (raw_data : list byte) (m : nat) :
  (8 <= length raw_data)%nat ->
  min_length (selector raw_data) = Some m ->
  (m <= length (drop 8 raw_data))%nat ->
  exists e,
    parse_message raw_data = Some e /\
    event_type e = Some (type_of_selector (selector raw_data)).
Proof.
  intros Hlen Hm Hpay. unfold parse_message, parse_message_body.
  rewrite bool_decide_false by lia.
  destruct (header_unpacks raw_data Hlen) as (v & Hv & Hsel).
  rewrite Hv. unfold mbind, result_bind. cbv beta iota zeta.
  rewrite Hsel in *.
  destruct (min_length_enough _ _ _ Hm Hpay) as (parse & e & -> & -> & Ht).
  by exists e.
Qed.

Lemma parse_message_type_witness :
  exists e,
    parse_message position_record = Some e /\
    event_type e = Some "position".
Proof.
  destruct (parse_message_type position_record 8) as (e & He & Ht).
  - simpl. lia.
  - reflexivity.
  - simpl. lia.
  - exists e. split; [exact He|exact Ht].
Defined.

(** ** Position *)

Lemma byte_val_of_Z (z : Z) : byte_val (byte_of_Z z) = z mod 256.
Proof.
  unfold byte_val, byte_of_Z.
  pose proof (Z.mod_pos_bound z 256 ltac:(lia)) as Hr.
  destruct (Byte.of_N (Z.to_N (z mod 256))) as [b|] eqn:Hb; simpl.
  - apply Byte.to_of_N in Hb. rewrite Hb. lia.
  - apply Byte.of_N_None_iff in Hb. lia.
Qed.

Lemma unpack_pack_i (v : Z) (rest : list byte) :
  -2147483648 <= v < 2147483648 ->
  s32_at (pack_i v ++ rest) 0 = v.
Proof.
  intros Hv. unfold s32_at, u32_at, byte_of, pack_i. simpl.
  rewrite !byte_val_of_Z.
  set (u := v mod 4294967296).
  assert (Hu : 0 <= u < 4294967296) by (apply Z.mod_pos_bound; lia).
  assert (Hsum : u mod 256 + (u / 256) mod 256 * 256
                 + (u / 65536) mod 256 * 65536
                 + (u / 16777216) mod 256 * 16777216 = u).
  { clearbody u. clear Hv. Z.div_mod_to_equations. lia. }
  rewrite Hsum. subst u.
  case_bool_decide as Hs.
  - destruct (decide (0 <= v)) as [Hp|Hn].
    + apply Z.mod_small. lia.
    + exfalso. rewrite <- (Z.mod_add v 1) in Hs by lia.
      rewrite Z.mod_small in Hs by lia. lia.
  - destruct (decide (0 <= v)) as [Hp|Hn].
    + exfalso. rewrite Z.mod_small in Hs by lia. lia.
    + rewrite <- (Z.mod_add v 1) by lia. rewrite Z.mod_small by lia. lia.
Qed.

(** X4.  Decoding inverts the little-endian two's complement layout: a
    Position payload that starts with the four bytes of a signed 32-bit
    latitude count and the four bytes of a longitude count decodes to
    those counts times 1e-7, negative ones included, whatever follows. *)
Theorem position_round_trip (lat lon : Z) (rest : list byte) :
  -2147483648 <= lat < 2147483648 ->
  -2147483648 <= lon < 2147483648 ->
  parse_position_rapid_update (pack_i lat ++ pack_i lon ++ rest) =
    Ok (Some (Position (scale_1e7 lat) (scale_1e7 lon))).
Proof.
  intros Hlat Hlon.
  rewrite parse_position_rapid_update_fields
    by (rewrite !length_app; simpl; lia).
  rewrite (unpack_pack_i lat _ Hlat).
  replace (s32_at (pack_i lat ++ pack_i lon ++ rest) 4) with lon; [done|].
  rewrite <- (unpack_pack_i lon rest Hlon) at 1. reflexivity.
Qed.

Lemma position_round_trip_witness :
  match parse_position_rapid_update
          (pack_i 370000000 ++ pack_i (-1220000000) ++ []) with
  | Ok (Some (Position latitude longitude)) =>
      (latitude == 37 # 1)%Q /\ (longitude == -122 # 1)%Q
  | _ => False
  end.
Proof.
  rewrite (position_round_trip 370000000 (-1220000000) []) by lia.
  split; reflexivity.
Defined.

(** ** Wind, cross-track error, route information *)








(** X7.  A route-information payload of 16 bytes or more always decodes; the
    destination longitude is part of the result exactly when the payload
    has 18 bytes or more, read as the signed count of bytes 14 to 17
    times 1e-7. *)
Theorem route_info_longitude_optional (data : list byte) :
  (16 <= length data)%nat ->
  exists route_id waypoint_id distance bearing dest_lat dest_lon,
    parse_navigation_route_info data =
      Ok (Some (NavigationRouteInfo route_id waypoint_id distance bearing
                  dest_lat dest_lon)) /\
    dest_lat = scale_1e7 (s32_at data 10) /\
    ((18 <= length data)%nat -> dest_lon = Some (scale_1e7 (s32_at data 14))) /\
    ((length data < 18)%nat -> dest_lon = None).
Proof.
  intros H. rewrite parse_navigation_route_info_fields by done.
  eexists _, _, _, _, _, _. split; [reflexivity|]. split; [done|].
  split; intros Hl.
  - by rewrite bool_decide_true.
  - by rewrite bool_decide_false by lia.
Qed.

Lemma route_info_longitude_optional_witness :
  (exists r w d b lat,
     parse_navigation_route_info route_info_short =
       Ok (Some (NavigationRouteInfo r w d b lat None))) /\
  (exists r w d b lat lon,
     parse_navigation_route_info route_info_long =
       Ok (Some (NavigationRouteInfo r w d b lat (Some lon)))).
Proof.
  split.
  - destruct (route_info_longitude_optional route_info_short)
      as (r & w & d & b & lat & lon & Hp & _ & _ & Hnone); [simpl; lia|].
    rewrite (Hnone ltac:(simpl; lia)) in Hp. by exists r, w, d, b, lat.
  - destruct (route_info_longitude_optional route_info_long)
      as (r & w & d & b & lat & lon & Hp & _ & Hsome & _); [simpl; lia|].
    rewrite (Hsome ltac:(simpl; lia)) in Hp.
    eexists r, w, d, b, lat, _. exact Hp.
Defined.

(** ** Hex rendering *)

Lemma digit_value_hex_digit (n : Z) :
  0 <= n < 16 -> digit_value (hex_digit n) = n.
Proof.
  intros H.
  assert (Hn : exists k, (k < 16)%nat /\ n = Z.of_nat k)
    by (exists (Z.to_nat n); lia).
  destruct Hn as (k & Hk & ->).
  do 16 (destruct k as [|k]; [reflexivity|]). lia.
Qed.

Lemma byte_val_inj (b1 b2 : byte) : byte_val b1 = byte_val b2 -> b1 = b2.
Proof.
  unfold byte_val. intros H.
  assert (Hn : Byte.to_N b1 = Byte.to_N b2) by lia.
  pose proof (Byte.of_to_N b1) as H1. rewrite Hn, Byte.of_to_N in H1.
  congruence.
Qed.

(** X8.  The hex text of a record has two characters per byte, and two
    records with the same hex text are the same record. *)
Theorem hex_faithful (data1 data2 : list byte) :
  String.length (hex data1) = (2 * length data1)%nat /\
  (hex data1 = hex data2 -> data1 = data2).
Proof.
  split.
  - induction data1 as [|b data1 IH]; simpl; [done|]. rewrite IH. lia.
  - revert data2. induction data1 as [|b1 data1 IH]; intros [|b2 data2];
      simpl; try discriminate; [done|].
    intros [= Hhi Hlo Hrest].
    f_equal; [|by apply IH].
    apply byte_val_inj.
    pose proof (byte_val_range b1) as R1. pose proof (byte_val_range b2) as R2.
    apply (f_equal digit_value) in Hhi, Hlo.
    rewrite !digit_value_hex_digit in Hhi, Hlo
      by (first [apply Z.mod_pos_bound; lia
                | split; [apply Z.div_pos; lia
                         |apply Z.div_lt_upper_bound; lia]]).
    rewrite (Z.div_mod (byte_val b1) 16), (Z.div_mod (byte_val b2) 16) by lia.
    by rewrite Hhi, Hlo.
Qed.

End Decoder_fields.

(* ===================================================================== *)
(** * More on the navigation state store                                  *)
(* ===================================================================== *)

Section Route_replacement.

Import NavData.

(** ** Directions stay in the compass range *)

Lemma py_mod_range (a : Q) :
  (0 <= py_mod a (360 # 1) /\ py_mod a (360 # 1) < 360 # 1)%Q.
Proof.
  unfold py_mod.
  pose proof (Qfloor_le (a / (360 # 1))) as Hlo.
  pose proof (Qlt_floor (a / (360 # 1))) as Hhi.
  rewrite inject_Z_plus in Hhi.
  assert (Ha : (a == (360 # 1) * (a / (360 # 1)))%Q) by (field; discriminate).
  set (f := inject_Z (Qfloor (a / (360 # 1)))) in *.
  set (x := (a / (360 # 1))%Q) in *.
  change (inject_Z 1) with 1%Q in Hhi.
  split.
  - rewrite Ha at 1. lra.
  - rewrite Ha at 1. lra.
Qed.

(** X9.  Whatever its arguments and the values stored before, [update_wind]
    leaves the absolute wind direction equal to the remainder modulo 360
    of the stored true wind angle plus the stored course.  That value
    lies between 0 and 360, both ends included, and it is below 360
    when the sum is not negative, as it is for every angle and course
    the decoder produces. *)
Theorem update_wind_direction_in_range (self : NavigationData)
    (true_speed true_angle apparent_speed apparent_angle : option Q) :
  let self' :=
    update_wind self true_speed true_angle apparent_speed apparent_angle in
  absolute_wind_direction self' =
    py_mod (true_wind_angle self' + current_cog self')%Q (360 # 1) /\
  (0 <= absolute_wind_direction self' /\
   absolute_wind_direction self' <= 360 # 1)%Q /\
  ((0 <= true_wind_angle self' + current_cog self')%Q ->
   (absolute_wind_direction self' < 360 # 1)%Q) /\
  current_cog self' = current_cog self /\
  true_wind_angle self' = default (true_wind_angle self) true_angle.
Proof.
  intros self'.
  assert (H : absolute_wind_direction self' =
              py_mod (true_wind_angle self' + current_cog self')%Q (360 # 1))
    by (subst self'; destruct true_speed, true_angle, apparent_speed,
          apparent_angle; reflexivity).
  split; [exact H|].
  pose proof (py_mod_range (true_wind_angle self' + current_cog self')%Q)
    as [Hlo Hhi].
  split; [rewrite H; split; [exact Hlo|by apply Qlt_le_weak]|].
  split; [intros _; by rewrite H|].
  subst self'.
  destruct true_speed, true_angle, apparent_speed, apparent_angle;
    split; reflexivity.
Qed.

(** ** Adding waypoints and replacing the route *)

Lemma add_route_waypoint_sequence self id lat lon name :
  waypoint_sequence (add_route_waypoint self id lat lon name) =
    if bool_decide (id ∈ waypoint_sequence self) then waypoint_sequence self
    else waypoint_sequence self ++ [id].
Proof. unfold add_route_waypoint. simpl. by case_bool_decide. Qed.

Lemma add_route_waypoint_map self id lat lon name :
  route_waypoints (add_route_waypoint self id lat lon name) =
    <[id := {| wp_latitude := lat; wp_longitude := lon;
               wp_name := default (wp_label id) name |}]>
      (route_waypoints self).
Proof.
  unfold add_route_waypoint. simpl.
  case_bool_decide; simpl; by destruct name.
Qed.

Lemma add_route_waypoint_scalars self id lat lon name :
  current_route_id (add_route_waypoint self id lat lon name) =
    current_route_id self /\
  current_waypoint_id (add_route_waypoint self id lat lon name) =
    current_waypoint_id self.
Proof. unfold add_route_waypoint. simpl. by case_bool_decide. Qed.

Lemma insert_all_sequence (wps : list waypoint_entry) :
  forall self,
    waypoint_sequence (insert_all self wps) =
      waypoint_sequence self ++
      filter (fun j => j ∉ waypoint_sequence self)
        (first_occurrences (we_waypoint_id <$> wps)).
Proof.
  induction wps as [|wp wps IH]; intros self; simpl.
  - by rewrite app_nil_r.
  - unfold insert_all in *. simpl. rewrite IH, add_route_waypoint_sequence.
    set (id := we_waypoint_id wp).
    set (rest := first_occurrences (we_waypoint_id <$> wps)).
    case_bool_decide as Hin.
    + rewrite filter_cons_False by (intros H; by apply H).
      f_equal. rewrite list_filter_filter. apply list_filter_iff.
      intros j. cbn beta. split; [|by intros [? ?]].
      intros Hj. split; [done|]. intros ->. by apply Hj.
    + rewrite filter_cons_True by done. rewrite <- app_assoc. simpl.
      do 2 f_equal. rewrite list_filter_filter. apply list_filter_iff.
      intros j. cbn beta.
      rewrite not_elem_of_app, list_elem_of_singleton. tauto.
Qed.

Lemma insert_all_absent (wps : list waypoint_entry) :
  forall self id,
    id ∉ (we_waypoint_id <$> wps) ->
    route_waypoints (insert_all self wps) !! id = route_waypoints self !! id.
Proof.
  induction wps as [|wp wps IH]; intros self id Hid; simpl; [done|].
  rewrite fmap_cons in Hid. apply not_elem_of_cons in Hid as [Hne Hid].
  unfold insert_all in *. simpl. rewrite (IH _ id Hid).
  rewrite add_route_waypoint_map. by rewrite lookup_insert_ne.
Qed.

Lemma insert_all_last (pre post : list waypoint_entry) (wp : waypoint_entry) :
  forall self,
    we_waypoint_id wp ∉ (we_waypoint_id <$> post) ->
    route_waypoints (insert_all self (pre ++ wp :: post))
      !! we_waypoint_id wp = Some (stored_entry wp).
Proof.
  induction pre as [|p pre IH]; intros self Hpost.
  - unfold insert_all. simpl.
    rewrite (insert_all_absent post _ _ Hpost).
    rewrite add_route_waypoint_map. by rewrite lookup_insert_eq.
  - unfold insert_all in *. simpl. by apply IH.
Qed.

Lemma insert_all_scalars (wps : list waypoint_entry) :
  forall self,
    current_route_id (insert_all self wps) = current_route_id self.
Proof.
  induction wps as [|wp wps IH]; intros self; [done|].
  unfold insert_all in *. simpl. rewrite IH.
  apply add_route_waypoint_scalars.
Qed.

Lemma filter_not_in_nil (l : list Z) :
  filter (fun j => j ∉ ([] : list Z)) l = l.
Proof.
  induction l as [|j l IH]; [done|].
  rewrite filter_cons_True by apply not_elem_of_nil. by rewrite IH.
Qed.

(** X10.  [update_route] with a waypoint list forgets the previous route: the
    new sequence holds the ids of the list in the order of their first
    occurrence, each once; an id that is not in the list has no entry
    any more; an id that is in the list has the coordinates and the name
    of its last element in the list (WP<id> when that element has no
    name). *)
Theorem update_route_replaces (self : NavigationData) (route_id : option Z)
    (wps : list waypoint_entry) :
  let self' := update_route self route_id (Some wps) in
  let ids := we_waypoint_id <$> wps in
  waypoint_sequence self' = first_occurrences ids /\
  (forall id, id ∉ ids -> route_waypoints self' !! id = None) /\
  (forall pre wp post,
     wps = pre ++ wp :: post ->
     we_waypoint_id wp ∉ (we_waypoint_id <$> post) ->
     route_waypoints self' !! we_waypoint_id wp = Some (stored_entry wp)) /\
  current_route_id self' = default (current_route_id self) route_id.
Proof.
  intros self' ids. subst self'. unfold update_route.
  set (s0 := set_waypoint_sequence [] _).
  change (foldl _ s0 wps) with (insert_all s0 wps).
  assert (Hseq0 : waypoint_sequence s0 = []) by reflexivity.
  assert (Hmap0 : route_waypoints s0 = ∅) by reflexivity.
  split; [|split; [|split]].
  - rewrite insert_all_sequence, Hseq0. simpl. apply filter_not_in_nil.
  - intros id Hid. by rewrite insert_all_absent, Hmap0 by done.
  - intros pre wp post -> Hpost. by apply insert_all_last.
  - rewrite insert_all_scalars. subst s0. by destruct route_id.
Qed.

Lemma update_route_replaces_witness :
  let self' := update_route three_leg_route (Some 7) (Some repeated_leg) in
  waypoint_sequence self' = [21; 22] /\
  route_waypoints self' !! 11 = None /\
  route_waypoints self' !! 21 =
    Some {| wp_latitude := 5 # 1; wp_longitude := 6 # 1; wp_name := "HOME" |}.
Proof.
  intros self'.
  destruct (update_route_replaces three_leg_route (Some 7) repeated_leg)
    as (Hseq & Habs & Hlast & _).
  fold self' in Hseq, Habs, Hlast.
  split; [rewrite Hseq; reflexivity|]. split.
  - apply Habs. refine (bool_decide_unpack _ _). vm_compute. exact I.
  - apply (Hlast (take 2 repeated_leg) _ [] eq_refl). apply not_elem_of_nil.
Defined.

(** ** The sequence and the mapping agree *)

Lemma route_exact_init : route_exact init.
Proof.
  split; [constructor|]. intros id. simpl. rewrite lookup_empty.
  split; [intros H; by apply elem_of_nil in H|intros [? H]; discriminate H].
Qed.

Lemma route_exact_add self id lat lon name :
  route_exact self -> route_exact (add_route_waypoint self id lat lon name).
Proof.
  intros [Hnd Hdom]. unfold route_exact.
  rewrite add_route_waypoint_sequence, add_route_waypoint_map.
  case_bool_decide as Hin.
  - split; [done|]. intros j. rewrite lookup_insert_is_Some', <- Hdom.
    split; [tauto|]. intros [<-|?]; done.
  - split.
    + apply NoDup_app. split; [done|]. split; [|apply NoDup_singleton].
      intros x Hx Hx'. apply list_elem_of_singleton in Hx'. by subst.
    + intros j.
      rewrite elem_of_app, list_elem_of_singleton, lookup_insert_is_Some',
        <- Hdom. split; intros [?|?]; auto.
Qed.

Lemma route_exact_insert_all wps :
  forall self, route_exact self -> route_exact (insert_all self wps).
Proof.
  induction wps as [|wp wps IH]; intros self H; [done|].
  unfold insert_all in *. simpl. apply IH. by apply route_exact_add.
Qed.

Lemma route_exact_perform self c :
  route_exact self -> route_exact (perform self c).
Proof.
  intros H. destruct c as [cog sog vmg|a b c d|id|id lat lon name|rid wps];
    simpl.
  - destruct cog, sog, vmg; exact H.
  - destruct a, b, c, d; exact H.
  - destruct id; exact H.
  - by apply route_exact_add.
  - unfold update_route.
    assert (Hp : route_exact (patch set_current_route_id rid self))
      by (destruct rid; exact H).
    destruct wps as [wps|]; [|exact Hp].
    apply (route_exact_insert_all wps). split; [constructor|].
    intros id. simpl. rewrite lookup_empty.
    split; [intros Hx; by apply elem_of_nil in Hx|intros [? Hx]; discriminate Hx].
Qed.

(** X11.  Whatever methods were called on a new store, in whatever order, the
    route summary is coherent: the count of stored waypoints equals the
    length of the sequence, the sequence has no repetition, and
    [get_waypoint_coordinates] returns coordinates, not [None], for every
    id of the sequence and for no other id. *)
Theorem route_summary_coherent (calls : list method_call) :
  let summary := get_route_summary (after_calls calls) in
  rs_total_waypoints summary = length (rs_waypoint_sequence summary) /\
  NoDup (rs_waypoint_sequence summary) /\
  forall id,
    id ∈ rs_waypoint_sequence summary <->
    exists lat lon,
      get_waypoint_coordinates (after_calls calls) id = (Some lat, Some lon).
Proof.
  assert (Hexact : route_exact (after_calls calls)).
  { unfold after_calls. generalize route_exact_init. generalize init.
    induction calls as [|c calls IH]; intros s Hs; [done|].
    simpl. apply IH. by apply route_exact_perform. }
  destruct Hexact as [Hnd Hdom]. simpl. split; [|split; [done|]].
  - rewrite <- size_dom.
    assert (Hset : dom (route_waypoints (after_calls calls)) =
                   list_to_set (waypoint_sequence (after_calls calls))).
    { apply set_eq. intros id.
      rewrite elem_of_dom, elem_of_list_to_set. symmetry. apply Hdom. }
    rewrite Hset. by apply size_list_to_set.
  - intros id. rewrite Hdom. unfold get_waypoint_coordinates.
    destruct (route_waypoints (after_calls calls) !! id) as [wp|]; split.
    + intros _. eauto.
    + intros _. eauto.
    + intros [? H]; discriminate H.
    + intros (? & ? & H). discriminate H.
Qed.

(** X12.  After [add_route_waypoint(id, lat, lon)] the coordinates of [id] are
    the ones just given, whether the id was new or stored before, and
    the coordinates of every other id are what they were. *)
Theorem coordinates_after_add (self : NavigationData) (id : Z) (lat lon : Q)
    (name : option string) :
  let self' := add_route_waypoint self id lat lon name in
  get_waypoint_coordinates self' id = (Some lat, Some lon) /\
  forall j, j <> id ->
    get_waypoint_coordinates self' j = get_waypoint_coordinates self j.
Proof.
  intros self'. subst self'. unfold get_waypoint_coordinates.
  rewrite add_route_waypoint_map. split.
  - by rewrite lookup_insert_eq.
  - intros j Hj. by rewrite lookup_insert_ne.
Qed.

Lemma coordinates_after_add_witness :
  get_waypoint_coordinates
    (add_route_waypoint three_leg_route 12 (7 # 1) (8 # 1) None) 13 =
    (Some (5 # 1)%Q, Some (6 # 1)%Q).
Proof.
  rewrite (proj2 (coordinates_after_add three_leg_route 12 (7 # 1) (8 # 1)
                    None) 13) by lia.
  reflexivity.
Defined.

End Route_replacement.

(* ===================================================================== *)
(** * Course to the next waypoint                                         *)
(* ===================================================================== *)

Section Course_to_next.

Import NavData NavStore.

Variable atan2_degrees : Q -> Q -> Q -> Q -> Q.

Lemma nonzero_true (x : Q) : nonzero x = true <-> ~ (x == 0)%Q.
Proof.
  unfold nonzero. rewrite negb_true_iff, <- not_true_iff_false, Qeq_bool_iff.
  done.
Qed.

(** X13.  [calculate_course_to_next_waypoint] never raises and writes at most
    three attributes.  It changes nothing when the current waypoint id
    has no stored entry, when the destination latitude or longitude is
    0, or when the route has no next waypoint.  Otherwise the course is
    the bearing from the destination to the next waypoint, a value in
    [[0, 360)], the next waypoint text is that waypoint's name, and the
    next waypoint id is set to 0 whatever the id of that waypoint. *)
Theorem course_to_next_waypoint (self : Store) :
  exists self',
    calculate_course_to_next_waypoint atan2_degrees self = Ok self' /\
    nav self' = nav self /\
    set_course_to_next (course_to_next (guide self))
      (set_next_waypoint (next_waypoint (guide self))
         (set_next_waypoint_id (next_waypoint_id (guide self))
            (guide self'))) = guide self /\
    (~ is_Some (route_waypoints (nav self) !! current_waypoint_id (nav self))
     \/ (destination_latitude (guide self) == 0)%Q
     \/ (destination_longitude (guide self) == 0)%Q
     \/ get_next_waypoint_in_route (nav self) = Ok None ->
     self' = self) /\
    (forall wp,
       is_Some (route_waypoints (nav self) !! current_waypoint_id (nav self)) ->
       ~ (destination_latitude (guide self) == 0)%Q ->
       ~ (destination_longitude (guide self) == 0)%Q ->
       get_next_waypoint_in_route (nav self) = Ok (Some wp) ->
       course_to_next (guide self') =
         _calculate_bearing atan2_degrees
           (destination_latitude (guide self))
           (destination_longitude (guide self))
           (wp_latitude wp) (wp_longitude wp) /\
       (0 <= course_to_next (guide self') /\
        course_to_next (guide self') < 360 # 1)%Q /\
       next_waypoint (guide self') = wp_name wp /\
       next_waypoint_id (guide self') = 0).
Proof.
  unfold calculate_course_to_next_waypoint.
  pose proof (get_next_waypoint_total (nav self)) as Htot.
  destruct self as [n g]. simpl in *.
  destruct (get_next_waypoint_in_route n) as [next_wp|e] eqn:Hnext; [|done].
  clear Htot.
  case_bool_decide as Hcur; simpl.
  2: { exists {| nav := n; guide := g |}.
       split; [done|]. split; [done|]. split; [by destruct g|].
       split; [done|]. intros wp H. by destruct Hcur. }
  destruct (nonzero (destination_latitude g)) eqn:Hlat; simpl.
  2: { apply not_true_iff_false in Hlat. rewrite nonzero_true in Hlat.
       exists {| nav := n; guide := g |}.
       split; [done|]. split; [done|]. split; [by destruct g|].
       split; [done|]. intros wp _ H. by destruct Hlat. }
  destruct (nonzero (destination_longitude g)) eqn:Hlon; simpl.
  2: { apply not_true_iff_false in Hlon. rewrite nonzero_true in Hlon.
       exists {| nav := n; guide := g |}.
       split; [done|]. split; [done|]. split; [by destruct g|].
       split; [done|]. intros wp _ _ H. by destruct Hlon. }
  apply nonzero_true in Hlat, Hlon.
  destruct next_wp as [wp|].
  - eexists. split; [reflexivity|]. simpl. split; [done|].
    split; [by destruct g|]. split.
    + intros [H|[H|[H|H]]]; [done|done|done|discriminate H].
    + intros wp' _ _ _ [= <-]. repeat split; try done; apply py_mod_range.
  - exists {| nav := n; guide := g |}.
    split; [done|]. split; [done|]. split; [by destruct g|]. split; [done|].
    intros wp _ _ _ H. discriminate H.
Qed.

End Course_to_next.

Lemma course_to_next_waypoint_witness :
  exists self',
    NavStore.calculate_course_to_next_waypoint
      (fun _ _ _ _ => (-90 # 1)%Q) NavStore.underway = Ok self' /\
    (NavStore.course_to_next (NavStore.guide self') == 270 # 1)%Q /\
    NavStore.next_waypoint (NavStore.guide self') = "WP13" /\
    NavStore.next_waypoint_id (NavStore.guide self') = 0.
Proof.
  destruct (course_to_next_waypoint (fun _ _ _ _ => (-90 # 1)%Q)
              NavStore.underway) as (self' & Hrun & _ & _ & _ & Hfire).
  exists self'. split; [exact Hrun|].
  destruct (Hfire {| NavData.wp_latitude := 5 # 1;
                     NavData.wp_longitude := 6 # 1;
                     NavData.wp_name := "WP13" |})
    as (Hc & _ & Hn & Hi).
  - vm_compute. eauto.
  - intros H. vm_compute in H. discriminate H.
  - intros H. vm_compute in H. discriminate H.
  - reflexivity.
  - split; [rewrite Hc; reflexivity|]. split; [exact Hn|exact Hi].
Defined.

(* ===================================================================== *)
(** * More on the aggregator                                              *)
(* ===================================================================== *)

Section Aggregator_trimming.

(** The trimming loop, unfolded once. *)
Lemma trim_loop_step (cutoff : Z) (d : gmap string (list Averager.item)) :
  Averager.cleanup_loop cutoff d =
    match Averager.deque d "timestamps" with
    | [] => Ok d
    | x :: _ =>
        b ← Averager.lt_datetime x cutoff;
        if b : bool then Averager.cleanup_loop cutoff (Averager.popleft_all d)
        else Ok d
    end.
Proof. exact (cleanup_loop_unfold cutoff d). Qed.

Import Averager.

(** ** Lockstep trimming *)

Lemma cleanup_loop_lockstep (cutoff : Z) (d d' : gmap string (list item)) :
  cleanup_loop cutoff d = Ok d' ->
  exists n,
    d' = drop n <$> d /\
    (n <= length (deque d "timestamps"))%nat /\
    Forall (expired cutoff) (take n (deque d "timestamps")) /\
    match deque d' "timestamps" with
    | [] => True
    | x :: _ => exists t, x = Stamp t /\ cutoff <= t
    end.
Proof.
  remember (length (deque d "timestamps")) as len eqn:Hlen.
  revert d Hlen. induction len as [|len IH]; intros d Hlen Hloop;
    rewrite trim_loop_step in Hloop.
  - destruct (deque d "timestamps") eqn:Hts; [|discriminate Hlen].
    injection Hloop as <-. exists 0%nat. rewrite Hts.
    split; [|by repeat split].
    apply map_eq. intros key. rewrite lookup_fmap.
    by destruct (d !! key).
  - destruct (deque d "timestamps") as [|x ts] eqn:Hts; [discriminate Hlen|].
    destruct x as [v|t]; simpl in Hloop; [discriminate Hloop|].
    case_bool_decide as Hold.
    + assert (Hpop : deque (popleft_all d) "timestamps" = ts).
      { unfold deque in *. rewrite popleft_all_lookup.
        destruct (d !! "timestamps") as [l|]; simpl in *; [|discriminate Hts].
        by subst l. }
      destruct (IH (popleft_all d)) with (2 := Hloop)
        as (n & Hd' & Hn & Hexp & Hhead).
      { rewrite Hpop. simpl in Hlen. lia. }
      exists (S n). rewrite Hpop in Hexp.
      split; [|split; [simpl; lia|split; [|exact Hhead]]].
      * rewrite Hd', popleft_all_fmap, <- map_fmap_compose.
        apply map_eq. intros key. rewrite !lookup_fmap.
        destruct (d !! key) as [dq|]; simpl; [|done].
        f_equal. destruct dq; simpl; [by rewrite drop_nil|done].
      * simpl. constructor; [exact Hold|exact Hexp].
    + injection Hloop as <-. exists 0%nat. rewrite Hts.
      split; [|split; [simpl; lia|split; [constructor|]]].
      * apply map_eq. intros key. rewrite lookup_fmap.
        by destruct (d !! key).
      * exists t. split; [done|lia].
Qed.

Lemma trim_drops_prefix (self self' : DataAverager) (now : Z) :
  _cleanup_old_data self now = Ok self' ->
  exists n, data self' = drop n <$> data self.
Proof.
  unfold _cleanup_old_data.
  destruct (cleanup_loop _ _) as [d'|e] eqn:Hloop; simpl; [|discriminate].
  intros [= <-]. simpl.
  destruct (cleanup_loop_lockstep _ _ _ Hloop) as (n & Hd' & _).
  by exists n.
Qed.

(** X14.  A trim that returns removes, for some number n, the n oldest
    entries of the timestamp deque, all of them older than the cutoff,
    and with them the n oldest samples of every channel (all samples of
    a channel that holds fewer); the oldest timestamp left, if any, is
    not older than the cutoff.  The window is unchanged. *)
Theorem trim_is_lockstep (self self' : DataAverager) (now : Z) :
  _cleanup_old_data self now = Ok self' ->
  window self' = window self /\
  exists n,
    data self' = drop n <$> data self /\
    (forall key dq, data self !! key = Some dq ->
                    data self' !! key = Some (drop n dq)) /\
    (n <= get_data_count self)%nat /\
    get_data_count self' = (get_data_count self - n)%nat /\
    Forall (expired (now - window self))
      (take n (deque (data self) "timestamps")) /\
    match deque (data self') "timestamps" with
    | [] => True
    | x :: _ => exists t, x = Stamp t /\ now - window self <= t
    end.
Proof.
  unfold _cleanup_old_data.
  destruct (cleanup_loop _ _) as [d'|e] eqn:Hloop; simpl; [|discriminate].
  intros [= <-]. simpl. split; [done|].
  destruct (cleanup_loop_lockstep _ _ _ Hloop) as (n & Hd' & Hn & Hexp & Hhead).
  exists n. split; [done|]. split.
  { intros key dq Hk. by rewrite Hd', lookup_fmap, Hk. }
  split; [done|]. split; [|by split].
  unfold get_data_count, deque. subst d'. simpl. rewrite lookup_fmap.
  destruct (data self !! "timestamps"); simpl; [apply length_drop|done].
Qed.

Lemma trim_is_lockstep_witness :
  get_data_count
    {| window := 5; data := drop 1 <$> data two_samples |} = 1%nat /\
  data {| window := 5; data := drop 1 <$> data two_samples |} !! "cog" =
    Some [Num (2 # 1)].
Proof.
  destruct (trim_is_lockstep two_samples
              {| window := 5; data := drop 1 <$> data two_samples |} 12)
    as (_ & n & _ & Hk & _ & Hcount & _).
  - vm_compute. reflexivity.
  - split; [reflexivity|]. reflexivity.
Defined.

(** ** The timestamp deque counts the appends of all channels *)

Lemma has_key_channel (d : gmap string (list item)) (C : string) :
  has_keys d -> C ∈ channels -> is_Some (d !! C).
Proof.
  intros Hd HC. apply Hd. destruct (channel_is_key C HC) as [_ ->]. by eexists.
Qed.

Lemma stamps_cleanup (cutoff : Z) (calls : list append) :
  forall d,
    deque d "timestamps" = (fun a => Stamp (ap_stamp a)) <$> calls ->
    exists d',
      cleanup_loop cutoff d = Ok d' /\
      deque d' "timestamps" =
        (fun a => Stamp (ap_stamp a)) <$> drop_old cutoff calls.
Proof.
  induction calls as [|a calls IH]; intros d Hts; rewrite trim_loop_step, Hts.
  - exists d. by split.
  - simpl. case_bool_decide as Hold; simpl.
    + apply IH. unfold deque in *. rewrite popleft_all_lookup.
      destruct (d !! "timestamps") as [l|]; simpl in *; [|discriminate Hts].
      by subst l.
    + exists d. by split.
Qed.

Lemma add_data_window self data_type value timestamp now0 now1 self' :
  add_data self data_type value timestamp now0 now1 = Ok self' ->
  window self' = window self.
Proof.
  unfold add_data. destruct (data self !! data_type); [|by intros [= <-]].
  unfold _cleanup_old_data. destruct (cleanup_loop _ _); simpl; [|discriminate].
  by intros [= <-].
Qed.

Lemma run_window self calls self' :
  run self calls = Ok self' -> window self' = window self.
Proof.
  revert self. induction calls as [|a calls IH]; intros self; simpl.
  - by intros [= <-].
  - destruct (add_data _ _ _ _ _ _) as [s1|e] eqn:Ha; simpl; [|discriminate].
    intros H. rewrite (IH _ H). by eapply add_data_window.
Qed.

Lemma add_data_stamps self (a : append) (calls : list append) :
  has_keys (data self) ->
  ap_data_type a ∈ channels ->
  deque (data self) "timestamps" = (fun a => Stamp (ap_stamp a)) <$> calls ->
  exists self',
    add_data self (ap_data_type a) (ap_value a) (ap_timestamp a)
      (ap_now0 a) (ap_now1 a) = Ok self' /\
    deque (data self') "timestamps" =
      (fun a => Stamp (ap_stamp a)) <$>
        drop_old (ap_now1 a - window self) (calls ++ [a]).
Proof.
  intros Hk HC Hts.
  destruct (has_key_channel _ _ Hk HC) as [dq Hdq].
  destruct (channel_is_key _ HC) as [Hne _].
  unfold add_data. rewrite Hdq. unfold _cleanup_old_data. simpl window.
  match goal with |- context [cleanup_loop ?c ?d] =>
    destruct (stamps_cleanup c (calls ++ [a]) d) as (d' & -> & Hd')
  end.
  - unfold deque in *. simpl. rewrite lookup_insert_eq. simpl.
    rewrite lookup_insert_ne by done. rewrite Hts.
    rewrite fmap_app. simpl. reflexivity.
  - simpl. eexists. split; [reflexivity|]. exact Hd'.
Qed.

(** X15.  After appends to any of the eight channels, in arrival order, the
    timestamp deque holds one entry per append stamped within the window
    of the last trim, whichever channel it went to: [get_data_count]
    counts the appends of all channels together. *)
Theorem data_count_all_channels (window_minutes : Z) (calls : list append) :
  Forall (fun a => ap_data_type a ∈ channels) calls ->
  StronglySorted in_order calls ->
  let recent :=
    stamped_since (last_trim calls - timedelta_minutes window_minutes) calls in
  exists self,
    run (init window_minutes) calls = Ok self /\
    deque (data self) "timestamps" =
      (fun a => Stamp (ap_stamp a)) <$> recent /\
    get_data_count self = length recent.
Proof.
  intros Hall Hs recent. subst recent.
  set (w := timedelta_minutes window_minutes).
  assert (H : exists self,
             run (init window_minutes) calls = Ok self /\
             deque (data self) "timestamps" =
               (fun a => Stamp (ap_stamp a)) <$>
                 stamped_since (last_trim calls - w) calls).
  { induction calls as [|a calls IH] using rev_ind.
    - exists (init window_minutes). by split.
    - apply Forall_app in Hall as [Hall Ha]. rewrite Forall_singleton in Ha.
      destruct (IH Hall (StronglySorted_app_1_l _ _ _ Hs)) as (s1 & Hr1 & Hts1).
      assert (Hk1 : has_keys (data s1)).
      { eapply run_keys; [|exact Hr1]. intros key. reflexivity. }
      destruct (add_data_stamps s1 a _ Hk1 Ha Hts1) as (s2 & Ha2 & Hts2).
      exists s2. split.
      + rewrite run_app, Hr1. simpl. by rewrite Ha2.
      + rewrite Hts2. f_equal. rewrite (run_window _ _ _ Hr1). simpl.
        fold w. unfold last_trim. rewrite last_snoc. simpl.
        destruct (last calls) as [b|] eqn:Hlast; simpl.
        * apply drop_old_stamped; [|done].
          assert (Hb : b ∈ calls).
          { apply last_Some in Hlast as [l' ->]. apply elem_of_app.
            right. left. }
          destruct (StronglySorted_app_1_elem_of _ _ _ b a Hs Hb) as [_ Hn];
            [left|]. lia.
        * apply last_None in Hlast. subst calls. simpl.
          apply (drop_old_sorted _ [a]). repeat constructor. }
  destruct H as (self & Hrun & Hts). exists self.
  split; [done|]. split; [done|].
  unfold get_data_count. by rewrite Hts, length_fmap.
Qed.

Lemma data_count_all_channels_witness :
  exists self,
    run (init 5) mixed_log = Ok self /\ get_data_count self = 2%nat.
Proof.
  assert (Hall : Forall (fun a => ap_data_type a ∈ channels) mixed_log).
  { unfold mixed_log, call_at, channels.
    repeat constructor; simpl; rewrite !elem_of_cons; tauto. }
  assert (Hs : StronglySorted in_order mixed_log)
    by (unfold mixed_log, call_at;
        repeat (constructor; unfold in_order, ap_stamp; simpl; try lia)).
  destruct (data_count_all_channels 5 mixed_log Hall Hs)
    as (self & Hrun & _ & Hcount).
  exists self. split; [exact Hrun|]. rewrite Hcount. reflexivity.
Defined.

(** ** Clearing *)

Lemma empty_data_lookup (key : string) (dq : list item) :
  empty_data !! key = Some dq -> dq = [].
Proof.
  unfold empty_data. intros H. apply elem_of_list_to_map_2 in H.
  repeat (apply elem_of_cons in H as [[= _ ->]|H]; [done|]).
  by apply elem_of_nil in H.
Qed.

Lemma is_key_iff (key : string) :
  is_Some (empty_data !! key) <-> key ∈ channels \/ key = "timestamps".
Proof.
  split.
  - intros [dq H].
    destruct (decide (key = "timestamps")) as [|Hne]; [by right|left].
    destruct (decide (key ∈ channels)) as [|Hc]; [done|].
    rewrite (not_a_key key Hc Hne) in H. discriminate H.
  - intros [HC| ->]; [|by eexists].
    destruct (channel_is_key key HC) as [_ ->]. by eexists.
Qed.

(** X16.  In every state the aggregator reaches, [clear_all_data] gives back
    the aggregator as [__init__] built it, with the same window: every
    deque is there and empty, so the count is 0, every average is 0 and
    every wind shift is 0. *)
Theorem clear_all_data_resets (window_minutes : Z) (calls : list append)
    (self : DataAverager) :
  run (init window_minutes) calls = Ok self ->
  clear_all_data self = init window_minutes /\
  get_data_count (clear_all_data self) = 0%nat /\
  (forall key, get_average (clear_all_data self) key = Ok 0%Q) /\
  (forall minutes now,
     get_wind_shift (clear_all_data self) minutes now = Ok 0%Q).
Proof.
  intros Hrun.
  assert (Hk : has_keys (data self)).
  { eapply run_keys; [|exact Hrun]. intros key. reflexivity. }
  assert (Hclear : clear_all_data self = init window_minutes).
  { unfold clear_all_data, init. rewrite (run_window _ _ _ Hrun). simpl.
    f_equal. apply map_eq. intros key. rewrite lookup_fmap.
    specialize (Hk key). rewrite !is_Some_alt in Hk.
    destruct (data self !! key) as [dq|], (empty_data !! key) as [dq0|] eqn:He;
      simpl; try done; try tauto.
    by rewrite (empty_data_lookup key dq0 He). }
  rewrite Hclear. split; [done|]. split; [reflexivity|]. split.
  - intros key. unfold get_average, init. simpl.
    destruct (empty_data !! key) as [dq|] eqn:He; [|done].
    by rewrite (empty_data_lookup key dq He).
  - intros minutes now. reflexivity.
Qed.

Lemma clear_all_data_resets_witness :
  exists self,
    run (init 5) mixed_log = Ok self /\ clear_all_data self = init 5.
Proof.
  destruct (run (init 5) mixed_log) as [self|e] eqn:Hrun;
    [|vm_compute in Hrun; discriminate Hrun].
  exists self. split; [reflexivity|].
  by apply (clear_all_data_resets 5 mixed_log self).
Defined.

(** ** All averages at once *)

Lemma numeric_empty : numeric_channels empty_data.
Proof.
  intros key dq _ H. by rewrite (empty_data_lookup key dq H).
Qed.

Lemma add_data_numeric self data_type value timestamp now0 now1 self' :
  numeric_channels (data self) ->
  add_data self data_type value timestamp now0 now1 = Ok self' ->
  numeric_channels (data self').
Proof.
  intros Hnum. unfold add_data.
  destruct (data self !! data_type) as [dq|] eqn:Hdt; [|by intros [= <-]].
  intros Hclean. apply trim_drops_prefix in Hclean as (n & Hd').
  simpl in Hd'. intros key dq' Hne. rewrite Hd', lookup_fmap.
  rewrite lookup_insert_ne by done. rewrite lookup_insert.
  case_decide as Hk.
  - subst key. simpl. intros [= <-]. apply Forall_drop.
    apply Forall_app. split; [by eapply Hnum|]. by repeat constructor.
  - destruct (data self !! key) as [dq0|] eqn:H0; simpl; [|discriminate].
    intros [= <-]. apply Forall_drop. by eapply Hnum.
Qed.

Lemma run_numeric self calls self' :
  numeric_channels (data self) -> run self calls = Ok self' ->
  numeric_channels (data self').
Proof.
  revert self. induction calls as [|a calls IH]; intros self Hnum; simpl.
  - by intros [= <-].
  - destruct (add_data _ _ _ _ _ _) as [s1|e] eqn:Ha; simpl; [|discriminate].
    apply IH. by eapply add_data_numeric.
Qed.

Lemma py_sum_numeric (dq : list item) :
  Forall is_num dq -> forall acc, exists s, py_sum acc dq = Ok s.
Proof.
  induction 1 as [|x dq Hx _ IH]; intros acc; simpl; [by eexists|].
  destruct x as [v|t]; [apply IH|done].
Qed.

Lemma get_average_numeric self key :
  key <> "timestamps" -> numeric_channels (data self) ->
  exists avg, get_average self key = Ok avg.
Proof.
  intros Hne Hnum. unfold get_average.
  destruct (data self !! key) as [[|x dq]|] eqn:Hk; [by eexists| |by eexists].
  destruct (py_sum_numeric (x :: dq) (Hnum key _ Hne Hk) 0%Q) as [s ->].
  simpl. by eexists.
Qed.

Lemma averages_of_spec self (keys : list string) :
  numeric_channels (data self) ->
  exists m,
    averages_of self keys = Ok m /\
    forall key avg,
      m !! key = Some avg <->
      key ∈ keys /\ key <> "timestamps" /\ get_average self key = Ok avg.
Proof.
  intros Hnum. induction keys as [|k keys (m & Hm & Hspec)]; simpl.
  - exists ∅. split; [done|]. intros key avg. rewrite lookup_empty.
    split; [discriminate|]. intros [H _]. by apply elem_of_nil in H.
  - case_bool_decide as Hk.
    + destruct (get_average_numeric self k Hk Hnum) as [a Ha].
      rewrite Ha, Hm. simpl. eexists. split; [reflexivity|].
      intros key avg. rewrite lookup_insert_Some, Hspec, elem_of_cons.
      split.
      * intros [[<- <-]|(Hne & Hin & Ht & Hg)]; [by auto|by auto].
      * intros ([->|Hin] & Ht & Hg).
        -- left. split; [done|congruence].
        -- destruct (decide (k = key)) as [<-|Hne].
           ++ left. split; [done|congruence].
           ++ right. by auto.
    + exists m. split; [done|]. intros key avg.
      rewrite Hspec, elem_of_cons. split; [tauto|].
      intros ([->|Hin] & Ht & Hg); [|done].
      exfalso. by apply Ht.
Qed.

(** X17.  In every state the aggregator reaches, whatever names were passed to
    [add_data], [get_all_averages] returns a dictionary, with exactly
    the eight channels as keys and, for each, the value [get_average]
    returns for it. *)
Theorem get_all_averages_total (window_minutes : Z) (calls : list append)
    (self : DataAverager) :
  run (init window_minutes) calls = Ok self ->
  exists m,
    get_all_averages self = Ok m /\
    (forall key, is_Some (m !! key) <-> key ∈ channels) /\
    (forall key avg,
       m !! key = Some avg <->
       key ∈ channels /\ get_average self key = Ok avg).
Proof.
  intros Hrun.
  assert (Hk : has_keys (data self)).
  { eapply run_keys; [|exact Hrun]. intros key. reflexivity. }
  assert (Hnum : numeric_channels (data self)).
  { eapply run_numeric; [|exact Hrun]. apply numeric_empty. }
  destruct (averages_of_spec self (map_to_list (data self)).*1 Hnum)
    as (m & Hm & Hspec).
  assert (Hkeys : forall key,
            key ∈ (map_to_list (data self)).*1 /\ key <> "timestamps" <->
            key ∈ channels).
  { intros key. rewrite list_elem_of_fmap. split.
    - intros [([k v] & -> & Hin) Hne]. simpl in *.
      apply elem_of_map_to_list in Hin.
      assert (Hs : is_Some (empty_data !! k)) by (apply Hk; by eexists).
      apply is_key_iff in Hs as [|]; done.
    - intros HC. destruct (channel_is_key key HC) as [Hne _].
      split; [|done].
      destruct (has_key_channel _ _ Hk HC) as [dq Hdq].
      exists (key, dq). split; [done|]. by apply elem_of_map_to_list. }
  assert (Hiff : forall key avg,
            m !! key = Some avg <->
            key ∈ channels /\ get_average self key = Ok avg).
  { intros key avg. rewrite Hspec, <- Hkeys. tauto. }
  exists m. split; [exact Hm|]. split; [|exact Hiff].
  intros key. split.
  - intros [avg Ha]. by apply Hiff in Ha as [? _].
  - intros HC. destruct (channel_is_key key HC) as [Hne _].
    destruct (get_average_numeric self key Hne Hnum) as [avg Ha].
    exists avg. by apply Hiff.
Qed.

Lemma get_all_averages_total_witness :
  exists self m,
    run (init 5) [call_at "cog" (1 # 1) 0;
                  call_at "timestamps" (2 # 1) 1000000] = Ok self /\
    get_all_averages self = Ok m /\
    is_Some (m !! "cog") /\ m !! "timestamps" = None.
Proof.
  destruct (run (init 5) [call_at "cog" (1 # 1) 0;
                          call_at "timestamps" (2 # 1) 1000000])
    as [self|e] eqn:Hrun; [|vm_compute in Hrun; discriminate Hrun].
  destruct (get_all_averages_total 5 _ self Hrun) as (m & Hm & Hdom & _).
  exists self, m. split; [reflexivity|]. split; [exact Hm|]. split.
  - apply Hdom. unfold channels. rewrite !elem_of_cons. tauto.
  - apply eq_None_not_Some. rewrite Hdom. unfold channels.
    rewrite !not_elem_of_cons. repeat split; try discriminate.
    apply not_elem_of_nil.
Defined.

(** ** Wind shift: symmetry *)

(** X18.  The normalisation at the end of [get_wind_shift] changes the
    difference by a whole turn at most, and it is odd: exchanging the
    oldest and the newest sample turns the shift into its opposite. *)
Theorem wind_shift_symmetry (oldest newest : Q) :
  (normalize_shift (oldest - newest) == - normalize_shift (newest - oldest))%Q /\
  ((normalize_shift (newest - oldest) == newest - oldest)%Q \/
   (normalize_shift (newest - oldest) == newest - oldest - (360 # 1))%Q \/
   (normalize_shift (newest - oldest) == newest - oldest + (360 # 1))%Q).
Proof.
  destruct (normalize_shift_cases (newest - oldest)) as (Hhi & Hlo & Hmid).
  destruct (normalize_shift_cases (oldest - newest)) as (Hhi' & Hlo' & Hmid').
  destruct (Qlt_le_dec (180 # 1) (newest - oldest)) as [H1|H1].
  - rewrite (Hhi H1), Hlo' by lra. split; [ring|]. right. left. reflexivity.
  - destruct (Qlt_le_dec (newest - oldest) (-180 # 1)) as [H2|H2].
    + rewrite (Hlo H2), Hhi' by lra. split; [ring|]. right. right. reflexivity.
    + rewrite (Hmid (conj H2 H1)), Hmid' by lra.
      split; [ring|]. left. reflexivity.
Qed.

(** ** Averages keep the sign of the samples *)

Lemma py_sum_nums (vs : list Q) (acc : Q) :
  py_sum acc (Num <$> vs) = Ok (fold_left Qplus vs acc).
Proof.
  revert acc. induction vs as [|v vs IH]; intros acc; simpl; [done|]. apply IH.
Qed.

Lemma fold_left_grows (vs : list Q) :
  Forall (fun v => (0 <= v)%Q) vs ->
  forall acc, (acc <= fold_left Qplus vs acc)%Q.
Proof.
  induction 1 as [|v vs Hv _ IH]; intros acc; simpl; [apply Qle_refl|].
  apply Qle_trans with (acc + v)%Q; [lra|apply IH].
Qed.

Lemma fold_left_shrinks (vs : list Q) :
  Forall (fun v => (v <= 0)%Q) vs ->
  forall acc, (fold_left Qplus vs acc <= acc)%Q.
Proof.
  induction 1 as [|v vs Hv _ IH]; intros acc; simpl; [apply Qle_refl|].
  apply Qle_trans with (acc + v)%Q; [apply IH|lra].
Qed.

(** X19.  [get_average] returns a number for a channel that holds
    numbers, and the average keeps the sign of the retained samples:
    it is not negative when none of them is, so a speed never averages
    to a negative value, and it is not positive when none of them is.
    For an empty channel it is 0. *)
Theorem average_keeps_sign (self : DataAverager) (key : string)
    (vs : list Q) :
  data self !! key = Some (Num <$> vs) ->
  exists avg,
    get_average self key = Ok avg /\
    (Forall (fun v => (0 <= v)%Q) vs -> (0 <= avg)%Q) /\
    (Forall (fun v => (v <= 0)%Q) vs -> (avg <= 0)%Q) /\
    (vs = [] -> avg = 0%Q).
Proof.
  intros Hk. unfold get_average. rewrite Hk.
  destruct vs as [|v vs].
  { exists 0%Q. repeat split; intros _; apply Qle_refl. }
  change (Num <$> v :: vs) with (Num v :: (Num <$> vs)). cbv beta iota.
  change (Num v :: (Num <$> vs)) with (Num <$> v :: vs).
  rewrite py_sum_nums. simpl mbind. cbv beta iota.
  eexists. split; [reflexivity|].
  rewrite length_fmap.
  set (n := inject_Z (Z.of_nat (length (v :: vs)))) in *.
  assert (Hn : (0 < n)%Q).
  { subst n. change 0%Q with (inject_Z 0). rewrite <- Zlt_Qlt. simpl. lia. }
  split; [|split; [|discriminate]].
  - intros Hall. pose proof (fold_left_grows (v :: vs) Hall 0%Q) as Hs.
    apply Qle_shift_div_l; [exact Hn|].
    change (0 * n <= fold_left Qplus (v :: vs) 0)%Q. clearbody n. lra.
  - intros Hall. pose proof (fold_left_shrinks (v :: vs) Hall 0%Q) as Hs.
    apply Qle_shift_div_r; [exact Hn|].
    change (fold_left Qplus (v :: vs) 0 <= 0 * n)%Q. clearbody n. lra.
Qed.

Lemma average_keeps_sign_witness :
  exists avg,
    get_average two_samples "cog" = Ok avg /\ (0 <= avg)%Q.
Proof.
  destruct (average_keeps_sign two_samples "cog" [(1 # 1)%Q; (2 # 1)%Q])
    as (avg & Havg & Hpos & _); [reflexivity|].
  exists avg. split; [exact Havg|].
  apply Hpos. repeat constructor; simpl; lra.
Defined.

End Aggregator_trimming.

(* ===================================================================== *)
(** * Properties of the receive loop (tcp_client.py)                      *)
(* ===================================================================== *)

Lemma drain_step (clock : nat -> Z) (self : Transport.Client)
    (buffer : list byte) :
  Transport.drain clock self buffer =
    match Transport.split_newline buffer with
    | None => (self, buffer)
    | Some (line, rest) =>
        Transport.drain clock
          (match line with
           | [] => self
           | _ :: _ =>
               Transport._process_message self line
                 (clock (Transport.message_count self))
           end) rest
    end.
Proof.
  funelim (Transport.drain clock self buffer); clear Heqcall;
    repeat match goal with
    | H : Transport.split_newline _ = _ |- _ => progress (rewrite H)
    end; done.
Qed.

Section Stream_framing.

Import Transport.

Variable clock : nat -> Z.

Lemma split_newline_shorter (buffer line rest : list byte) :
  split_newline buffer = Some (line, rest) ->
  (length rest < length buffer)%nat.
Proof.
  revert line rest.
  induction buffer as [|b buffer IH]; intros line rest H; simpl in H;
    [discriminate H|].
  case_bool_decide.
  - injection H as <- <-. simpl. lia.
  - destruct (split_newline buffer) as [[l r]|]; [|discriminate H].
    injection H as <- <-. specialize (IH l r eq_refl). simpl. lia.
Qed.

(** The first cut of the code and the first cut of the stream agree. *)
Lemma lines_from_split (buffer current : list byte) :
  match split_newline buffer with
  | Some (line, rest) =>
      lines_from current buffer =
        ((current ++ line) :: (lines_from [] rest).1, (lines_from [] rest).2)
  | None => lines_from current buffer = ([], current ++ buffer)
  end.
Proof.
  revert current.
  induction buffer as [|b buffer IH]; intros current; simpl.
  - by rewrite app_nil_r.
  - case_bool_decide.
    + rewrite app_nil_r. by destruct (lines_from [] buffer).
    + specialize (IH (current ++ [b])).
      destruct (split_newline buffer) as [[line rest]|];
        rewrite IH, <- app_assoc; done.
Qed.

Lemma records_of_split (buffer : list byte) :
  match split_newline buffer with
  | Some (line, rest) =>
      records_of buffer =
        match line with
        | [] => records_of rest
        | _ :: _ => line :: records_of rest
        end
      /\ unterminated buffer = unterminated rest
  | None => records_of buffer = [] /\ unterminated buffer = buffer
  end.
Proof.
  unfold records_of, unterminated.
  pose proof (lines_from_split buffer []) as H.
  destruct (split_newline buffer) as [[line rest]|]; rewrite H; simpl.
  - split; [|done]. destruct line as [|b line].
    + by rewrite filter_cons_False by (intros Hn; by apply Hn).
    + by rewrite filter_cons_True.
  - done.
Qed.

(** The inner loop hands over the non-empty lines of the buffer and
    keeps its unterminated rest. *)
Lemma drain_records (self : Client) (buffer : list byte) :
  drain clock self buffer =
    (process_all clock self (records_of buffer), unterminated buffer).
Proof.
  remember (length buffer) as n eqn:Hn.
  revert self buffer Hn.
  induction (lt_wf n) as [n _ IH]; intros self buffer ->.
  rewrite drain_step.
  pose proof (records_of_split buffer) as Hs.
  pose proof (split_newline_shorter buffer) as Hl.
  destruct (split_newline buffer) as [[line rest]|].
  - destruct Hs as [-> ->].
    rewrite (IH (length rest) (Hl _ _ eq_refl) _ rest eq_refl).
    by destruct line.
  - by destruct Hs as [-> ->].
Qed.

Lemma lines_from_no_newline (current x stream : list byte) :
  newline ∉ x ->
  lines_from current (x ++ stream) = lines_from (current ++ x) stream.
Proof.
  revert current.
  induction x as [|b x IH]; intros current Hx; simpl.
  - by rewrite app_nil_r.
  - apply not_elem_of_cons in Hx as [Hb Hx].
    rewrite bool_decide_false by congruence.
    rewrite IH by done. by rewrite <- app_assoc.
Qed.

Lemma lines_from_app (current s1 s2 : list byte) :
  lines_from current (s1 ++ s2) =
    ((lines_from current s1).1 ++
       (lines_from (lines_from current s1).2 s2).1,
     (lines_from (lines_from current s1).2 s2).2).
Proof.
  revert current.
  induction s1 as [|b s1 IH]; intros current; simpl.
  - by destruct (lines_from current s2).
  - case_bool_decide.
    + rewrite (IH []).
      destruct (lines_from [] s1) as [l1 t1]; simpl.
      by destruct (lines_from t1 s2).
    + apply IH.
Qed.

Lemma lines_from_rest (current stream : list byte) :
  newline ∉ current -> newline ∉ (lines_from current stream).2.
Proof.
  revert current.
  induction stream as [|b stream IH]; intros current Hc; simpl; [done|].
  case_bool_decide as Hb.
  - specialize (IH [] (not_elem_of_nil _)).
    by destruct (lines_from [] stream).
  - apply IH. rewrite elem_of_app, list_elem_of_singleton.
    intros [?|?]; [done|]. by apply Hb.
Qed.

Lemma lines_from_lines (current stream : list byte) :
  newline ∉ current ->
  Forall (fun line => newline ∉ line) (lines_from current stream).1.
Proof.
  revert current.
  induction stream as [|b stream IH]; intros current Hc; simpl;
    [by constructor|].
  case_bool_decide as Hb.
  - specialize (IH [] (not_elem_of_nil _)).
    destruct (lines_from [] stream). simpl in *. by constructor.
  - apply IH. rewrite elem_of_app, list_elem_of_singleton.
    intros [?|?]; [done|]. by apply Hb.
Qed.

Lemma unterminated_no_newline (stream : list byte) :
  newline ∉ unterminated stream.
Proof. apply lines_from_rest, not_elem_of_nil. Qed.

(** Cutting a stream in two reads and carrying the rest over gives the
    records of the whole stream. *)
Lemma records_of_app (s1 s2 : list byte) :
  records_of (s1 ++ s2) = records_of s1 ++ records_of (unterminated s1 ++ s2)
  /\ unterminated (s1 ++ s2) = unterminated (unterminated s1 ++ s2).
Proof.
  unfold records_of, unterminated.
  rewrite (lines_from_app [] s1 s2); simpl.
  rewrite (lines_from_no_newline [] (lines_from [] s1).2 s2)
    by apply unterminated_no_newline.
  simpl. by rewrite filter_app.
Qed.

Lemma process_all_app (self : Client) (r1 r2 : list (list byte)) :
  process_all clock self (r1 ++ r2) =
    process_all clock (process_all clock self r1) r2.
Proof.
  revert self. induction r1 as [|r r1 IH]; intros self; simpl; [done|].
  apply IH.
Qed.

Lemma process_all_with_status (self : Client) (records : list (list byte))
    (texts : list string) :
  process_all clock (with_status self texts) records =
    with_status (process_all clock self records) texts.
Proof.
  revert self. induction records as [|r records IH]; intros self; simpl;
    [done|].
  rewrite <- IH. done.
Qed.

Lemma with_status_nil (self : Client) : with_status self [] = self.
Proof. destruct self. unfold with_status; simpl. by rewrite app_nil_r. Qed.

Lemma stream_unterminated (buffer : list byte) :
  newline ∉ buffer ->
  records_of buffer = [] /\ unterminated buffer = buffer.
Proof.
  intros Hb. unfold records_of, unterminated.
  rewrite <- (app_nil_r buffer), lines_from_no_newline by done.
  simpl. by rewrite app_nil_r.
Qed.

(** The outer loop: the records of the bytes carried over followed by
    the bytes read, and the rest of that stream. *)
Lemma receive_loop_records (self : Client) (buffer : list byte)
    (outcomes : list recv_outcome) :
  newline ∉ buffer ->
  receive_loop clock self buffer outcomes =
    (with_status
       (process_all clock self (records_of (buffer ++ stream_of outcomes)))
       (failure_status outcomes),
     unterminated (buffer ++ stream_of outcomes)).
Proof.
  revert self buffer.
  induction outcomes as [|o outcomes IH]; intros self buffer Hb.
  - simpl. rewrite app_nil_r.
    destruct (stream_unterminated buffer Hb) as [-> ->].
    simpl. by rewrite with_status_nil.
  - destruct o as [data| |e c].
    + destruct data as [|b data].
      * simpl. rewrite app_nil_r.
        destruct (stream_unterminated buffer Hb) as [-> ->].
        simpl. by rewrite with_status_nil.
      * cbn [receive_loop stream_of failure_status].
        rewrite drain_records.
        rewrite IH by apply unterminated_no_newline.
        rewrite (app_assoc buffer).
        destruct (records_of_app (buffer ++ b :: data) (stream_of outcomes))
          as [-> ->].
        by rewrite process_all_app.
    + simpl. by apply IH.
    + simpl. rewrite app_nil_r.
      destruct (stream_unterminated buffer Hb) as [-> ->].
      destruct c; simpl; [done|]. by rewrite with_status_nil.
Qed.

Lemma process_all_delivered (self : Client) (records : list (list byte)) :
  delivered (process_all clock self records) = delivered self ++ records.
Proof.
  revert self. induction records as [|r records IH]; intros self; simpl.
  - by rewrite app_nil_r.
  - rewrite IH. simpl. by rewrite <- app_assoc.
Qed.

Lemma process_all_count (self : Client) (records : list (list byte)) :
  message_count (process_all clock self records) =
    (message_count self + length records)%nat.
Proof.
  revert self. induction records as [|r records IH]; intros self; simpl.
  - lia.
  - rewrite IH. simpl. lia.
Qed.

Lemma process_all_log (self : Client) (records : list (list byte)) :
  log_file (process_all clock self records) =
    (fun lines => lines ++ log_lines clock (message_count self) records)
      <$> log_file self.
Proof.
  revert self. induction records as [|r records IH]; intros self.
  - simpl. destruct (log_file self); simpl; [|done].
    by rewrite app_nil_r.
  - cbn [process_all]. rewrite IH. simpl.
    destruct (log_file self) as [lines|]; simpl; [|done].
    rewrite <- app_assoc. f_equal. f_equal. simpl.
    unfold log_lines. cbn [imap]. rewrite Nat.add_0_r. f_equal.
    apply imap_ext. intros i x _. simpl.
    f_equal. f_equal. lia.
Qed.

Lemma receive_data_records (self : Client) (outcomes : list recv_outcome) :
  _receive_data clock self outcomes =
    (with_status
       {| connected := false;
          message_count := (message_count self
                            + length (records_of (stream_of outcomes)))%nat;
          log_file :=
            (fun lines =>
               lines ++ log_lines clock (message_count self)
                          (records_of (stream_of outcomes)))
              <$> log_file self;
          delivered := delivered self ++ records_of (stream_of outcomes);
          status := status self |}
       (failure_status outcomes ++ ["Connection lost"]),
     unterminated (stream_of outcomes)).
Proof.
  unfold _receive_data.
  rewrite receive_loop_records by apply not_elem_of_nil.
  simpl. unfold with_status; simpl.
  rewrite process_all_count, process_all_log, process_all_delivered.
  f_equal. f_equal. 
  assert (Hs : forall records,
    status (process_all clock self records) = status self).
  { intros records. revert self.
    induction records as [|r records IH]; intros self; simpl; [done|].
    by rewrite IH. }
  by rewrite Hs, <- app_assoc.
Qed.

Lemma records_of_well_formed (stream : list byte) :
  Forall (fun r => r <> [] /\ newline ∉ r) (records_of stream).
Proof.
  unfold records_of.
  pose proof (lines_from_lines [] stream (not_elem_of_nil _)) as H.
  rewrite Forall_forall in H. apply Forall_forall. intros r Hr.
  apply list_elem_of_filter in Hr as [Hne Hin]. split; [done|by apply H].
Qed.

Lemma lines_from_framed (records : list (list byte)) :
  Forall (fun r => newline ∉ r) records ->
  lines_from [] (framed records) = (records, []).
Proof.
  induction 1 as [|r records Hr _ IH]; [done|].
  unfold framed in *. cbn [fmap list_fmap concat].
  rewrite <- app_assoc, lines_from_no_newline by done.
  simpl. by rewrite IH.
Qed.

(** X20.  The records handed to the message callback by a run of the
    receive thread are the non-empty terminated lines of the bytes
    received, in order; the buffer left is the unterminated end of
    those bytes.  How [recv] cut the bytes into reads, and the
    timeouts between them, make no difference. *)
Theorem delivery_independent_of_reads (self : Client)
    (outcomes : list recv_outcome) :
  delivered (_receive_data clock self outcomes).1 =
    delivered self ++ records_of (stream_of outcomes)
  /\ (_receive_data clock self outcomes).2 =
       unterminated (stream_of outcomes).
Proof. by rewrite receive_data_records. Qed.

(** X21.  No record handed over by the receive thread is empty and
    none holds the byte 0x0a, and the buffer left holds no 0x0a: a
    binary message with that byte inside never arrives whole. *)
Theorem delivered_records_hold_no_terminator (self : Client)
    (outcomes : list recv_outcome) :
  exists new : list (list byte),
    delivered (_receive_data clock self outcomes).1 = delivered self ++ new
    /\ Forall (fun r => r <> [] /\ newline ∉ r) new
    /\ newline ∉ (_receive_data clock self outcomes).2.
Proof.
  exists (records_of (stream_of outcomes)).
  rewrite receive_data_records. simpl.
  split; [done|]. split.
  - apply records_of_well_formed.
  - apply unterminated_no_newline.
Qed.

(** X22.  When the bytes received are non-empty records without 0x0a,
    each followed by 0x0a, exactly those records are handed over, in
    order, and nothing is left in the buffer. *)
Theorem framed_records_round_trip (self : Client)
    (outcomes : list recv_outcome) (records : list (list byte)) :
  Forall (fun r => r <> [] /\ newline ∉ r) records ->
  stream_of outcomes = framed records ->
  delivered (_receive_data clock self outcomes).1 = delivered self ++ records
  /\ (_receive_data clock self outcomes).2 = [].
Proof.
  intros Hr Hs. rewrite receive_data_records, Hs. simpl.
  unfold records_of, unterminated.
  rewrite lines_from_framed
    by (eapply Forall_impl; [exact Hr|by intros r [_ ?]]).
  simpl. split; [|done]. f_equal. clear Hs.
  induction Hr as [|r records [Hne _] _ IH]; [done|].
  by rewrite filter_cons_True, IH.
Qed.

(** X23.  A run of the receive thread raises the counter by the number
    of records handed over and, when the log file is open, appends one
    line per record, in order, holding the hex text of the record; it
    ends with the flag cleared and "Connection lost" reported last. *)
Theorem count_and_log_follow_delivery (self : Client)
    (outcomes : list recv_outcome) :
  let self' := (_receive_data clock self outcomes).1 in
  let records := records_of (stream_of outcomes) in
  message_count self' = (message_count self + length records)%nat
  /\ log_file self' =
       (fun lines => lines ++ log_lines clock (message_count self) records)
         <$> log_file self
  /\ (log_lines clock (message_count self) records).*2 =
       Parser.hex <$> records
  /\ connected self' = false
  /\ last (status self') = Some "Connection lost".
Proof.
  intros self' records. subst self'.
  rewrite receive_data_records. simpl.
  split; [done|]. split; [done|]. split; [|split; [done|]].
  - unfold log_lines. generalize (message_count self).
    subst records. induction (records_of (stream_of outcomes)) as [|r rs IH];
      intros k; [done|].
    cbn [imap fmap list_fmap]. f_equal.
    specialize (IH (S k)).
    erewrite imap_ext; [exact IH|].
    intros i x _. simpl. f_equal. f_equal. lia.
  - by rewrite app_assoc, last_snoc.
Qed.

End Stream_framing.

Lemma framed_records_round_trip_witness :
  Transport.delivered
    (Transport._receive_data (fun k => Z.of_nat k)
       Transport.connected_client Transport.two_reads).1 =
    [[x41]; [x42; x43]]
  /\ (Transport._receive_data (fun k => Z.of_nat k)
       Transport.connected_client Transport.two_reads).2 = [].
Proof.
  apply (framed_records_round_trip (fun k => Z.of_nat k)
           Transport.connected_client Transport.two_reads
           [[x41]; [x42; x43]]).
  - repeat constructor; try discriminate;
      rewrite ?elem_of_cons, elem_of_nil; unfold Transport.newline;
      intros H; repeat destruct H as [H|H]; discriminate || done.
  - reflexivity.
Defined.

(* ===================================================================== *)
(** * Properties of the plot series (plotting_manager.py)                 *)
(* ===================================================================== *)

Section Plot_window.

Import Py Plotting.

Lemma latest_latest_app {A : Type} (n : nat) (a b : list A) :
  latest n (latest n a ++ b) = latest n (a ++ b).
Proof.
  unfold latest.
  rewrite <- (drop_app_le a b) by lia.
  rewrite drop_drop. f_equal.
  rewrite length_drop, !length_app. lia.
Qed.

Lemma latest_short {A : Type} (n : nat) (l : list A) :
  (length l <= n)%nat -> latest n l = l.
Proof.
  intros H. unfold latest. replace (length l - n)%nat with 0%nat by lia.
  done.
Qed.

Lemma length_latest {A : Type} (n : nat) (l : list A) :
  length (latest n l) = (length l `min` n)%nat.
Proof. unfold latest. rewrite length_drop. lia. Qed.

Lemma append_latest {A : Type} (d : bounded A) (x : A) :
  (length (items d) <= maxlen d)%nat ->
  items (append d x) = latest (maxlen d) (items d ++ [x])
  /\ maxlen (append d x) = maxlen d.
Proof.
  intros H. unfold append, latest; simpl. split; [|done].
  rewrite length_app; simpl. case_bool_decide as Hl.
  - replace (length (items d) + 1 - maxlen d)%nat with 1%nat by lia.
    by destruct (items d ++ [x]).
  - replace (length (items d) + 1 - maxlen d)%nat with 0%nat by lia.
    done.
Qed.

Lemma foldl_append_latest {A : Type} (d : bounded A) (xs : list A) :
  (length (items d) <= maxlen d)%nat ->
  items (foldl append d xs) = latest (maxlen d) (items d ++ xs)
  /\ maxlen (foldl append d xs) = maxlen d.
Proof.
  revert d. induction xs as [|x xs IH]; intros d H; simpl.
  - rewrite app_nil_r. by rewrite latest_short.
  - destruct (append_latest d x H) as [Hi Hm].
    destruct (IH (append d x)) as [-> ->].
    { rewrite Hi, Hm, length_latest. lia. }
    rewrite Hi, Hm, latest_latest_app, <- app_assoc. done.
Qed.

Lemma add_points_series (self : PlottingManager)
    (points : list (gmap string Q * Z)) :
  let self' := add_points self points in
  max_points self' = max_points self
  /\ time self' = foldl append (time self) points.*2
  /\ sog self' =
       foldl append (sog self) ((fun p => get0 p.1 "sog") <$> points)
  /\ cog self' =
       foldl append (cog self) ((fun p => get0 p.1 "cog") <$> points)
  /\ true_wind_speed self' =
       foldl append (true_wind_speed self)
         ((fun p => get0 p.1 "true_wind_speed") <$> points)
  /\ absolute_wind_direction self' =
       foldl append (absolute_wind_direction self)
         ((fun p => get0 p.1 "absolute_wind_direction") <$> points).
Proof.
  revert self. induction points as [|p points IH]; intros self; [done|].
  specialize (IH (add_data_point self p.1 p.2)). simpl in *.
  exact IH.
Qed.

Lemma resized_latest {A : Type} (m : Z) (d : bounded A) :
  0 <= m ->
  resized m d =
    Ok {| maxlen := Z.to_nat m; items := latest (Z.to_nat m) (items d) |}.
Proof.
  intros Hm. unfold resized, deque.
  rewrite bool_decide_false by lia. f_equal.
  set (d0 := {| maxlen := Z.to_nat m; items := [] |} : bounded A).
  destruct (foldl_append_latest d0 (slice_from_minus m (items d)))
    as [Hi Hl]; [simpl; lia|].
  destruct (foldl append d0 (slice_from_minus m (items d))) as [ml it].
  simpl in *. subst ml it. f_equal.
  unfold slice_from_minus. case_bool_decide.
  - pose proof (latest_latest_app (Z.to_nat m) (items d) []) as H'.
    rewrite !app_nil_r in H'. exact H'.
  - replace m with 0 by lia. simpl. unfold latest.
    by rewrite !Nat.sub_0_r.
Qed.

(** X24.  A plotting manager made for [n >= 0] points and fed any
    number of refreshes holds, in each of its five series, the values
    of the last [n] refreshes in order (0 where the averages lack the
    key): the series stay aligned with the time axis. *)
Theorem plot_series_hold_latest (n : Z) (points : list (gmap string Q * Z)) :
  0 <= n ->
  exists self : PlottingManager,
    init n = Ok self
    /\ let self' := add_points self points in
       let N := Z.to_nat n in
       items (time self') = latest N points.*2
       /\ items (sog self') = latest N ((fun p => get0 p.1 "sog") <$> points)
       /\ items (cog self') = latest N ((fun p => get0 p.1 "cog") <$> points)
       /\ items (true_wind_speed self') =
            latest N ((fun p => get0 p.1 "true_wind_speed") <$> points)
       /\ items (absolute_wind_direction self') =
            latest N
              ((fun p => get0 p.1 "absolute_wind_direction") <$> points).
Proof.
  intros Hn. unfold init, deque. rewrite bool_decide_false by lia.
  eexists. split; [reflexivity|].
  cbv zeta.
  destruct (add_points_series
    {| max_points := n;
       time := {| maxlen := Z.to_nat n; items := [] |};
       sog := {| maxlen := Z.to_nat n; items := [] |};
       cog := {| maxlen := Z.to_nat n; items := [] |};
       true_wind_speed := {| maxlen := Z.to_nat n; items := [] |};
       absolute_wind_direction := {| maxlen := Z.to_nat n; items := [] |} |}
    points) as (_ & Ht & Hs & Hc & Hw & Ha).
  simpl in Ht, Hs, Hc, Hw, Ha. simpl.
  rewrite Ht, Hs, Hc, Hw, Ha.
  repeat split;
    match goal with
    | |- items (foldl append ?d ?xs) = _ =>
        destruct (foldl_append_latest d xs) as [-> _]; [simpl; lia|done]
    end.
Qed.

(** X25.  [set_max_points(m)] with [m >= 0] keeps, in each series, the
    last [m] points it held, in order, and bounds the series by [m]
    from then on; with [m = 0] every series is emptied. *)
Theorem set_max_points_keeps_latest (self : PlottingManager) (m : Z) :
  0 <= m ->
  exists self' : PlottingManager,
    set_max_points self m = Ok self'
    /\ max_points self' = m
    /\ time self' =
         {| maxlen := Z.to_nat m;
            items := latest (Z.to_nat m) (items (time self)) |}
    /\ sog self' =
         {| maxlen := Z.to_nat m;
            items := latest (Z.to_nat m) (items (sog self)) |}
    /\ cog self' =
         {| maxlen := Z.to_nat m;
            items := latest (Z.to_nat m) (items (cog self)) |}
    /\ true_wind_speed self' =
         {| maxlen := Z.to_nat m;
            items := latest (Z.to_nat m) (items (true_wind_speed self)) |}
    /\ absolute_wind_direction self' =
         {| maxlen := Z.to_nat m;
            items :=
              latest (Z.to_nat m) (items (absolute_wind_direction self)) |}.
Proof.
  intros Hm. unfold set_max_points.
  rewrite !resized_latest by done. simpl.
  eexists. split; [reflexivity|]. simpl. repeat split.
Qed.

End Plot_window.

Lemma plot_series_hold_latest_witness :
  exists self : Plotting.PlottingManager,
    Plotting.init 2 = Py.Ok self
    /\ Plotting.items (Plotting.time (Plotting.add_points self Plotting.three_points))
       = [20; 30]
    /\ Plotting.items (Plotting.sog (Plotting.add_points self Plotting.three_points))
       = [0%Q; (7 # 1)%Q].
Proof.
  destruct (plot_series_hold_latest 2 Plotting.three_points) as (self & Hi & Ht & Hs & _);
    [lia|].
  exists self. split; [exact Hi|]. split; [exact Ht|exact Hs].
Defined.

Lemma set_max_points_keeps_latest_witness :
  exists self' : Plotting.PlottingManager,
    Plotting.set_max_points
      {| Plotting.max_points := 3;
         Plotting.time := {| Plotting.maxlen := 3%nat; Plotting.items := [10; 20; 30] |};
         Plotting.sog := {| Plotting.maxlen := 3%nat; Plotting.items := [] |};
         Plotting.cog := {| Plotting.maxlen := 3%nat; Plotting.items := [] |};
         Plotting.true_wind_speed := {| Plotting.maxlen := 3%nat; Plotting.items := [] |};
         Plotting.absolute_wind_direction :=
           {| Plotting.maxlen := 3%nat; Plotting.items := [] |} |} 2 = Py.Ok self'
    /\ Plotting.items (Plotting.time self') = [20; 30].
Proof.
  destruct (set_max_points_keeps_latest
    {| Plotting.max_points := 3;
       Plotting.time := {| Plotting.maxlen := 3%nat; Plotting.items := [10; 20; 30] |};
       Plotting.sog := {| Plotting.maxlen := 3%nat; Plotting.items := [] |};
       Plotting.cog := {| Plotting.maxlen := 3%nat; Plotting.items := [] |};
       Plotting.true_wind_speed := {| Plotting.maxlen := 3%nat; Plotting.items := [] |};
       Plotting.absolute_wind_direction :=
         {| Plotting.maxlen := 3%nat; Plotting.items := [] |} |} 2)
    as (self' & Hs & _ & Ht & _); [lia|].
  exists self'. split; [exact Hs|]. by rewrite Ht.
Defined.

(* ===================================================================== *)
(** * Properties of the message handler (nmea2000_app.py)                 *)
(* ===================================================================== *)

Section Message_handler.

Import Py App.

Variable atan2_degrees : Q -> Q -> Q -> Q -> Q.
Variable degrees_value : Parser.degrees -> Q.

Lemma stamped_build : stamped (averager build).
Proof. split; [by intros key|]. by exists []. Qed.

Lemma sample_stamped (av : Averager.DataAverager) (C : string) (v : Q)
    (clock : nat -> Z) (i : nat) :
  stamped av -> C ∈ Averager.channels ->
  exists av', sample av C v clock i = Ok av' /\ stamped av'.
Proof.
  intros [Hk [calls Hts]] HC.
  destruct (add_data_stamps av
    {| Averager.ap_data_type := C; Averager.ap_value := v;
       Averager.ap_timestamp := None;
       Averager.ap_now0 := clock i; Averager.ap_now1 := clock (S i) |}
    calls Hk HC Hts) as (av' & Hadd & Hts').
  simpl in Hadd. exists av'. split; [exact Hadd|]. split.
  - by eapply add_data_keys.
  - by eexists.
Qed.

Lemma course_to_next_total (self : NavStore.Store) :
  is_ok (NavStore.calculate_course_to_next_waypoint atan2_degrees self).
Proof.
  unfold NavStore.calculate_course_to_next_waypoint.
  destruct (_ && _); [|done].
  pose proof (get_next_waypoint_total (NavStore.nav self)) as H.
  destruct (NavData.get_next_waypoint_in_route _) as [[wp|]|e]; done.
Qed.

Ltac channel := unfold Averager.channels; rewrite !elem_of_cons; tauto.

Ltac take_sample H :=
  match goal with
  | |- context [sample ?av ?C ?v ?clock ?i] =>
      let av' := fresh "av" in
      let Hs := fresh "Hs" in
      destruct (sample_stamped av C v clock i H) as (av' & -> & Hs);
      [channel|]; unfold mbind, result_bind; cbv beta iota zeta
  end.

Lemma process_parsed_total (self : NMEA2000App) (parsed : Parser.event)
    (clock : nat -> Z) :
  stamped (averager self) ->
  exists self',
    _process_parsed_message atan2_degrees degrees_value self parsed clock
      = Ok self'
    /\ stamped (averager self').
Proof.
  intros H. destruct parsed as [| | ? ? [] | | | | | | | |];
    cbn [_process_parsed_message]; try (eexists; split; [reflexivity|exact H]).
  - take_sample H. take_sample Hs. take_sample Hs0.
    eexists. split; [reflexivity|done].
  - take_sample H. take_sample Hs.
    eexists. split; [reflexivity|done].
  - take_sample H. take_sample Hs. take_sample Hs0.
    eexists. split; [reflexivity|done].
  - match goal with
    | |- context [NavStore.calculate_course_to_next_waypoint _ ?n] =>
        pose proof (course_to_next_total n) as Hc;
        destruct (NavStore.calculate_course_to_next_waypoint _ n) as [n'|];
        [|done]
    end.
    eexists. split; [reflexivity|exact H].
Qed.

Lemma on_message_total (self : NMEA2000App) (raw_data : list byte)
    (clock : nat -> Z) :
  stamped (averager self) ->
  exists self',
    on_message_received atan2_degrees degrees_value self raw_data clock
      = Ok self'
    /\ stamped (averager self').
Proof.
  intros H. unfold on_message_received.
  destruct (Parser.parse_message raw_data) as [parsed|].
  - by apply process_parsed_total.
  - by exists self.
Qed.

(** X26.  Whatever records arrive, in whatever order and at whatever
    times, the message handler started from the freshly built
    components returns on each of them: no record makes it raise. *)
Theorem handler_never_raises (records : list (list byte * (nat -> Z))) :
  is_ok (on_messages atan2_degrees degrees_value build records).
Proof.
  pose proof stamped_build as H. revert H.
  generalize build. induction records as [|[raw_data clock] records IH];
    intros self H; [done|].
  cbn [on_messages].
  destruct (on_message_total self raw_data clock H) as (self' & -> & H').
  by apply IH.
Qed.

(** X27.  A record whose selector is none of the eight the handler has
    a branch for leaves navigation store and averager as they were;
    this holds for unknown selectors, for records too short to carry
    one, and for selector 129540, which the decoder does recognise. *)
Theorem unhandled_record_changes_nothing (self : NMEA2000App)
    (raw_data : list byte) (clock : nat -> Z) :
  Parser.selector raw_data ∉ handled_selectors ->
  on_message_received atan2_degrees degrees_value self raw_data clock
    = Ok self.
Proof.
  intros Hsel. unfold on_message_received, Parser.parse_message,
    Parser.parse_message_body.
  case_bool_decide as Hlen; [done|].
  destruct (header_unpacks raw_data) as (v & Hv & Hs); [lia|].
  rewrite Hv. unfold mbind, result_bind. cbv beta iota zeta.
  rewrite Hs in Hsel.
  destruct (decide (Parser.pgn_of v = 129540)) as [Hp|Hp].
  - rewrite Hp.
    rewrite (pgn_parsers_lookup 129540 Parser.parse_waypoint_list)
      by (rewrite !elem_of_cons; tauto).
    unfold Parser.parse_waypoint_list. by case_bool_decide.
  - rewrite pgn_parsers_unknown; [done|].
    unfold Parser.known_selectors. unfold handled_selectors in Hsel.
    rewrite !elem_of_cons, elem_of_nil in *. tauto.
Qed.

(** X28.  A course and speed record (selector 129026, payload of eight
    bytes or more) is handled without error and leaves in the store the
    course of bytes 2-3 and the speed of bytes 4-5 of the payload, the
    speed also as VMG; the rest of the store (position, waypoint,
    route) is as before. *)
Theorem course_speed_record_end_to_end (self : NMEA2000App)
    (raw_data : list byte) (clock : nat -> Z) :
  stamped (averager self) ->
  Parser.selector raw_data = 129026 ->
  (16 <= length raw_data)%nat ->
  exists self',
    on_message_received atan2_degrees degrees_value self raw_data clock
      = Ok self'
    /\ let payload := drop 8 raw_data in
       let n := NavStore.nav (nav_data self) in
       let n' := NavStore.nav (nav_data self') in
       NavData.current_cog n' =
         degrees_value (Parser.DegOfRadE4 (Parser.u16_at payload 2))
       /\ NavData.current_sog n' = Parser.scale_1e2 (Parser.u16_at payload 4)
       /\ NavData.current_vmg n' = NavData.current_sog n'
       /\ NavStore.guide (nav_data self') = NavStore.guide (nav_data self)
       /\ NavData.route_waypoints n' = NavData.route_waypoints n
       /\ NavData.waypoint_sequence n' = NavData.waypoint_sequence n
       /\ NavData.current_waypoint_id n' = NavData.current_waypoint_id n.
Proof.
  intros H Hsel Hlen.
  unfold on_message_received, Parser.parse_message, Parser.parse_message_body.
  rewrite bool_decide_false by lia.
  destruct (header_unpacks raw_data) as (v & Hv & Hs); [lia|].
  rewrite Hv. unfold mbind at 1, result_bind at 1. cbv beta iota zeta.
  rewrite <- Hs, Hsel.
  rewrite (pgn_parsers_lookup 129026 Parser.parse_cog_sog_rapid_update)
    by (rewrite !elem_of_cons; tauto).
  rewrite parse_cog_sog_rapid_update_fields by (rewrite length_drop; lia).
  cbn [_process_parsed_message].
  take_sample H. take_sample Hs0. take_sample Hs1.
  eexists. split; [reflexivity|].
  destruct self as [[n g] ?]. simpl. repeat split.
Qed.

End Message_handler.

Lemma course_speed_record_end_to_end_witness :
  exists self',
    App.on_message_received (fun _ _ _ _ => 0%Q)
      (fun d => match d with Parser.DegOfRadE4 raw => inject_Z raw end)
      App.build App.cog_sog_record (fun i => Z.of_nat i) = Py.Ok self'
    /\ (NavData.current_sog (NavStore.nav (App.nav_data self')) == 6 # 1)%Q
    /\ (NavData.current_vmg (NavStore.nav (App.nav_data self')) == 6 # 1)%Q.
Proof.
  destruct (course_speed_record_end_to_end (fun _ _ _ _ => 0%Q)
    (fun d => match d with Parser.DegOfRadE4 raw => inject_Z raw end)
    App.build App.cog_sog_record (fun i => Z.of_nat i))
    as (self' & Hrun & _ & Hsog & Hvmg & _).
  - split; [intros key; reflexivity|]. exists []. reflexivity.
  - reflexivity.
  - simpl. lia.
  - exists self'. split; [exact Hrun|].
    rewrite Hvmg, Hsog. split; vm_compute; reflexivity.
Defined.

Lemma unhandled_record_changes_nothing_witness :
  App.on_message_received (fun _ _ _ _ => 0%Q)
    (fun d => match d with Parser.DegOfRadE4 raw => inject_Z raw end)
    App.build App.sats_record (fun i => Z.of_nat i) = Py.Ok App.build.
Proof.
  apply unhandled_record_changes_nothing.
  unfold App.handled_selectors. rewrite !elem_of_cons, elem_of_nil.
  vm_compute. intros H. repeat destruct H as [H|H]; discriminate || done.
Defined.
